(** * The GraphRAG knowledge-base service, embedded and verified

    A shallow embedding of [backend/app/services/graphrag_service.py]
    (class [GraphRAGService]) and of [clean_text] of
    [backend/app/utils/pdf_converter.py], with the parts of Python's [str],
    [pathlib] and the file system that they call.

    Modelling conventions.
    - A Python [str] is a list of code points.  Code points are the 256 values
      of [ascii], read as Latin-1, so [is_space] and [lower] are Python's own
      on that range.
    - The file system is a tree of directories whose entries are kept in
      listing order (the order [glob] yields them in).
    - Service methods run in a state monad over the file system and the
      chronological list of observable events (printed diagnostics and calls
      of [create_subprocess_exec], which start a process when the binary is
      found); a Python exception that leaves the method is the outcome
      [Raised].
    - What a spawned process does, whether the host refuses a removal and
      what the removal had removed by then are parameters of the service
      ([Host]).
    - The tree has no [..] entries and no links: what is said of the other
      paths of a written file is said for file names that are one path
      component.

    The definitions come first: the library operations, the service, the
    vocabulary of the statements and sample inputs.  The properties
    follow. *)

From Stdlib Require Import Ascii String ZArith Lia.
From stdpp Require Import base relations option list gmap strings sorting.

Set Default Proof Using "Type".
Local Open Scope nat_scope.

(** ** Python strings *)

Module PyStr.

Abbreviation str := (list ascii).

(** Literals are written as Rocq strings. *)
Definition py (s : string) : str := list_ascii_of_string s.

Definition code (c : ascii) : N := N_of_ascii c.

(** [str.isspace] on one code point below 256: TAB..CR, FS..US, SPACE,
    NEL and NBSP. *)
Definition is_space (c : ascii) : bool :=
  let n := code c in
  ((9 <=? n) && (n <=? 13) || (28 <=? n) && (n <=? 32)
   || (n =? 133) || (n =? 160))%N.

(** [str.lower] on one code point below 256: A..Z and the Latin-1 capitals
    (0xC0..0xDE except the multiplication sign 0xD7) move up by 32. *)
Definition lower_char (c : ascii) : ascii :=
  let n := code c in
  if ((65 <=? n) && (n <=? 90)
      || (192 <=? n) && (n <=? 222) && negb (n =? 215))%N
  then ascii_of_N (n + 32) else c.

Definition lower (s : str) : str := map lower_char s.

Fixpoint lstrip (s : str) : str :=
  match s with
  | c :: r => if is_space c then lstrip r else s
  | [] => []
  end.

Definition rstrip (s : str) : str := rev (lstrip (rev s)).

(** [s.strip()] *)
Definition strip (s : str) : str := rstrip (lstrip s).

(** [strip_prefix p s] is [Some r] exactly when [s = p ++ r]. *)
Fixpoint strip_prefix (p s : str) : option str :=
  match p, s with
  | [], _ => Some s
  | a :: p', b :: s' => if decide (a = b) then strip_prefix p' s' else None
  | _ :: _, [] => None
  end.

(** [s.startswith(p)] *)
Definition startswith (s p : str) : bool :=
  match strip_prefix p s with Some _ => true | None => false end.

(** [s.endswith(p)] *)
Definition endswith (s p : str) : bool := startswith (rev s) (rev p).

(** [sub in s] *)
Fixpoint contains (sub s : str) : bool :=
  startswith s sub ||
  match s with
  | [] => false
  | _ :: r => contains sub r
  end.

(** [s.replace(old, new)] for a non-empty [old]: leftmost occurrences,
    never overlapping.  The fuel is the length of [s]; every recursive call
    is on a strictly shorter string. *)
Fixpoint replace_fuel (n : nat) (old new s : str) : str :=
  match n with
  | 0 => s
  | S n' =>
      match strip_prefix old s with
      | Some rest => new ++ replace_fuel n' old new rest
      | None =>
          match s with
          | [] => []
          | c :: r => c :: replace_fuel n' old new r
          end
      end
  end.

Definition replace (old new s : str) : str :=
  replace_fuel (length s) old new s.

(** [s.split(sep)] for a non-empty [sep] (Python raises [ValueError] on an
    empty one; the service only splits on a two-character separator). *)
Fixpoint split_fuel (n : nat) (sep s : str) : list str :=
  match n with
  | 0 => [s]
  | S n' =>
      match strip_prefix sep s with
      | Some rest => [] :: split_fuel n' sep rest
      | None =>
          match s with
          | [] => [[]]
          | c :: r =>
              match split_fuel n' sep r with
              | p :: ps => (c :: p) :: ps
              | [] => [[c]]
              end
          end
      end
  end.

Definition split (sep s : str) : list str := split_fuel (length s) sep s.

(** [sep.join(parts)] *)
Fixpoint join (sep : str) (parts : list str) : str :=
  match parts with
  | [] => []
  | [p] => p
  | p :: ps => p ++ sep ++ join sep ps
  end.

(** [s.split()] with no argument: maximal runs of non-space characters.
    [cur] is the word being read, reversed. *)
Fixpoint split_ws_aux (cur : str) (s : str) : list str :=
  match s with
  | [] => match cur with [] => [] | _ => [rev cur] end
  | c :: r =>
      if is_space c
      then match cur with
           | [] => split_ws_aux [] r
           | _ => rev cur :: split_ws_aux [] r
           end
      else split_ws_aux (c :: cur) r
  end.

Definition split_ws (s : str) : list str := split_ws_aux [] s.

(** [s[:n]] for a list or a string, with Python's reading of a negative
    bound (counted from the end, clamped at the start). *)
Definition slice_to {A} (n : Z) (l : list A) : list A :=
  if (0 <=? n)%Z then take (Z.to_nat n) l
  else take (length l - Z.to_nat (- n)) l.

(** [s.count(sub)] for a non-empty [sub]: non-overlapping occurrences. *)
Definition count (sub s : str) : nat := length (split sub s) - 1.

(** Text-mode reading with universal newlines: CR LF and a lone CR both
    arrive as LF. *)
Fixpoint universal_newlines (s : str) : str :=
  match s with
  | [] => []
  | c :: r =>
      if decide (c = "013"%char)
      then match r with
           | c' :: r' =>
               if decide (c' = "010"%char)
               then "010"%char :: universal_newlines r'
               else "010"%char :: universal_newlines r
           | [] => ["010"%char]
           end
      else c :: universal_newlines r
  end.

End PyStr.
Import PyStr.


(** ** pathlib

    A path is the list of its components below the root.  [PurePath] models
    the POSIX flavour as of Python 3.8 to 3.13. *)

Abbreviation path := (list str).

Module PurePath.

Definition is_absolute (s : str) : bool := startswith s (py "/").

(** Components of a path string: split on the separator; empty and [.]
    components are dropped. *)
Definition keep_part (c : str) : bool :=
  negb (bool_decide (c = [])) && negb (bool_decide (c = py ".")).

Definition parts (s : str) : path := List.filter keep_part (split (py "/") s).

(** [Path(s).name]: the final component, empty when there is none. *)
Definition name (s : str) : str := default [] (last (parts s)).

(** [s.rfind(c)], [None] standing for [-1]. *)
Fixpoint rfind (c : ascii) (s : str) : option nat :=
  match s with
  | [] => None
  | a :: r =>
      match rfind c r with
      | Some i => Some (S i)
      | None => if decide (a = c) then Some 0 else None
      end
  end.

(** [Path(s).stem]: the name without its last suffix; a leading or a
    trailing dot does not start a suffix. *)
Definition stem (s : str) : str :=
  let n := name s in
  match rfind "."%char n with
  | Some i => if (0 <? i) && (i <? length n - 1) then take i n else n
  | None => n
  end.

(** [base / s]: an absolute right operand replaces the left one. *)
Definition joinpath (base : path) (s : str) : path :=
  if is_absolute s then parts s else base ++ parts s.

End PurePath.

(** ** The file system

    A regular file holds its decoded text, [None] when its bytes are not
    valid UTF-8.  Directory entries are searched by name, first match first.
    The tree has no [..] links: a path through one is reported missing. *)

Module FS.

#[warnings="-register-all"]
Inductive node :=
| File (text : option str)
| Dir (entries : list (str * node)).

Fixpoint assoc (k : str) (es : list (str * node)) : option node :=
  match es with
  | [] => None
  | (k', v) :: es' => if decide (k = k') then Some v else assoc k es'
  end.

(** Rebind the first entry called [k], or add one at the end. *)
Fixpoint set_entry (k : str) (v : node) (es : list (str * node))
  : list (str * node) :=
  match es with
  | [] => [(k, v)]
  | (k', v') :: es' =>
      if decide (k = k') then (k, v) :: es' else (k', v') :: set_entry k v es'
  end.

Definition del_entry (k : str) (es : list (str * node)) : list (str * node) :=
  List.filter (λ e, negb (bool_decide (k = e.1))) es.

Fixpoint lookup (p : path) (n : node) : option node :=
  match p with
  | [] => Some n
  | c :: p' =>
      match n with
      | Dir es =>
          match assoc c es with
          | Some ch => lookup p' ch
          | None => None
          end
      | File _ => None
      end
  end.

(** [p.exists()] *)
Definition exists_ (p : path) (n : node) : bool :=
  match lookup p n with Some _ => true | None => false end.

(** [p.mkdir(parents=True, exist_ok=True)]: [None] when a component of [p]
    is a regular file ([FileExistsError], [NotADirectoryError]). *)
Fixpoint mkdir_p (p : path) (n : node) : option node :=
  match n with
  | File _ => None
  | Dir es =>
      match p with
      | [] => Some n
      | c :: p' =>
          match assoc c es with
          | Some ch =>
              match mkdir_p p' ch with
              | Some ch' => Some (Dir (set_entry c ch' es))
              | None => None
              end
          | None =>
              match mkdir_p p' (Dir []) with
              | Some ch' => Some (Dir (set_entry c ch' es))
              | None => None
              end
          end
      end
  end.

(** [p.write_text(s, encoding="utf-8")]: creates or overwrites a regular
    file; [None] when the parent is not a directory or [p] is one. *)
Fixpoint write_text (p : path) (s : str) (n : node) : option node :=
  match n with
  | File _ => None
  | Dir es =>
      match p with
      | [] => None
      | [c] =>
          match assoc c es with
          | Some (Dir _) => None
          | _ => Some (Dir (set_entry c (File (Some s)) es))
          end
      | c :: p' =>
          match assoc c es with
          | Some ch =>
              match write_text p' s ch with
              | Some ch' => Some (Dir (set_entry c ch' es))
              | None => None
              end
          | None => None
          end
      end
  end.

(** [p.read_text(encoding="utf-8")]: [None] when [p] is missing, is a
    directory or does not decode. *)
Definition read_text (p : path) (n : node) : option str :=
  match lookup p n with
  | Some (File (Some s)) => Some (universal_newlines s)
  | _ => None
  end.

(** [shutil.rmtree(p)] on an existing directory below the root. *)
Fixpoint rmtree (p : path) (n : node) : option node :=
  match n with
  | File _ => None
  | Dir es =>
      match p with
      | [] => None
      | [c] =>
          match assoc c es with
          | Some (Dir _) => Some (Dir (del_entry c es))
          | _ => None
          end
      | c :: p' =>
          match assoc c es with
          | Some ch =>
              match rmtree p' ch with
              | Some ch' => Some (Dir (set_entry c ch' es))
              | None => None
              end
          | None => None
          end
      end
  end.

(** What [shutil.rmtree] leaves of a tree when it raises part of the way.
    It removes entry after entry, a directory once it is empty, and stops at
    the first error: by then some entries are gone, with all they held, and
    the others are as they were.  [gone] tells, for a path below the root of
    the removal, whether that entry is gone; [here] is the path of [n]. *)
Fixpoint prune (gone : path → bool) (here : path) (n : node) : node :=
  match n with
  | File text => File text
  | Dir es =>
      Dir ((fix entries (es : list (str * node)) : list (str * node) :=
              match es with
              | [] => []
              | (k, ch) :: es' =>
                  if gone (here ++ [k]) then entries es'
                  else (k, prune gone (here ++ [k]) ch) :: entries es'
              end) es)
  end.

(** The same below [p], which itself stays: [shutil.rmtree(p)] removes [p]
    last, and raises no more once it has. *)
Fixpoint prune_at (p : path) (gone : path → bool) (n : node) : node :=
  match p with
  | [] => prune gone [] n
  | c :: p' =>
      match n with
      | Dir es =>
          match assoc c es with
          | Some ch => Dir (set_entry c (prune_at p' gone ch) es)
          | None => n
          end
      | File _ => n
      end
  end.

(** Names listed in directory [p], in listing order. *)
Definition listdir (p : path) (n : node) : list str :=
  match lookup p n with
  | Some (Dir es) => map fst es
  | _ => []
  end.

(** [p.glob("*" + suffix)]: the entries of [p] whose name ends in [suffix],
    files and directories alike, hidden ones included. *)
Definition glob (suffix : str) (p : path) (n : node) : list path :=
  map (λ k, p ++ [k]) (List.filter (λ k, endswith k suffix) (listdir p n)).

End FS.
Import FS.

(** ** The service: state, events and the host *)

Module Service.

Definition nl : str := ["010"%char].
Definition dq : str := ["034"%char].

(** The part of [app.config.Settings] the service reads. *)
Record Settings := {
  openai_api_key : str;
  openai_model : str;
  openai_embedding_model : str;
  openai_base_url : str
}.

(** What [asyncio.create_subprocess_exec] followed by [communicate] comes
    to: the binary is missing ([FileNotFoundError]), the call fails with
    another exception, or the process exits, leaving its return code, its
    two output streams (decoded; [None] for bytes that do not decode) and
    the file system as the process left it. *)
Inductive proc_result :=
| ProcNotFound
| ProcError
| ProcExit (returncode : Z) (stdout stderr : option str) (fs' : node).

(** The host is outside the program: what a spawned command does, whether
    removing a tree is refused and, when it is, which entries below the tree
    (by their path from its root) were removed before the refusal. *)
Record Host := {
  run_process : list str → list (str * str) → node → proc_result;
  rmtree_fails : path → node → bool;
  rmtree_removed : path → node → path → bool
}.

(** [self]: [base_dir] is [Path(settings.graphrag_data_dir)] as an absolute
    path. *)
Record GraphRAGService := {
  base_dir : path;
  settings : Settings;
  host : Host
}.

(** Printed diagnostics, one constructor per report of the source (the
    consecutive [print] calls of one report are one message), carrying the
    values the text is formatted from. *)
Inductive message :=
| MsgShortDocument (filename : str) (chars : nat)
| MsgSaved (filename : str) (chars : nat)
| MsgDebugHeader (conversation_id : str)
| MsgDebugNoFiles
| MsgDebugFile (name : str) (size newlines paragraphs : nat)
    (head : str) (truncated : bool)
| MsgDebugReadError (name : str)
| MsgDebugFooter
| MsgNoDocuments
| MsgValidating (files : nat)
| MsgFileChars (name : str) (chars : nat)
| MsgReadError (name : str)
| MsgTotal (chars files : nat)
| MsgInsufficient
| MsgLowVolume
| MsgApiKeyMissing
| MsgGeneratedSettings (p : path)
| MsgCustomBaseUrl (url : str)
| MsgStartIndexing (root : path) (model embedding : str)
| MsgIndexFailed (returncode : Z) (stderr stdout : str)
| MsgTipEmptyDataFrame
| MsgTipChunking
| MsgIndexDone
| MsgArtifacts (files : nat)
| MsgCliMissing
| MsgIndexException
| MsgTraceback
| MsgNoIndex
| MsgInvalidMethod (method : str)
| MsgQuerying (method : str) (preview : str) (ellipsis : bool)
| MsgQueryError (stderr stdout : str)
| MsgRawLength (chars : nat)
| MsgEmptyResponse
| MsgQueryDone
| MsgQueryException
| MsgSearchReadError (name : str)
| MsgSearchFound (chunks : nat)
| MsgDeleted (conversation_id : str)
| MsgDeleteError.

Inductive event :=
| Print (m : message)
| Exec (argv : list str) (env : list (str * str)).

Definition is_exec (e : event) : bool :=
  match e with Exec _ _ => true | Print _ => false end.

Record state := { fs : node; log : list event }.

(** Calls of [create_subprocess_exec] made so far. *)
Definition spawned (st : state) : list event := List.filter is_exec (log st).

Inductive outcome (A : Type) :=
| Returned (a : A)
| Raised.
Arguments Returned {A} a.
Arguments Raised {A}.

Definition M (A : Type) : Type := state → outcome A * state.

Definition ret {A} (a : A) : M A := λ st, (Returned a, st).

Definition bind {A B} (m : M A) (k : A → M B) : M B :=
  λ st, match m st with
        | (Returned a, st') => k a st'
        | (Raised, st') => (Raised, st')
        end.

Notation "'let*' x := m 'in' k" := (bind m (λ x, k))
  (at level 10, x pattern, m at level 100, k at level 200).

(** [try: m except Exception: ...]: the outcome of [m] as a value. *)
Definition catch {A} (m : M A) : M (option A) :=
  λ st, match m st with
        | (Returned a, st') => (Returned (Some a), st')
        | (Raised, st') => (Returned None, st')
        end.

Definition when (b : bool) (m : M unit) : M unit := if b then m else ret tt.

Definition print (m : message) : M unit :=
  λ st, (Returned tt, {| fs := fs st; log := log st ++ [Print m] |}).

Definition mkdir (p : path) : M unit :=
  λ st, match mkdir_p p (fs st) with
        | Some fs' => (Returned tt, {| fs := fs'; log := log st |})
        | None => (Raised, st)
        end.

Definition path_exists (p : path) : M bool :=
  λ st, (Returned (exists_ p (fs st)), st).

Definition glob_paths (suffix : str) (p : path) : M (list path) :=
  λ st, (Returned (glob suffix p (fs st)), st).

(** [p.read_text(...)] under [try]: [None] when it raises. *)
Definition try_read_text (p : path) : M (option str) :=
  λ st, (Returned (read_text p (fs st)), st).

Definition read_text_or_raise (p : path) : M str :=
  λ st, match read_text p (fs st) with
        | Some s => (Returned s, st)
        | None => (Raised, st)
        end.

Definition write (p : path) (s : str) : M unit :=
  λ st, match write_text p s (fs st) with
        | Some fs' => (Returned tt, {| fs := fs'; log := log st |})
        | None => (Raised, st)
        end.

Definition create_subprocess_exec (self : GraphRAGService)
    (argv : list str) (env : list (str * str)) : M proc_result :=
  λ st,
    let r := run_process (host self) argv env (fs st) in
    (Returned r,
     {| fs := match r with ProcExit _ _ _ fs' => fs' | _ => fs st end;
        log := log st ++ [Exec argv env] |}).

(** [p.name] of a path made by [glob]. *)
Definition path_name (p : path) : str := default [] (last p).

(** [str(p)] *)
Definition path_str (p : path) : str := py "/" ++ join (py "/") p.

(** *** Directory helpers (source lines 32 to 54) *)

Definition get_conversation_dir (self : GraphRAGService)
    (conversation_id : str) : M path :=
  let conv_dir := base_dir self ++ [conversation_id] in
  let* _ := mkdir conv_dir in
  ret conv_dir.

Definition get_input_dir (self : GraphRAGService)
    (conversation_id : str) : M path :=
  let* conv_dir := get_conversation_dir self conversation_id in
  let input_dir := conv_dir ++ [py "input"] in
  let* _ := mkdir input_dir in
  ret input_dir.

Definition get_output_dir (self : GraphRAGService)
    (conversation_id : str) : M path :=
  let* conv_dir := get_conversation_dir self conversation_id in
  let output_dir := conv_dir ++ [py "output"] in
  let* _ := mkdir output_dir in
  ret output_dir.

Definition get_cache_dir (self : GraphRAGService)
    (conversation_id : str) : M path :=
  let* conv_dir := get_conversation_dir self conversation_id in
  let cache_dir := conv_dir ++ [py "cache"] in
  let* _ := mkdir cache_dir in
  ret cache_dir.

(** *** Document handling (source lines 59 to 143) *)

(** Lines 85 to 87: paragraph breaks at sentence boundaries. *)
Definition add_paragraph_breaks (content : str) : str :=
  if negb (contains (nl ++ nl) content) && (200 <? length content)
  then replace (py ". ") (py "." ++ nl ++ nl) content
  else content.

(** Lines 90 and 91. *)
Definition ensure_trailing_newline (content : str) : str :=
  if negb (endswith content nl) then content ++ nl else content.

(** Lines 74 and 75: the name the document is written under. *)
Definition text_filename (filename : str) : str :=
  if negb (endswith filename (py ".txt"))
  then PurePath.stem filename ++ py ".txt"
  else filename.

Definition save_document (self : GraphRAGService)
    (conversation_id filename content : str) : M path :=
  let* input_dir := get_input_dir self conversation_id in
  let filename := text_filename filename in
  let content := strip content in
  let* _ := when (length content <? 100)
              (print (MsgShortDocument filename (length content))) in
  let content := add_paragraph_breaks content in
  let content := ensure_trailing_newline content in
  let file_path := PurePath.joinpath input_dir filename in
  let* _ := write file_path content in
  let* _ := print (MsgSaved filename (length content)) in
  ret file_path.

(** The text [save_document] hands to [write_text] for [content]. *)
Definition format_content (content : str) : str :=
  ensure_trailing_newline (add_paragraph_breaks (strip content)).

Fixpoint list_documents_loop (files : list path)
    (documents : list (str * nat)) : M (list (str * nat)) :=
  match files with
  | [] => ret documents
  | txt_file :: rest =>
      let* content := read_text_or_raise txt_file in
      list_documents_loop rest
        (documents ++ [(path_name txt_file, length content)])
  end.

Definition list_documents (self : GraphRAGService)
    (conversation_id : str) : M (list (str * nat)) :=
  let* input_dir := get_input_dir self conversation_id in
  let* files := glob_paths (py ".txt") input_dir in
  list_documents_loop files [].

Fixpoint debug_files_loop (files : list path) : M unit :=
  match files with
  | [] => ret tt
  | txt_file :: rest =>
      let* r := try_read_text txt_file in
      let* _ :=
        match r with
        | Some content =>
            print (MsgDebugFile (path_name txt_file) (length content)
                     (count nl content) (count (nl ++ nl) content)
                     (slice_to 300 content) (300 <? length content))
        | None => print (MsgDebugReadError (path_name txt_file))
        end in
      debug_files_loop rest
  end.

Definition debug_input_files (self : GraphRAGService)
    (conversation_id : str) : M unit :=
  let* input_dir := get_input_dir self conversation_id in
  let* _ := print (MsgDebugHeader conversation_id) in
  let* txt_files := glob_paths (py ".txt") input_dir in
  match txt_files with
  | [] => print MsgDebugNoFiles
  | _ =>
      let* _ := debug_files_loop txt_files in
      print MsgDebugFooter
  end.

(** *** The generated configuration (source lines 496 to 563) *)

Definition _create_settings_yaml (self : GraphRAGService)
    (conversation_id : str) : str :=
  let s := settings self in
  strip (join nl
    [ py "";
      py "encoding_model: cl100k_base";
      py "skip_workflows: []";
      py "";
      py "llm:";
      py "  api_key: ${GRAPHRAG_API_KEY}";
      py "  type: openai_chat";
      py "  model: " ++ openai_model s;
      py "  max_tokens: 4000";
      py "  temperature: 0.0";
      py "  request_timeout: 180.0";
      py "";
      py "embeddings:";
      py "  async_mode: threaded";
      py "  llm:";
      py "    api_key: ${GRAPHRAG_API_KEY}";
      py "    type: openai_embedding";
      py "    model: " ++ openai_embedding_model s;
      py "    request_timeout: 180.0";
      py "";
      py "input:";
      py "  type: file";
      py "  file_type: text";
      py "  base_dir: " ++ dq ++ py "input" ++ dq;
      py "  encoding: utf-8";
      py "";
      py "storage:";
      py "  type: file";
      py "  base_dir: " ++ dq ++ py "output" ++ dq;
      py "";
      py "cache:";
      py "  type: file";
      py "  base_dir: " ++ dq ++ py "cache" ++ dq;
      py "";
      py "chunks:";
      py "  size: 300";
      py "  overlap: 50";
      py "  group_by_columns: [id]";
      py "";
      py "entity_extraction:";
      py "  max_gleanings: 1";
      py "  entity_types: [organization, person, location, event, concept, technology, law, regulation]";
      py "";
      py "claim_extraction:";
      py "  enabled: false";
      py "";
      py "community_reports:";
      py "  max_length: 1500";
      py "";
      py "local_search:";
      py "  text_unit_prop: 0.5";
      py "  community_prop: 0.25";
      py "  conversation_history_max_turns: 5";
      py "  top_k_entities: 10";
      py "  top_k_relationships: 10";
      py "  max_tokens: 8000";
      py "";
      py "global_search:";
      py "  max_tokens: 8000";
      py "  data_max_tokens: 8000";
      py "  map_max_tokens: 4000";
      py "  reduce_max_tokens: 4000";
      py "" ]).

(** The environment entries both subprocess calls add to a copy of
    [os.environ]. *)
Definition subprocess_env (self : GraphRAGService) : list (str * str) :=
  let s := settings self in
  [ (py "GRAPHRAG_API_KEY", openai_api_key s);
    (py "OPENAI_API_KEY", openai_api_key s) ]
  ++ match openai_base_url s with
     | [] => []
     | url => [(py "OPENAI_BASE_URL", url)]
     end.

(** *** Indexing (source lines 148 to 283) *)

(** Lines 173 to 181: the total of the characters read so far, [None] once
    a file has failed to read. *)
Fixpoint validate_files (txt_files : list path) (total_chars : nat)
  : M (option nat) :=
  match txt_files with
  | [] => ret (Some total_chars)
  | txt_file :: rest =>
      let* r := try_read_text txt_file in
      match r with
      | Some content =>
          let file_chars := length content in
          let* _ := print (MsgFileChars (path_name txt_file) file_chars) in
          validate_files rest (total_chars + file_chars)
      | None =>
          let* _ := print (MsgReadError (path_name txt_file)) in
          ret None
      end
  end.

(** Lines 262 to 271: after a zero exit status, still under [try]. *)
Definition report_artifacts (self : GraphRAGService)
    (conversation_id : str) : M unit :=
  let* _ := print MsgIndexDone in
  let* output_dir := get_output_dir self conversation_id in
  let* e := path_exists output_dir in
  if e then
    let* parquet_files := glob_paths (py ".parquet") output_dir in
    print (MsgArtifacts (length parquet_files))
  else ret tt.

Definition index_exception (debug : bool) : M bool :=
  let* _ := print MsgIndexException in
  let* _ := when debug (print MsgTraceback) in
  ret false.

(** Lines 193 to 283: everything after the volume checks. *)
Definition build_index_run (self : GraphRAGService)
    (conversation_id : str) (debug : bool) (conv_dir : path) : M bool :=
  let s := settings self in
  let* _ := when debug (debug_input_files self conversation_id) in
  match openai_api_key s with
  | [] =>
      let* _ := print MsgApiKeyMissing in
      ret false
  | _ =>
      let settings_path := conv_dir ++ [py "settings.yaml"] in
      let yaml_content := _create_settings_yaml self conversation_id in
      let* _ := write settings_path yaml_content in
      let* _ := print (MsgGeneratedSettings settings_path) in
      let env := subprocess_env self in
      let* _ := match openai_base_url s with
                | [] => ret tt
                | url => print (MsgCustomBaseUrl url)
                end in
      let* _ := print (MsgStartIndexing conv_dir (openai_model s)
                         (openai_embedding_model s)) in
      let* process :=
        create_subprocess_exec self
          [py "graphrag"; py "index"; py "--root"; path_str conv_dir;
           py "--verbose"] env in
      match process with
      | ProcNotFound =>
          let* _ := print MsgCliMissing in
          ret false
      | ProcError => index_exception debug
      | ProcExit returncode (Some stdout_text) (Some stderr_text) _ =>
          if negb (returncode =? 0)%Z then
            let* _ := print (MsgIndexFailed returncode stderr_text
                               stdout_text) in
            let* _ := when (contains (py "Empty DataFrame") stdout_text)
                        (print MsgTipEmptyDataFrame) in
            let* _ := when (contains (py "create_base_text_units")
                              stdout_text)
                        (print MsgTipChunking) in
            ret false
          else
            let* r := catch (report_artifacts self conversation_id) in
            match r with
            | Some _ => ret true
            | None => index_exception debug
            end
      | ProcExit _ _ _ _ => index_exception debug
      end
  end.

(** Lines 164 to 191: the checks on the input files, then the run. *)
Definition build_index_checks (self : GraphRAGService)
    (conversation_id : str) (debug : bool) (conv_dir input_dir : path)
  : M bool :=
  let* txt_files := glob_paths (py ".txt") input_dir in
  match txt_files with
  | [] =>
      let* _ := print MsgNoDocuments in
      ret false
  | _ =>
      let* _ := print (MsgValidating (length txt_files)) in
      let* r := validate_files txt_files 0 in
      match r with
      | None => ret false
      | Some total_chars =>
          let* _ := print (MsgTotal total_chars (length txt_files)) in
          if total_chars <? 50 then
            let* _ := print MsgInsufficient in
            ret false
          else
            let* _ := when (total_chars <? 200) (print MsgLowVolume) in
            build_index_run self conversation_id debug conv_dir
      end
  end.

Definition build_index (self : GraphRAGService)
    (conversation_id : str) (debug : bool) : M bool :=
  let* conv_dir := get_conversation_dir self conversation_id in
  let* input_dir := get_input_dir self conversation_id in
  let* _ := get_output_dir self conversation_id in
  let* _ := get_cache_dir self conversation_id in
  build_index_checks self conversation_id debug conv_dir input_dir.

(** *** Querying (source lines 288 to 378) *)

Definition query_exception (debug : bool) : M (option str) :=
  let* _ := print MsgQueryException in
  let* _ := when debug (print MsgTraceback) in
  ret None.

(** Lines 321 to 378: the credential check and the query process. *)
Definition query_exec (self : GraphRAGService)
    (conversation_id query method : str) (debug : bool) (conv_dir : path)
  : M (option str) :=
  let s := settings self in
  match openai_api_key s with
  | [] =>
      let* _ := print MsgApiKeyMissing in
      ret None
  | _ =>
      let env := subprocess_env self in
      let* _ := print (MsgQuerying method (slice_to 100 query)
                         (100 <? length query)) in
      let* process :=
        create_subprocess_exec self
          [py "graphrag"; py "query";
           py "--config"; path_str (conv_dir ++ [py "settings.yaml"]);
           py "--root"; path_str conv_dir;
           py "--method"; method;
           py "--query"; query] env in
      match process with
      | ProcNotFound =>
          let* _ := print MsgCliMissing in
          ret None
      | ProcError => query_exception debug
      | ProcExit returncode (Some stdout) (Some stderr) _ =>
          let stdout_text := strip stdout in
          let stderr_text := strip stderr in
          if negb (returncode =? 0)%Z then
            let* _ := print (MsgQueryError stderr_text stdout_text) in
            ret None
          else
            let* _ := when debug
                        (print (MsgRawLength (length stdout_text))) in
            match stdout_text with
            | [] =>
                let* _ := print MsgEmptyResponse in
                ret None
            | _ =>
                let* _ := print MsgQueryDone in
                ret (Some stdout_text)
            end
      | ProcExit _ _ _ _ => query_exception debug
      end
  end.

Definition query (self : GraphRAGService)
    (conversation_id query method : str) (debug : bool) : M (option str) :=
  let* conv_dir := get_conversation_dir self conversation_id in
  let* output_dir := get_output_dir self conversation_id in
  let artifacts_dir := output_dir in
  let* e := path_exists artifacts_dir in
  if negb e then
    let* _ := print MsgNoIndex in
    ret None
  else
    let* method :=
      if negb (bool_decide (method = py "local")
               || bool_decide (method = py "global"))
      then
        let* _ := print (MsgInvalidMethod method) in
        ret (py "local")
      else ret method in
    query_exec self conversation_id query method debug conv_dir.

(** *** Fallback search (source lines 383 to 439) *)

(** An element of [relevant]: [(overlap, paragraph[:800], file name)]. *)
Definition hit : Type := nat * str * str.

Definition overlap_of (h : hit) : nat := h.1.1.

(** [set(s.lower().split())] *)
Definition word_set (s : str) : gset str := list_to_set (split_ws (lower s)).

(** Lines 409 to 419: one file's paragraphs, appended to [relevant]. *)
Definition scan_paragraphs (query_words : gset str) (filename : str)
    (paragraphs : list str) (relevant : list hit) : list hit :=
  foldl (λ relevant paragraph,
           let paragraph := strip paragraph in
           if length paragraph <? 50 then relevant
           else
             let words := word_set paragraph in
             let overlap := size (words ∩ query_words) in
             if 1 <=? overlap
             then relevant ++ [(overlap, slice_to 800 paragraph, filename)]
             else relevant)
        relevant paragraphs.

(** Lines 404 to 423: a file that fails to read is reported and skipped. *)
Fixpoint scan_files (query_words : gset str) (txt_files : list path)
    (relevant : list hit) : M (list hit) :=
  match txt_files with
  | [] => ret relevant
  | file_path :: rest =>
      let* r := try_read_text file_path in
      match r with
      | Some content =>
          let paragraphs := split (nl ++ nl) content in
          scan_files query_words rest
            (scan_paragraphs query_words (path_name file_path) paragraphs
               relevant)
      | None =>
          let* _ := print (MsgSearchReadError (path_name file_path)) in
          scan_files query_words rest relevant
      end
  end.

(** [l.sort(key=key, reverse=True)].  Python's sort is stable, with
    [reverse=True] too, so its result is the one stable ordering by
    decreasing key; it is computed here by insertion from the right. *)
Fixpoint insert_desc {A} (key : A → nat) (x : A) (l : list A) : list A :=
  match l with
  | [] => [x]
  | y :: l' => if key x <? key y then y :: insert_desc key x l' else x :: l
  end.

Definition sort_desc {A} (key : A → nat) (l : list A) : list A :=
  foldr (insert_desc key) [] l.

(** Line 434: one labelled chunk. *)
Definition label_chunk (h : hit) : str :=
  py "[From: " ++ h.2 ++ py "]" ++ nl ++ h.1.2.

Definition separator : str := nl ++ nl ++ py "---" ++ nl ++ nl.

Definition simple_search (self : GraphRAGService)
    (conversation_id query : str) (max_results : Z) : M (option str) :=
  let* input_dir := get_input_dir self conversation_id in
  let* txt_files := glob_paths (py ".txt") input_dir in
  match txt_files with
  | [] => ret None
  | _ =>
      let query_words := word_set query in
      let* relevant := scan_files query_words txt_files [] in
      match relevant with
      | [] => ret None
      | _ =>
          let relevant := sort_desc overlap_of relevant in
          let top_chunks := map label_chunk (slice_to max_results relevant) in
          let result := join separator top_chunks in
          let* _ := print (MsgSearchFound (length top_chunks)) in
          ret (Some result)
      end
  end.

(** *** Status helpers (source lines 444 to 491) *)

Definition has_index (self : GraphRAGService) (conversation_id : str)
  : M bool :=
  let* artifacts_dir := get_output_dir self conversation_id in
  let* e := path_exists artifacts_dir in
  if e then
    let* parquet_files := glob_paths (py ".parquet") artifacts_dir in
    ret (0 <? length parquet_files)
  else ret false.

Definition has_documents (self : GraphRAGService) (conversation_id : str)
  : M bool :=
  let* input_dir := get_input_dir self conversation_id in
  let* txt_files := glob_paths (py ".txt") input_dir in
  ret (0 <? length txt_files).

(** The dictionary [get_index_stats] returns. *)
Module Stats.
Record t := {
  has_index : bool;
  has_documents : bool;
  document_count : nat;
  total_characters : nat;
  artifact_count : nat
}.
End Stats.

(** Lines 465 to 471. *)
Fixpoint document_stats (txt_files : list path) (stats : Stats.t)
  : M Stats.t :=
  match txt_files with
  | [] => ret stats
  | txt_file :: rest =>
      let stats :=
        {| Stats.has_index := Stats.has_index stats;
           Stats.has_documents := Stats.has_documents stats;
           Stats.document_count := Stats.document_count stats + 1;
           Stats.total_characters := Stats.total_characters stats;
           Stats.artifact_count := Stats.artifact_count stats |} in
      let* r := try_read_text txt_file in
      let stats :=
        match r with
        | Some content =>
            {| Stats.has_index := Stats.has_index stats;
               Stats.has_documents := Stats.has_documents stats;
               Stats.document_count := Stats.document_count stats;
               Stats.total_characters :=
                 Stats.total_characters stats + length content;
               Stats.artifact_count := Stats.artifact_count stats |}
        | None => stats
        end in
      document_stats rest stats
  end.

Definition get_index_stats (self : GraphRAGService) (conversation_id : str)
  : M Stats.t :=
  let* hi := has_index self conversation_id in
  let* hd := has_documents self conversation_id in
  let stats :=
    {| Stats.has_index := hi;
       Stats.has_documents := hd;
       Stats.document_count := 0;
       Stats.total_characters := 0;
       Stats.artifact_count := 0 |} in
  let* input_dir := get_input_dir self conversation_id in
  let* txt_files := glob_paths (py ".txt") input_dir in
  let* stats := document_stats txt_files stats in
  let* artifacts_dir := get_output_dir self conversation_id in
  let* e := path_exists artifacts_dir in
  if e then
    let* parquet_files := glob_paths (py ".parquet") artifacts_dir in
    ret {| Stats.has_index := Stats.has_index stats;
           Stats.has_documents := Stats.has_documents stats;
           Stats.document_count := Stats.document_count stats;
           Stats.total_characters := Stats.total_characters stats;
           Stats.artifact_count := length parquet_files |}
  else ret stats.

(** [shutil.rmtree(p)]: raises when the host refuses the removal, and has
    by then removed a part of what [p] holds. *)
Definition shutil_rmtree (self : GraphRAGService) (p : path) : M unit :=
  λ st,
    if rmtree_fails (host self) p (fs st)
    then (Raised,
          {| fs := prune_at p (rmtree_removed (host self) p (fs st)) (fs st);
             log := log st |})
    else match rmtree p (fs st) with
         | Some fs' => (Returned tt, {| fs := fs'; log := log st |})
         | None => (Raised, st)
         end.

Definition delete_conversation_data (self : GraphRAGService)
    (conversation_id : str) : M bool :=
  let* conv_dir := get_conversation_dir self conversation_id in
  let* e := path_exists conv_dir in
  if e then
    let* r := catch (shutil_rmtree self conv_dir) in
    match r with
    | Some _ =>
        let* _ := print (MsgDeleted conversation_id) in
        ret true
    | None =>
        let* _ := print MsgDeleteError in
        ret false
    end
  else ret false.

End Service.
Import Service.

(** ** Vocabulary of the statements *)

(** No white space in front; [starts_clean (rev s)] says none at the end. *)
Definition starts_clean (s : str) : Prop :=
  match s with
  | c :: _ => is_space c = false
  | [] => True
  end.

Definition trimmed (s : str) : Prop := starts_clean s ∧ starts_clean (rev s).

(** The workspace paths of a conversation. *)
Definition conv_path (self : GraphRAGService) (conversation_id : str) : path :=
  base_dir self ++ [conversation_id].

Definition input_path (self : GraphRAGService) (conversation_id : str)
  : path := conv_path self conversation_id ++ [py "input"].

Definition output_path (self : GraphRAGService) (conversation_id : str)
  : path := conv_path self conversation_id ++ [py "output"].

Definition cache_path (self : GraphRAGService) (conversation_id : str)
  : path := conv_path self conversation_id ++ [py "cache"].

Definition workspace_dirs (self : GraphRAGService) (conversation_id : str)
  : list path :=
  [ conv_path self conversation_id; input_path self conversation_id;
    output_path self conversation_id; cache_path self conversation_id ].

(** One directory helper has run, and any number of them. *)
Definition makes_dir (self : GraphRAGService) (conversation_id : str)
    (n n' : node) : Prop :=
  ∃ q, q ∈ workspace_dirs self conversation_id ∧ mkdir_p q n = Some n'.

Definition prepared (self : GraphRAGService) (conversation_id : str)
  : relation node := rtc (makes_dir self conversation_id).

(** The text files of the conversation, as [glob] lists them. *)
Definition txt_files (self : GraphRAGService) (conversation_id : str)
    (n : node) : list path :=
  glob (py ".txt") (input_path self conversation_id) n.

Definition parquet_files (self : GraphRAGService) (conversation_id : str)
    (n : node) : list path :=
  glob (py ".parquet") (output_path self conversation_id) n.

Definition readable (n : node) (p : path) : Prop := is_Some (read_text p n).

(** Characters of one file as the service counts them; an unreadable file
    counts for nothing. *)
Definition chars_of (n : node) (p : path) : nat :=
  from_option length 0 (read_text p n).

Definition total_chars (n : node) (files : list path) : nat :=
  sum_list (map (chars_of n) files).

(** What [build_index] prints while it validates readable files. *)
Definition validation_log (n : node) (files : list path) : list event :=
  Print (MsgValidating (length files))
  :: map (λ p, Print (MsgFileChars (path_name p) (chars_of n p))) files
  ++ [Print (MsgTotal (total_chars n files) (length files))].

(** ** Sample inputs *)

Module Examples.

Definition demo_settings : Settings :=
  {| openai_api_key := py "sk-demo";
     openai_model := py "gpt-4o";
     openai_embedding_model := py "text-embedding-ada-002";
     openai_base_url := [] |}.

(** A host whose [graphrag] binary exits with status 1 and on which
    removals go through. *)
Definition demo_host : Host :=
  {| run_process := λ _ _ n, ProcExit 1 (Some []) (Some (py "no index")) n;
     rmtree_fails := λ _ _, false;
     rmtree_removed := λ _ _ _, false |}.

Definition demo_service : GraphRAGService :=
  {| base_dir := [py "app"; py "graphrag_data"];
     settings := demo_settings;
     host := demo_host |}.

(** The same service on a host whose [graphrag] binary answers. *)
Definition answering_service : GraphRAGService :=
  {| base_dir := [py "app"; py "graphrag_data"];
     settings := demo_settings;
     host := {| run_process :=
                  λ _ _ n, ProcExit 0 (Some (py "Five years.")) (Some []) n;
                rmtree_fails := λ _ _, false;
                rmtree_removed := λ _ _ _, false |} |}.

(** A conversation identifier (the first group of a UUID, for short). *)
Definition demo_id : str := py "7f9c2ba4".

Definition empty_state : state := {| fs := Dir []; log := [] |}.

(** 371 characters after trimming, six sentences, no blank line. *)
Definition lease_text : str :=
  concat (replicate 6
    (py "The tenant shall pay the rent on the first day of each month. ")).

(** Sixty characters. *)
Definition sixty : str :=
  py "The lease term is five years; renewal needs a signed notice.".

(** A tree that holds the conversation's input directory with [files]. *)
Definition workspace (files : list (str * node)) : node :=
  Dir [(py "app",
        Dir [(py "graphrag_data",
              Dir [(demo_id, Dir [(py "input", Dir files)])])])].

Definition one_short_file : state :=
  {| fs := workspace [(py "a.txt", File (Some sixty))]; log := [] |}.

(** The same with a second file whose bytes do not decode. *)
Definition unreadable_sibling : state :=
  {| fs := workspace [(py "a.txt", File (Some sixty));
                      (py "b.txt", File None)];
     log := [] |}.

(** The conversation directory exists, without an output directory. *)
Definition no_output_yet : state :=
  {| fs := Dir [(py "app",
                 Dir [(py "graphrag_data", Dir [(demo_id, Dir [])])])];
     log := [] |}.

(** One document of two paragraphs: the first shares two words with the
    query [lease term], the second shares one. *)
Definition two_paragraphs : state :=
  {| fs := workspace
             [(py "lease.txt",
               File (Some
                 (py "The lease term is five years and it starts in January."
                  ++ nl ++ nl
                  ++ py "A lease may be renewed once by written notice of the tenant."
                  ++ nl)))];
     log := [] |}.

End Examples.

(** ** The fallback search, as the specification words it *)

(** The readable documents among [files], in listing order, each with its
    file name. *)
Definition documents (n : node) (files : list path) : list (str * str) :=
  omap (λ p, (λ content, (path_name p, content)) <$> read_text p n) files.

(** The number of distinct lower-case words a paragraph shares with the
    query. *)
Definition score (query paragraph : str) : nat :=
  size (word_set paragraph ∩ word_set query).

(** A paragraph counts once trimmed to at least 50 characters with a
    positive score; the chunk kept is its first 800 characters. *)
Definition paragraph_hit (query filename paragraph : str) : option hit :=
  let p := strip paragraph in
  if (50 <=? length p) && (1 <=? score query p)
  then Some (score query p, slice_to 800 p, filename)
  else None.

Definition document_hits (query : str) (d : str * str) : list hit :=
  omap (paragraph_hit query d.1) (split (nl ++ nl) d.2).

(** The survivors in encounter order: file order, then paragraph order. *)
Definition search_hits (query : str) (docs : list (str * str)) : list hit :=
  concat (map (document_hits query) docs).

Definition descending (l : list hit) : Prop :=
  StronglySorted (λ a b, overlap_of b ≤ overlap_of a) l.

(** Hits of equal score stand in [l] in the order they have in [l0]. *)
Definition ties_in_order (l l0 : list hit) : Prop :=
  ∀ k, List.filter (λ h, overlap_of h =? k) l
       = List.filter (λ h, overlap_of h =? k) l0.

(** The answer text for the chosen hits. *)
Definition render (hits : list hit) : str :=
  join separator (map label_chunk hits).

(** ** Text clean-up before saving ([backend/app/utils/pdf_converter.py]) *)

Module PdfConverter.

(** Lines 73 to 76: the trimmed lines that are not empty, in order. *)
Definition cleaned_lines (lines : list str) : list str :=
  foldl (λ cleaned_lines line,
           let line := strip line in
           match line with
           | [] => cleaned_lines
           | _ => cleaned_lines ++ [line]
           end)
        [] lines.

(** Lines 82 and 83: [while "\n\n\n" in result: result = result.replace(...)].
    Every round shortens [result], so its length bounds the rounds; the fuel
    is that bound. *)
Fixpoint collapse_newlines (fuel : nat) (result : str) : str :=
  match fuel with
  | 0 => result
  | S fuel' =>
      if contains (nl ++ nl ++ nl) result
      then collapse_newlines fuel' (replace (nl ++ nl ++ nl) (nl ++ nl) result)
      else result
  end.

Definition clean_text (text : str) : str :=
  let lines := split nl text in
  let cleaned_lines := cleaned_lines lines in
  let result := join nl cleaned_lines in
  collapse_newlines (length result) result.

End PdfConverter.

(** ** More vocabulary *)

(** Every regular file of [n'] is one of [n], with the same content, and the
    other way round. *)
Definition keeps_files (n n' : node) : Prop :=
  ∀ q t, lookup q n' = Some (File t) ↔ lookup q n = Some (File t).

Definition settings_path (self : GraphRAGService) (conversation_id : str)
  : path := conv_path self conversation_id ++ [py "settings.yaml"].

(** The command line of the index process, lines 224 to 226. *)
Definition index_argv (self : GraphRAGService) (conversation_id : str)
  : list str :=
  [ py "graphrag"; py "index"; py "--root";
    path_str (conv_path self conversation_id); py "--verbose" ].

(** The command line of the query process, lines 337 to 341. *)
Definition query_argv (self : GraphRAGService)
    (conversation_id question method : str) : list str :=
  [ py "graphrag"; py "query";
    py "--config"; path_str (settings_path self conversation_id);
    py "--root"; path_str (conv_path self conversation_id);
    py "--method"; method;
    py "--query"; question ].

(** The mode that reaches the query process, lines 317 to 319. *)
Definition effective_method (method : str) : str :=
  if bool_decide (method = py "local") || bool_decide (method = py "global")
  then method else py "local".

(** A line has no line feed, is not empty and has no white space at either
    end. *)
Definition clean_line (l : str) : Prop :=
  l ≠ [] ∧ ("010"%char ∉ l) ∧ trimmed l.

Module MoreExamples.
Import Examples.

(** The service on a host that refuses every removal, after it has removed
    the document [a.txt] of the input directory. *)
Definition refusing_service : GraphRAGService :=
  {| base_dir := [py "app"; py "graphrag_data"];
     settings := demo_settings;
     host := {| run_process := λ _ _ n, ProcExit 1 (Some []) (Some []) n;
                rmtree_fails := λ _ _, true;
                rmtree_removed :=
                  λ _ _ r, bool_decide (r = [py "input"; py "a.txt"]) |} |}.

(** The service without a credential. *)
Definition keyless_service : GraphRAGService :=
  {| base_dir := [py "app"; py "graphrag_data"];
     settings := {| openai_api_key := [];
                    openai_model := py "gpt-4o";
                    openai_embedding_model := py "text-embedding-ada-002";
                    openai_base_url := [] |};
     host := demo_host |}.

(** The service on a host whose index process exits with status 0. *)
Definition indexing_service : GraphRAGService :=
  {| base_dir := [py "app"; py "graphrag_data"];
     settings := demo_settings;
     host := {| run_process := λ _ _ n, ProcExit 0 (Some []) (Some []) n;
                rmtree_fails := λ _ _, false;
                rmtree_removed := λ _ _ _, false |} |}.

Definition other_id : str := py "03d1aa10".

(** Two conversations, one document each. *)
Definition two_workspaces : state :=
  {| fs := Dir [(py "app",
                 Dir [(py "graphrag_data",
                       Dir [(demo_id,
                             Dir [(py "input",
                                   Dir [(py "a.txt",
                                         File (Some sixty))])]);
                            (other_id,
                             Dir [(py "input",
                                   Dir [(py "b.txt",
                                         File (Some lease_text))])])])])];
     log := [] |}.

(** A short document beside one whose bytes do not decode. *)
Definition short_beside_unreadable : state :=
  {| fs := workspace [(py "a.txt", File (Some (py "Too short to index.")));
                      (py "b.txt", File None)];
     log := [] |}.

(** A document long enough to be indexed. *)
Definition one_long_file : state :=
  {| fs := workspace [(py "lease.txt", File (Some lease_text))]; log := [] |}.

(** Text as a PDF page extractor leaves it: ragged lines, blank lines. *)
Definition ragged_text : str :=
  py "  Lease agreement  " ++ nl ++ nl ++ nl ++ nl
  ++ py "The term is five years." ++ nl ++ py "   " ++ nl
  ++ py " Rent is due monthly. " ++ nl.

End MoreExamples.

(** ** Vocabulary of the further properties *)

(** The four directory helpers of a conversation, lines 32 to 54. *)
Definition directory_helpers (self : GraphRAGService) (conversation_id : str)
  : list (M path) :=
  [ get_conversation_dir self conversation_id;
    get_input_dir self conversation_id;
    get_output_dir self conversation_id;
    get_cache_dir self conversation_id ].

(** The index process has run to a zero exit status between [n] and [n']:
    the configuration was written on [n], the process ran on the result and
    gave both its streams, and only directory helpers ran after it. *)
Definition indexed (self : GraphRAGService) (conversation_id : str)
    (n n' : node) : Prop :=
  ∃ n_cfg out err n1,
    write_text (settings_path self conversation_id)
      (_create_settings_yaml self conversation_id) n = Some n_cfg
    ∧ run_process (host self) (index_argv self conversation_id)
        (subprocess_env self) n_cfg
      = ProcExit 0 (Some out) (Some err) n1
    ∧ prepared self conversation_id n1 n'.

(** What the debug listing prints for one text file, lines 128 to 141. *)
Definition debug_entry (n : node) (p : path) : event :=
  match read_text p n with
  | Some content =>
      Print (MsgDebugFile (path_name p) (length content)
               (count nl content) (count (nl ++ nl) content)
               (slice_to 300 content) (300 <? length content))
  | None => Print (MsgDebugReadError (path_name p))
  end.

(** What the debug listing prints for a conversation. *)
Definition debug_listing (self : GraphRAGService) (conversation_id : str)
    (n : node) : list event :=
  Print (MsgDebugHeader conversation_id)
  :: match txt_files self conversation_id n with
     | [] => [Print MsgDebugNoFiles]
     | files => map (debug_entry n) files ++ [Print MsgDebugFooter]
     end.


(** * The library model on sample values

    Values taken from CPython 3.11. *)

Example stem_samples :
  map PurePath.stem
    [ py "dir/notes.tar.docx"; py ".bashrc"; py "a/b/"; py ""; py "..";
      py "notes."; py "..b"; py ".docx"; py "a/."; py "/" ]
  = [ py "notes.tar"; py ".bashrc"; py "b"; py ""; py "..";
      py "notes."; py "."; py ".docx"; py "a"; py "" ].
Proof. vm_compute. reflexivity. Qed.

Example whitespace_code_points :
  List.filter (λ n, is_space (ascii_of_nat n)) (seq 0 256)
  = [9; 10; 11; 12; 13; 28; 29; 30; 31; 32; 133; 160].
Proof. vm_compute. reflexivity. Qed.

Example lowered_code_points :
  List.filter
    (λ n, negb (bool_decide (lower_char (ascii_of_nat n) = ascii_of_nat n)))
    (seq 0 256)
  = seq 65 26 ++ seq 192 23 ++ seq 216 7.
Proof. vm_compute. reflexivity. Qed.

Example split_replace_count_samples :
  split (py "aa") (py "aaa") = [py ""; py "a"]
  ∧ replace (py "aa") (py "b") (py "aaa") = py "ba"
  ∧ count (py "aa") (py "aaaa") = 2
  ∧ replace (py ". ") (py ".X") (py "a. b.  c. ") = py "a.Xb.X c.X".
Proof. vm_compute. done. Qed.

Example slice_samples :
  slice_to (-1) [1; 2; 3] = [1; 2] ∧ slice_to (-5) [1; 2; 3] = []
  ∧ slice_to 0 [1; 2; 3] = [] ∧ slice_to 5 [1; 2; 3] = [1; 2; 3].
Proof. vm_compute. done. Qed.

Example sort_sample :
  sort_desc fst [(1, 1); (2, 2); (1, 3); (2, 4)]
  = [(2, 2); (2, 4); (1, 1); (1, 3)].
Proof. vm_compute. reflexivity. Qed.

Example joinpath_samples :
  PurePath.joinpath [py "in"] (py "/etc/x.txt") = [py "etc"; py "x.txt"]
  ∧ PurePath.joinpath [py "in"] (py "./c.txt") = [py "in"; py "c.txt"].
Proof. vm_compute. done. Qed.

Example glob_sample :
  map path_name
    (glob (py ".txt") []
       (Dir [ (py ".txt", File None); (py "a.txt", File None);
              (py "b.TXT", File None); (py "c.txt.bak", File None);
              (py "dir.txt", Dir []) ]))
  = [py ".txt"; py "a.txt"; py "dir.txt"].
Proof. vm_compute. reflexivity. Qed.

(** * Properties of the string operations *)

Section strings.
Implicit Types s p r old new sep sub : str.

Lemma strip_prefix_Some p s r : strip_prefix p s = Some r ↔ s = p ++ r.
Proof.
  revert s. induction p as [|a p IH]; intros s; simpl.
  - split; congruence.
  - destruct s as [|b s]; [split; discriminate|].
    destruct (decide (a = b)) as [->|Hne].
    + rewrite IH. split; congruence.
    + split; [discriminate|]. intros [= ? ?]. congruence.
Qed.

Lemma strip_prefix_app p r : strip_prefix p (p ++ r) = Some r.
Proof. by apply strip_prefix_Some. Qed.

Lemma strip_prefix_shorter p s r :
  p ≠ [] → strip_prefix p s = Some r → length r < length s.
Proof.
  intros Hp ->%strip_prefix_Some. rewrite length_app.
  destruct p; [done|]. simpl. lia.
Qed.

Lemma strip_prefix_nil_None p : p ≠ [] → strip_prefix p [] = None.
Proof. by destruct p. Qed.

Lemma replace_fuel_enough old new n m s :
  old ≠ [] → length s ≤ n → length s ≤ m →
  replace_fuel n old new s = replace_fuel m old new s.
Proof.
  intros Hold. revert m s.
  induction n as [|n IH]; intros m s Hn Hm.
  - destruct s; [|simpl in Hn; lia].
    destruct m; simpl; [done|]. by rewrite strip_prefix_nil_None.
  - destruct m as [|m].
    + destruct s; [|simpl in Hm; lia].
      simpl. by rewrite strip_prefix_nil_None.
    + simpl. destruct (strip_prefix old s) as [rest|] eqn:E.
      * pose proof (strip_prefix_shorter _ _ _ Hold E).
        f_equal. apply IH; lia.
      * destruct s as [|c s]; [done|]. simpl in *.
        f_equal. apply IH; lia.
Qed.

(** The defining equation of [replace]. *)
Lemma replace_eq old new s :
  old ≠ [] →
  replace old new s =
    match strip_prefix old s with
    | Some rest => new ++ replace old new rest
    | None =>
        match s with
        | [] => []
        | c :: r => c :: replace old new r
        end
    end.
Proof.
  intros Hold. unfold replace. destruct s as [|c s].
  - simpl. by rewrite strip_prefix_nil_None.
  - change (length (c :: s)) with (S (length s)). simpl replace_fuel.
    destruct (strip_prefix old (c :: s)) as [rest|] eqn:E; [|done].
    pose proof (strip_prefix_shorter _ _ _ Hold E) as Hlt. simpl in Hlt.
    f_equal. apply replace_fuel_enough; [done|lia|done].
Qed.

Lemma split_fuel_enough sep n m s :
  sep ≠ [] → length s ≤ n → length s ≤ m →
  split_fuel n sep s = split_fuel m sep s.
Proof.
  intros Hsep. revert m s.
  induction n as [|n IH]; intros m s Hn Hm.
  - destruct s; [|simpl in Hn; lia].
    destruct m; simpl; [done|]. by rewrite strip_prefix_nil_None.
  - destruct m as [|m].
    + destruct s; [|simpl in Hm; lia].
      simpl. by rewrite strip_prefix_nil_None.
    + simpl. destruct (strip_prefix sep s) as [rest|] eqn:E.
      * pose proof (strip_prefix_shorter _ _ _ Hsep E).
        f_equal. apply IH; lia.
      * destruct s as [|c s]; [done|]. simpl in *.
        rewrite (IH m s) by lia. done.
Qed.

(** The defining equation of [split]. *)
Lemma split_eq sep s :
  sep ≠ [] →
  split sep s =
    match strip_prefix sep s with
    | Some rest => [] :: split sep rest
    | None =>
        match s with
        | [] => [[]]
        | c :: r =>
            match split sep r with
            | p :: ps => (c :: p) :: ps
            | [] => [[c]]
            end
        end
    end.
Proof.
  intros Hsep. unfold split. destruct s as [|c s].
  - simpl. by rewrite strip_prefix_nil_None.
  - change (length (c :: s)) with (S (length s)). simpl split_fuel.
    destruct (strip_prefix sep (c :: s)) as [rest|] eqn:E; [|done].
    pose proof (strip_prefix_shorter _ _ _ Hsep E) as Hlt. simpl in Hlt.
    f_equal. apply split_fuel_enough; [done|lia|done].
Qed.

(** Induction along the recursive calls of [replace] and [split]. *)
Lemma scan_ind old (P : str → Prop) :
  old ≠ [] →
  P [] →
  (∀ rest, P rest → P (old ++ rest)) →
  (∀ c r, strip_prefix old (c :: r) = None → P r → P (c :: r)) →
  ∀ s, P s.
Proof.
  intros Hold Hnil Hhit Hmiss s.
  remember (length s) as n eqn:Hn. revert s Hn.
  induction n as [n IH] using lt_wf_ind. intros s ->.
  destruct (strip_prefix old s) as [rest|] eqn:E.
  - pose proof (strip_prefix_shorter _ _ _ Hold E).
    apply strip_prefix_Some in E as ->. apply Hhit. by eapply IH.
  - destruct s as [|c r]; [done|]. apply Hmiss; [done|].
    eapply IH; [|done]. simpl. lia.
Qed.

Lemma split_nonempty sep s : sep ≠ [] → split sep s ≠ [].
Proof.
  intros Hsep. rewrite split_eq by done.
  destruct (strip_prefix sep s); [done|].
  destruct s; [done|]. by destruct (split sep _).
Qed.

Lemma join_cons sep p ps :
  ps ≠ [] → join sep (p :: ps) = p ++ sep ++ join sep ps.
Proof. by destruct ps. Qed.

(** [replace] is [split] followed by [join]: the pieces between the
    occurrences of [old] are kept, in order, and [new] stands between
    every two of them. *)
Lemma replace_join_split old new s :
  old ≠ [] → replace old new s = join new (split old s).
Proof.
  intros Hold. pattern s. apply (scan_ind old); [done|..]; clear s.
  - rewrite replace_eq, split_eq by done.
    by rewrite strip_prefix_nil_None.
  - intros rest IH.
    rewrite replace_eq, split_eq by done. rewrite strip_prefix_app.
    rewrite join_cons by by apply split_nonempty. by rewrite IH.
  - intros c r E IH.
    rewrite replace_eq, split_eq by done. rewrite E, IH.
    pose proof (split_nonempty old r Hold).
    destruct (split old r) as [|p ps]; [done|].
    destruct ps; done.
Qed.

End strings.

Section strip.
Implicit Types s x y : str.

Lemma starts_clean_app_l x y : x ≠ [] → starts_clean (x ++ y) ↔ starts_clean x.
Proof. by destruct x. Qed.

Lemma rev_nonempty {A} (l : list A) : l ≠ [] → rev l ≠ [].
Proof.
  destruct l as [|a l]; [done|]. simpl. intros _ H.
  by apply app_eq_nil in H as [_ ?].
Qed.

Lemma ends_clean_app_r x y :
  y ≠ [] → starts_clean (rev (x ++ y)) ↔ starts_clean (rev y).
Proof.
  intros Hy. rewrite rev_app_distr.
  apply starts_clean_app_l. by apply rev_nonempty.
Qed.

Lemma lstrip_starts_clean s : starts_clean (lstrip s).
Proof.
  induction s as [|c s IH]; simpl; [done|].
  destruct (is_space c) eqn:E; [done|]. exact E.
Qed.

Lemma lstrip_clean s : starts_clean s → lstrip s = s.
Proof. destruct s as [|c s]; simpl; [done|]. by intros ->. Qed.

Lemma lstrip_app_clean x c y :
  is_space c = false → lstrip (x ++ c :: y) = lstrip x ++ c :: y.
Proof.
  intros Hc. induction x as [|a x IH]; simpl.
  - by rewrite Hc.
  - by destruct (is_space a).
Qed.

Lemma lstrip_suffix s : ∃ pre, s = pre ++ lstrip s.
Proof.
  induction s as [|c s [pre IH]]; simpl.
  - by exists [].
  - destruct (is_space c).
    + exists (c :: pre). simpl. by f_equal.
    + by exists [].
Qed.

Lemma rstrip_prefix s : ∃ suf, s = rstrip s ++ suf.
Proof.
  unfold rstrip. destruct (lstrip_suffix (rev s)) as [pre E].
  exists (rev pre). rewrite <-rev_app_distr, <-E. by rewrite rev_involutive.
Qed.

Lemma strip_infix s : ∃ pre suf, s = pre ++ strip s ++ suf.
Proof.
  unfold strip. destruct (lstrip_suffix s) as [pre E].
  destruct (rstrip_prefix (lstrip s)) as [suf E'].
  exists pre, suf. by rewrite <-E', <-E.
Qed.

Lemma rstrip_starts_clean s : starts_clean s → starts_clean (rstrip s).
Proof.
  unfold rstrip. destruct s as [|c s]; [done|]. simpl. intros Hc.
  rewrite (lstrip_app_clean _ _ []) by done.
  rewrite rev_app_distr. simpl. exact Hc.
Qed.

Lemma strip_trimmed s : trimmed (strip s).
Proof.
  split.
  - apply rstrip_starts_clean, lstrip_starts_clean.
  - unfold strip, rstrip. rewrite rev_involutive. apply lstrip_starts_clean.
Qed.

Lemma strip_id s : trimmed s → strip s = s.
Proof.
  intros [H1 H2]. unfold strip, rstrip.
  rewrite (lstrip_clean s) by done. rewrite (lstrip_clean (rev s)) by done.
  apply rev_involutive.
Qed.

Lemma strip_idempotent s : strip (strip s) = strip s.
Proof. apply strip_id, strip_trimmed. Qed.

Lemma nl_is_space : is_space "010"%char = true.
Proof. reflexivity. Qed.

Lemma lstrip_cons_space c s : is_space c = true → lstrip (c :: s) = lstrip s.
Proof. simpl. by intros ->. Qed.

(** Trimming takes a final newline off a trimmed text and nothing else. *)
Lemma strip_snoc_nl s : trimmed s → strip (s ++ nl) = s.
Proof.
  intros [H1 H2]. destruct s as [|c s]; [reflexivity|].
  unfold strip, rstrip.
  assert (lstrip ((c :: s) ++ nl) = (c :: s) ++ nl) as ->.
  { simpl in H1. simpl. by rewrite H1. }
  rewrite rev_app_distr.
  change (rev nl ++ rev (c :: s)) with ("010"%char :: rev (c :: s)).
  rewrite lstrip_cons_space by apply nl_is_space.
  rewrite lstrip_clean by done. apply rev_involutive.
Qed.

Lemma endswith_app s x : endswith (s ++ x) x = true.
Proof.
  unfold endswith, startswith. rewrite rev_app_distr.
  by rewrite strip_prefix_app.
Qed.

Lemma endswith_nl_clean s : starts_clean (rev s) → endswith s nl = false.
Proof.
  unfold endswith, startswith. simpl. destruct (rev s) as [|c r]; [done|].
  simpl. intros Hc. destruct (decide ("010"%char = c)) as [<-|]; [|done].
  by rewrite nl_is_space in Hc.
Qed.

End strip.

Section contains.
Implicit Types s sub old new x : str.

Lemma startswith_true s p : startswith s p = true ↔ ∃ r, s = p ++ r.
Proof.
  unfold startswith. destruct (strip_prefix p s) as [r|] eqn:E.
  - apply strip_prefix_Some in E. split; [by exists r|done].
  - split; [done|]. intros [r ->]. by rewrite strip_prefix_app in E.
Qed.

Lemma contains_of_startswith sub s :
  startswith s sub = true → contains sub s = true.
Proof. intros H. destruct s; simpl; by rewrite H. Qed.

Lemma contains_cons sub c s :
  contains sub (c :: s) = startswith (c :: s) sub || contains sub s.
Proof. done. Qed.

Lemma contains_true sub s :
  contains sub s = true ↔ ∃ a b, s = a ++ sub ++ b.
Proof.
  split.
  - induction s as [|c s IH].
    + simpl. rewrite orb_false_r. intros [r ->]%startswith_true.
      by exists [], r.
    + rewrite contains_cons. intros [H|H]%orb_true_iff.
      * apply startswith_true in H as [r ->]. by exists [], r.
      * destruct (IH H) as (a & b & ->). by exists (c :: a), b.
  - intros (a & b & ->). induction a as [|c a IH].
    + apply contains_of_startswith, startswith_true. by exists b.
    + change ((c :: a) ++ sub ++ b) with (c :: (a ++ sub ++ b)).
      rewrite contains_cons, IH. apply orb_true_r.
Qed.

Lemma contains_infix sub a s b :
  contains sub s = true → contains sub (a ++ s ++ b) = true.
Proof.
  intros (x & y & ->)%contains_true. apply contains_true.
  exists (a ++ x), (y ++ b). by rewrite <-!app_assoc.
Qed.

(** A text that has no paragraph break has none once trimmed. *)
Lemma contains_strip_false sub s :
  contains sub s = false → contains sub (strip s) = false.
Proof.
  intros H. destruct (contains sub (strip s)) eqn:E; [|done].
  destruct (strip_infix s) as (pre & suf & Hs).
  rewrite Hs, (contains_infix _ pre _ suf E) in H. done.
Qed.

Lemma contains_false_prefix sub s :
  contains sub s = false → sub ≠ [] ∨ s ≠ [] → strip_prefix sub s = None.
Proof.
  intros H _. destruct (strip_prefix sub s) as [r|] eqn:E; [|done].
  apply strip_prefix_Some in E as ->.
  assert (contains sub (sub ++ r) = true) as Ht.
  { apply contains_true. by exists [], r. }
  congruence.
Qed.

(** Without an occurrence of [old], [replace] changes nothing. *)
Lemma replace_absent old new s :
  old ≠ [] → contains old s = false → replace old new s = s.
Proof.
  intros Hold. induction s as [|c s IH]; intros H.
  - rewrite replace_eq by done. by rewrite strip_prefix_nil_None.
  - rewrite replace_eq by done.
    rewrite (contains_false_prefix _ _ H) by by right.
    rewrite contains_cons in H. apply orb_false_iff in H as [_ H].
    by rewrite IH.
Qed.

(** With one, the result holds whatever [new] holds. *)
Lemma replace_present old new x s :
  old ≠ [] → contains x new = true → contains old s = true →
  contains x (replace old new s) = true.
Proof.
  intros Hold Hx. induction s as [|c s IH]; intros H.
  - simpl in H. rewrite orb_false_r in H.
    apply startswith_true in H as [r Hr]. symmetry in Hr.
    apply app_eq_nil in Hr as [-> _]. done.
  - rewrite replace_eq by done.
    destruct (strip_prefix old (c :: s)) as [rest|] eqn:E.
    + apply (contains_infix x [] new (replace old new rest)) in Hx.
      exact Hx.
    + rewrite contains_cons in H. apply orb_true_iff in H as [H|H].
      * apply startswith_true in H as [r Hr].
        rewrite Hr, strip_prefix_app in E. done.
      * rewrite contains_cons, (IH H). apply orb_true_r.
Qed.

Lemma replace_nonempty old new s :
  old ≠ [] → new ≠ [] → s ≠ [] → replace old new s ≠ [].
Proof.
  intros Hold Hnew Hs. rewrite replace_eq by done.
  destruct (strip_prefix old s).
  - by destruct new.
  - by destruct s.
Qed.

Lemma replace_starts_clean old new s :
  old ≠ [] → new ≠ [] → starts_clean new →
  starts_clean s → starts_clean (replace old new s).
Proof.
  intros Hold Hnew Hc Hs. rewrite replace_eq by done.
  destruct (strip_prefix old s).
  - by apply starts_clean_app_l.
  - by destruct s.
Qed.

(** [old] ends in white space, so a text that does not keeps its last
    character. *)
Lemma replace_ends_clean old new s :
  old ≠ [] → new ≠ [] → ¬ starts_clean (rev old) →
  starts_clean (rev s) → starts_clean (rev (replace old new s)).
Proof.
  intros Hold Hnew Hend. pattern s. apply (scan_ind old); [done|..];
    clear s.
  - intros _. rewrite replace_eq by done.
    by rewrite strip_prefix_nil_None.
  - intros rest IH H. rewrite replace_eq by done.
    rewrite strip_prefix_app. destruct (decide (rest = [])) as [->|Hr].
    { rewrite app_nil_r in H. done. }
    apply ends_clean_app_r in H; [|done].
    apply ends_clean_app_r; [by apply replace_nonempty|]. by apply IH.
  - intros c r E IH H. rewrite replace_eq by done. rewrite E.
    destruct (decide (r = [])) as [->|Hr].
    { rewrite replace_eq by done. by rewrite strip_prefix_nil_None. }
    change (c :: r) with ([c] ++ r) in H.
    apply ends_clean_app_r in H; [|done].
    change (c :: replace old new r) with ([c] ++ replace old new r).
    apply ends_clean_app_r; [by apply replace_nonempty|]. by apply IH.
Qed.

End contains.

(** * Properties of the document normaliser *)

Section normaliser.
Implicit Types content s : str.

Lemma add_paragraph_breaks_trimmed s :
  trimmed s → trimmed (add_paragraph_breaks s).
Proof.
  intros [H1 H2]. unfold add_paragraph_breaks.
  destruct (negb _ && _); [|done]. split.
  - by apply replace_starts_clean.
  - apply replace_ends_clean; try done; simpl; by intros [=].
Qed.

(** The paragraph step changes nothing on its own output. *)
Lemma add_paragraph_breaks_idempotent s :
  add_paragraph_breaks (add_paragraph_breaks s) = add_paragraph_breaks s.
Proof.
  unfold add_paragraph_breaks at 2 3.
  destruct (negb (contains (nl ++ nl) s) && (200 <? length s)) eqn:E.
  - destruct (contains (py ". ") s) eqn:Hdot.
    + unfold add_paragraph_breaks.
      rewrite (replace_present (py ". ") _ (nl ++ nl)); done.
    + rewrite replace_absent by done.
      unfold add_paragraph_breaks. rewrite E. by apply replace_absent.
  - unfold add_paragraph_breaks. by rewrite E.
Qed.

Lemma ensure_trailing_newline_trimmed s :
  trimmed s → ensure_trailing_newline s = s ++ nl.
Proof.
  intros [_ H]. unfold ensure_trailing_newline.
  by rewrite endswith_nl_clean.
Qed.

Lemma format_content_eq content :
  format_content content = add_paragraph_breaks (strip content) ++ nl.
Proof.
  unfold format_content.
  apply ensure_trailing_newline_trimmed, add_paragraph_breaks_trimmed,
    strip_trimmed.
Qed.

Lemma format_content_idempotent content :
  format_content (format_content content) = format_content content.
Proof.
  rewrite (format_content_eq content).
  pose proof (add_paragraph_breaks_trimmed _ (strip_trimmed content)) as Ht.
  rewrite format_content_eq, strip_snoc_nl by done.
  by rewrite add_paragraph_breaks_idempotent.
Qed.

Lemma format_content_endswith_nl content :
  endswith (format_content content) nl = true.
Proof. rewrite format_content_eq. apply endswith_app. Qed.

Lemma format_content_breaks content :
  200 < length (strip content) → contains (nl ++ nl) content = false →
  format_content content =
    join (py "." ++ nl ++ nl) (split (py ". ") (strip content)) ++ nl.
Proof.
  intros Hlen Hnn. rewrite format_content_eq. f_equal.
  unfold add_paragraph_breaks.
  rewrite (contains_strip_false _ _ Hnn). simpl negb.
  apply Nat.ltb_lt in Hlen as ->. simpl. by apply replace_join_split.
Qed.

End normaliser.

(** * Properties of the file system *)

Section filesystem.
Implicit Types (n ch : node) (es : list (str * node)) (p q : path)
  (k c : str).

Lemma assoc_set_entry_eq k v es : assoc k (set_entry k v es) = Some v.
Proof.
  induction es as [|[k' v'] es IH]; simpl.
  - by rewrite decide_True.
  - destruct (decide (k = k')) as [->|Hne]; simpl.
    + by rewrite decide_True.
    + by rewrite decide_False.
Qed.

Lemma assoc_set_entry_ne k k' v es :
  k ≠ k' → assoc k' (set_entry k v es) = assoc k' es.
Proof.
  intros Hne. induction es as [|[k0 v0] es IH]; simpl.
  - by rewrite decide_False.
  - destruct (decide (k = k0)) as [->|Hne0]; simpl.
    + by rewrite !decide_False.
    + by rewrite IH.
Qed.

Lemma set_entry_id k v es : assoc k es = Some v → set_entry k v es = es.
Proof.
  induction es as [|[k' v'] es IH]; simpl; [done|].
  destruct (decide (k = k')) as [->|Hne].
  - by intros [= ->].
  - intros H. by rewrite IH.
Qed.

Lemma set_entry_twice k v v' es :
  set_entry k v (set_entry k v' es) = set_entry k v es.
Proof.
  induction es as [|[k' v0] es IH]; simpl.
  - by rewrite decide_True.
  - destruct (decide (k = k')) as [->|Hne]; simpl.
    + by rewrite decide_True.
    + rewrite decide_False by done. by rewrite IH.
Qed.

Lemma lookup_app p q n :
  lookup (p ++ q) n =
    match lookup p n with Some m => lookup q m | None => None end.
Proof.
  revert n. induction p as [|c p IH]; intros n; simpl; [done|].
  destruct n as [|es]; [done|]. by destruct (assoc c es).
Qed.

Lemma lookup_cons c p es :
  lookup (c :: p) (Dir es) =
    match assoc c es with Some ch => lookup p ch | None => None end.
Proof. done. Qed.

Lemma lookup_nil_dir p : p ≠ [] → lookup p (Dir []) = None.
Proof. by destruct p. Qed.

(** [mkdir] leaves a directory at the path. *)
Lemma mkdir_p_is_dir p n n' :
  mkdir_p p n = Some n' → ∃ es, lookup p n' = Some (Dir es).
Proof.
  revert n n'. induction p as [|c p IH]; intros n n'.
  - destruct n; simpl; [done|]. intros [= <-]. by eexists.
  - destruct n as [|es]; simpl; [done|].
    destruct (assoc c es) as [ch|].
    + destruct (mkdir_p p ch) as [ch'|] eqn:E; [|done]. intros [= <-].
      simpl. rewrite assoc_set_entry_eq. by eapply IH.
    + destruct (mkdir_p p (Dir [])) as [ch'|] eqn:E; [|done]. intros [= <-].
      simpl. rewrite assoc_set_entry_eq. by eapply IH.
Qed.

(** [exist_ok=True]: on an existing directory it does nothing. *)
Lemma mkdir_p_existing p n es :
  lookup p n = Some (Dir es) → mkdir_p p n = Some n.
Proof.
  revert n. induction p as [|c p IH]; intros n.
  - simpl. by intros [= ->].
  - destruct n as [|es0]; simpl; [done|].
    destruct (assoc c es0) as [ch|] eqn:E; [|done]. intros H.
    rewrite (IH _ H). by rewrite set_entry_id.
Qed.

(** [mkdir] changes nothing at a path that is not on the way to the new
    directory. *)
Lemma mkdir_p_lookup_other q p n n' :
  mkdir_p q n = Some n' → (∀ r, q ≠ p ++ r) → lookup p n' = lookup p n.
Proof.
  revert p n n'. induction q as [|c q IH]; intros p n n'.
  - destruct n; simpl; [done|]. by intros [= <-].
  - destruct n as [|es]; simpl; [done|]. intros Hmk Hp.
    destruct p as [|a p]; [by destruct (Hp (c :: q))|].
    assert (∀ ch ch', mkdir_p q ch = Some ch' →
              n' = Dir (set_entry c ch' es) →
              (a = c → lookup p ch = match assoc c es with
                                     | Some x => lookup p x
                                     | None => None
                                     end) →
              lookup (a :: p) n' = lookup (a :: p) (Dir es)) as Hstep.
    { intros ch ch' Hch -> Hsame. simpl.
      destruct (decide (c = a)) as [->|Hne].
      - rewrite assoc_set_entry_eq.
        rewrite (IH p ch ch' Hch); [by apply Hsame|].
        intros r ->. by apply (Hp r).
      - by rewrite assoc_set_entry_ne. }
    destruct (assoc c es) as [ch|] eqn:E.
    + destruct (mkdir_p q ch) as [ch'|] eqn:E'; [|done].
      injection Hmk as <-. by eapply Hstep.
    + destruct (mkdir_p q (Dir [])) as [ch'|] eqn:E'; [|done].
      injection Hmk as <-. eapply Hstep; [done..|].
      intros ->. apply lookup_nil_dir. intros ->. by apply (Hp q).
Qed.

Lemma listdir_cons c p es :
  listdir (c :: p) (Dir es) =
    match assoc c es with Some ch => listdir p ch | None => [] end.
Proof. unfold listdir. simpl. by destruct (assoc c es). Qed.

Lemma listdir_nil_dir p : listdir p (Dir []) = [].
Proof. by destruct p. Qed.

(** A directory made by [mkdir] is empty; one found is left as it is. *)
Lemma mkdir_p_listdir_self q n n' :
  mkdir_p q n = Some n' → listdir q n' = listdir q n.
Proof.
  revert n n'. induction q as [|c q IH]; intros n n'.
  - destruct n; simpl; [done|]. by intros [= <-].
  - destruct n as [|es]; simpl; [done|].
    destruct (assoc c es) as [ch|] eqn:E.
    + destruct (mkdir_p q ch) as [ch'|] eqn:E'; [|done]. intros [= <-].
      rewrite !listdir_cons, assoc_set_entry_eq, E. by eapply IH.
    + destruct (mkdir_p q (Dir [])) as [ch'|] eqn:E'; [|done]. intros [= <-].
      rewrite !listdir_cons, assoc_set_entry_eq, E.
      rewrite (IH _ _ E'). apply listdir_nil_dir.
Qed.

Lemma mkdir_p_listdir q p n n' :
  mkdir_p q n = Some n' → (∀ c r, q ≠ p ++ c :: r) →
  listdir p n' = listdir p n.
Proof.
  intros Hmk Hp. destruct (decide (q = p)) as [->|Hne].
  - by apply mkdir_p_listdir_self.
  - unfold listdir. rewrite (mkdir_p_lookup_other q p n n'); [done..|].
    intros [|c r] ->; [by rewrite app_nil_r in Hne|]. by eapply Hp.
Qed.

Lemma mkdir_p_keeps_dir q p n n' es :
  mkdir_p q n = Some n' → lookup p n = Some (Dir es) →
  ∃ es', lookup p n' = Some (Dir es').
Proof.
  revert p n n' es. induction q as [|c q IH]; intros p n n' es.
  - destruct n; simpl; [done|]. intros [= <-]. by eexists.
  - destruct n as [|es0]; simpl; [done|]. intros Hmk Hp.
    destruct p as [|a p]; [destruct n'; [|by eexists]|].
    { destruct (assoc c es0); [destruct (mkdir_p q _)|destruct (mkdir_p q _)];
        done. }
    simpl in Hp. destruct (assoc a es0) as [x|] eqn:Ea; [|done].
    assert (∀ ch ch', mkdir_p q ch = Some ch' →
              n' = Dir (set_entry c ch' es0) → (a = c → ch = x) →
              ∃ es', lookup (a :: p) n' = Some (Dir es')) as Hstep.
    { intros ch ch' Hch -> Hsame. simpl.
      destruct (decide (c = a)) as [->|Hne].
      - rewrite assoc_set_entry_eq. rewrite Hsame in Hch by done.
        by eapply IH.
      - rewrite assoc_set_entry_ne, Ea by done. by eexists. }
    destruct (assoc c es0) as [ch|] eqn:E.
    + destruct (mkdir_p q ch) as [ch'|] eqn:E'; [|done].
      injection Hmk as <-. eapply Hstep; [done..|]. intros ->. congruence.
    + destruct (mkdir_p q (Dir [])) as [ch'|] eqn:E'; [|done].
      injection Hmk as <-. eapply Hstep; [done..|]. intros ->. congruence.
Qed.

Lemma write_text_one c s es :
  write_text [c] s (Dir es) =
    match assoc c es with
    | Some (Dir _) => None
    | _ => Some (Dir (set_entry c (File (Some s)) es))
    end.
Proof. done. Qed.

Lemma write_text_deeper c c' p s es :
  write_text (c :: c' :: p) s (Dir es) =
    match assoc c es with
    | Some ch =>
        match write_text (c' :: p) s ch with
        | Some ch' => Some (Dir (set_entry c ch' es))
        | None => None
        end
    | None => None
    end.
Proof. done. Qed.

(** What [write_text] wrote is what the path holds. *)
Lemma write_text_lookup p s n n' :
  write_text p s n = Some n' → lookup p n' = Some (File (Some s)).
Proof.
  revert n n'. induction p as [|c p IH]; intros n n'.
  - by destruct n.
  - destruct n as [|es]; [done|]. destruct p as [|c' p].
    + rewrite write_text_one.
      destruct (assoc c es) as [[]|]; [|done|]; intros [= <-];
        simpl; by rewrite assoc_set_entry_eq.
    + rewrite write_text_deeper.
      destruct (assoc c es) as [ch|]; [|done].
      destruct (write_text (c' :: p) s ch) as [ch'|] eqn:E; [|done].
      intros [= <-]. rewrite lookup_cons, assoc_set_entry_eq. by eapply IH.
Qed.

(** Writing the same text again leaves the whole tree as it is. *)
Lemma write_text_again p s n n' :
  write_text p s n = Some n' → write_text p s n' = Some n'.
Proof.
  revert n n'. induction p as [|c p IH]; intros n n'.
  - by destruct n.
  - destruct n as [|es]; [done|]. destruct p as [|c' p].
    + rewrite write_text_one.
      destruct (assoc c es) as [[]|]; [|done|]; intros [= <-];
        by rewrite write_text_one, assoc_set_entry_eq, set_entry_twice.
    + rewrite write_text_deeper.
      destruct (assoc c es) as [ch|]; [|done].
      destruct (write_text (c' :: p) s ch) as [ch'|] eqn:E; [|done].
      intros [= <-]. rewrite write_text_deeper.
      rewrite assoc_set_entry_eq, (IH _ _ E). by rewrite set_entry_twice.
Qed.

Lemma write_text_keeps_dir q s p n n' es :
  write_text q s n = Some n' → lookup p n = Some (Dir es) →
  ∃ es', lookup p n' = Some (Dir es').
Proof.
  revert p n n' es. induction q as [|c q IH]; intros p n n' es.
  - by destruct n.
  - destruct n as [|es0]; [done|]. intros Hw Hp.
    destruct p as [|a p].
    { destruct n'; [|by eexists]. destruct q.
      - rewrite write_text_one in Hw. by destruct (assoc c es0) as [[]|].
      - rewrite write_text_deeper in Hw.
        destruct (assoc c es0); [|done]. by destruct (write_text _ _ _). }
    simpl in Hp. destruct (assoc a es0) as [x|] eqn:Ea; [|done].
    destruct q as [|c' q].
    + rewrite write_text_one in Hw.
      assert (n' = Dir (set_entry c (File (Some s)) es0) ∧
              ∀ es1, assoc c es0 ≠ Some (Dir es1)) as [-> Hnd].
      { destruct (assoc c es0) as [[]|]; by simplify_eq. }
      simpl. destruct (decide (c = a)) as [->|Hne].
      * destruct x as [|es1]; [by destruct p|]. by destruct (Hnd es1).
      * rewrite assoc_set_entry_ne, Ea by done. by eexists.
    + rewrite write_text_deeper in Hw.
      destruct (assoc c es0) as [ch|] eqn:Ec; [|done].
      destruct (write_text (c' :: q) s ch) as [ch'|] eqn:E; [|done].
      injection Hw as <-. simpl.
      destruct (decide (c = a)) as [->|Hne].
      * rewrite assoc_set_entry_eq. simplify_eq. by eapply IH.
      * rewrite assoc_set_entry_ne, Ea by done. by eexists.
Qed.

Lemma assoc_del_entry k es : assoc k (del_entry k es) = None.
Proof.
  unfold del_entry. induction es as [|[k' v] es IH]; [done|]. simpl.
  destruct (decide (k = k')) as [->|Hne].
  - by rewrite bool_decide_eq_true_2.
  - rewrite bool_decide_eq_false_2 by done. simpl.
    by rewrite decide_False.
Qed.

(** Removing an existing directory succeeds and leaves nothing at its
    path. *)
Lemma rmtree_dir p n es :
  p ≠ [] → lookup p n = Some (Dir es) →
  ∃ n', rmtree p n = Some n' ∧ lookup p n' = None.
Proof.
  revert n. induction p as [|c p IH]; intros n Hp Hdir; [done|].
  destruct n as [|es0]; [done|]. rewrite lookup_cons in Hdir.
  destruct (assoc c es0) as [ch|] eqn:Ec; [|done].
  destruct p as [|c' p].
  - simpl in Hdir. simplify_eq. simpl. rewrite Ec.
    eexists. split; [done|]. simpl. by rewrite assoc_del_entry.
  - destruct (IH ch) as (ch' & Hrm & Hgone); [done..|].
    exists (Dir (set_entry c ch' es0)). split.
    + change (rmtree (c :: c' :: p) (Dir es0))
        with (match assoc c es0 with
              | Some ch =>
                  match rmtree (c' :: p) ch with
                  | Some ch' => Some (Dir (set_entry c ch' es0))
                  | None => None
                  end
              | None => None
              end).
      by rewrite Ec, Hrm.
    + by rewrite lookup_cons, assoc_set_entry_eq.
Qed.

End filesystem.

(** * Properties of the directory helpers *)

Section helpers.
Context (self : GraphRAGService) (conversation_id : str).
Implicit Types (st : state) (n : node).

Ltac path_neq :=
  unfold input_path, output_path, cache_path, conv_path;
  rewrite <-?app_assoc;
  let H := fresh in
  intros H; apply app_inv_head in H; simpl in H; discriminate H.

Lemma bind_returned {A B} (m : M A) (k : A → M B) st a st' :
  m st = (Returned a, st') → bind m k st = k a st'.
Proof. unfold bind. by intros ->. Qed.

Lemma bind_raised {A B} (m : M A) (k : A → M B) st :
  (m st).1 = Raised → (bind m k st).1 = Raised.
Proof. unfold bind. destruct (m st) as [[a|] st']; simpl; done. Qed.

Lemma bind_not_raised {A B} (m : M A) (k : A → M B) st :
  (bind m k st).1 ≠ Raised → ∃ a st', m st = (Returned a, st').
Proof.
  unfold bind. destruct (m st) as [[a|] st']; simpl; [by eauto|done].
Qed.

Lemma bind_returned_inv {A B} (m : M A) (k : A → M B) st b st' :
  bind m k st = (Returned b, st') →
  ∃ a st1, m st = (Returned a, st1) ∧ k a st1 = (Returned b, st').
Proof.
  unfold bind. destruct (m st) as [[a|] st1]; [by eauto|done].
Qed.

Lemma raised_or_not {A} (o : outcome A) : o = Raised ∨ o ≠ Raised.
Proof. destruct o; [by right|by left]. Qed.

Lemma returned_not_raised {A} (m : M A) st a st' :
  m st = (Returned a, st') → (m st).1 ≠ Raised.
Proof. by intros ->. Qed.

Lemma makes_dir_listdir_input n n' :
  makes_dir self conversation_id n n' →
  listdir (input_path self conversation_id) n'
  = listdir (input_path self conversation_id) n.
Proof.
  intros (q & Hq & Hmk). apply (mkdir_p_listdir q); [done|].
  intros c r. unfold workspace_dirs in Hq.
  repeat (apply elem_of_cons in Hq as [->|Hq]); [..|by apply elem_of_nil in Hq];
    path_neq.
Qed.

Lemma makes_dir_listdir_output n n' :
  makes_dir self conversation_id n n' →
  listdir (output_path self conversation_id) n'
  = listdir (output_path self conversation_id) n.
Proof.
  intros (q & Hq & Hmk). apply (mkdir_p_listdir q); [done|].
  intros c r. unfold workspace_dirs in Hq.
  repeat (apply elem_of_cons in Hq as [->|Hq]); [..|by apply elem_of_nil in Hq];
    path_neq.
Qed.

Lemma makes_dir_lookup_file n n' k r :
  makes_dir self conversation_id n n' →
  lookup (input_path self conversation_id ++ k :: r) n'
  = lookup (input_path self conversation_id ++ k :: r) n.
Proof.
  intros (q & Hq & Hmk). apply (mkdir_p_lookup_other q); [done|].
  intros r'. unfold workspace_dirs in Hq.
  repeat (apply elem_of_cons in Hq as [->|Hq]); [..|by apply elem_of_nil in Hq];
    path_neq.
Qed.

Lemma prepared_listdir_input n n' :
  prepared self conversation_id n n' →
  listdir (input_path self conversation_id) n'
  = listdir (input_path self conversation_id) n.
Proof.
  induction 1 as [|n1 n2 n3 H _ IH]; [done|].
  by rewrite IH, (makes_dir_listdir_input _ _ H).
Qed.

Lemma prepared_listdir_output n n' :
  prepared self conversation_id n n' →
  listdir (output_path self conversation_id) n'
  = listdir (output_path self conversation_id) n.
Proof.
  induction 1 as [|n1 n2 n3 H _ IH]; [done|].
  by rewrite IH, (makes_dir_listdir_output _ _ H).
Qed.

Lemma prepared_lookup_file n n' k r :
  prepared self conversation_id n n' →
  lookup (input_path self conversation_id ++ k :: r) n'
  = lookup (input_path self conversation_id ++ k :: r) n.
Proof.
  induction 1 as [|n1 n2 n3 H _ IH]; [done|].
  by rewrite IH, (makes_dir_lookup_file _ _ _ _ H).
Qed.

Lemma prepared_keeps_dir n n' p es :
  prepared self conversation_id n n' → lookup p n = Some (Dir es) →
  ∃ es', lookup p n' = Some (Dir es').
Proof.
  intros H. revert es. induction H as [|n1 n2 n3 (q & _ & Hmk) _ IH];
    intros es Hp; [by eexists|].
  destruct (mkdir_p_keeps_dir _ _ _ _ _ Hmk Hp) as [es' Hes']. by eapply IH.
Qed.

Lemma prepared_txt_files n n' :
  prepared self conversation_id n n' →
  txt_files self conversation_id n' = txt_files self conversation_id n.
Proof.
  intros H. unfold txt_files, glob. by rewrite (prepared_listdir_input _ _ H).
Qed.

Lemma prepared_parquet_files n n' :
  prepared self conversation_id n n' →
  parquet_files self conversation_id n' = parquet_files self conversation_id n.
Proof.
  intros H. unfold parquet_files, glob.
  by rewrite (prepared_listdir_output _ _ H).
Qed.

Lemma glob_in_dir suffix d n p :
  p ∈ glob suffix d n → ∃ k, p = d ++ [k].
Proof.
  unfold glob. intros (k & -> & _)%list_elem_of_fmap. by exists k.
Qed.

Lemma prepared_read_text n n' p :
  prepared self conversation_id n n' →
  p ∈ txt_files self conversation_id n →
  read_text p n' = read_text p n.
Proof.
  intros H [k ->]%glob_in_dir. unfold read_text.
  by rewrite (prepared_lookup_file _ _ _ _ H).
Qed.

(** What a directory helper leaves behind when it returns. *)
Lemma mkdir_returns p st :
  (mkdir p st).1 ≠ Raised →
  ∃ n', mkdir p st = (Returned tt, {| fs := n'; log := log st |})
        ∧ mkdir_p p (fs st) = Some n'.
Proof.
  unfold mkdir. destruct (mkdir_p p (fs st)) as [n'|]; [by eauto|done].
Qed.

Lemma get_conversation_dir_returns st :
  (get_conversation_dir self conversation_id st).1 ≠ Raised →
  ∃ n', get_conversation_dir self conversation_id st
        = (Returned (conv_path self conversation_id),
           {| fs := n'; log := log st |})
        ∧ prepared self conversation_id (fs st) n'
        ∧ ∃ es, lookup (conv_path self conversation_id) n' = Some (Dir es).
Proof.
  unfold get_conversation_dir. intros H.
  destruct (bind_not_raised _ _ _ H) as ([] & st' & Hm).
  destruct (mkdir_returns (base_dir self ++ [conversation_id]) st)
    as (n' & Hmk & Hp); [by rewrite Hm|].
  exists n'. rewrite (bind_returned _ _ _ _ _ Hmk). split; [done|]. split.
  - apply rtc_once. exists (conv_path self conversation_id).
    split; [|done]. unfold workspace_dirs. set_solver.
  - by eapply mkdir_p_is_dir.
Qed.

Lemma sub_dir_returns (name : str) st :
  conv_path self conversation_id ++ [name]
    ∈ workspace_dirs self conversation_id →
  (bind (get_conversation_dir self conversation_id)
     (λ conv_dir, bind (mkdir (conv_dir ++ [name]))
                    (λ _, ret (conv_dir ++ [name]))) st).1 ≠ Raised →
  ∃ n', bind (get_conversation_dir self conversation_id)
          (λ conv_dir, bind (mkdir (conv_dir ++ [name]))
                         (λ _, ret (conv_dir ++ [name]))) st
        = (Returned (conv_path self conversation_id ++ [name]),
           {| fs := n'; log := log st |})
        ∧ prepared self conversation_id (fs st) n'
        ∧ ∃ es, lookup (conv_path self conversation_id ++ [name]) n'
                = Some (Dir es).
Proof.
  intros Hin H.
  destruct (bind_not_raised _ _ _ H) as (a & st1 & Hm).
  destruct (get_conversation_dir_returns st) as (n1 & Hc & Hprep & _);
    [by rewrite Hm|].
  rewrite (bind_returned _ _ _ _ _ Hc) in H |- *.
  destruct (bind_not_raised _ _ _ H) as ([] & st2 & Hm2).
  destruct (mkdir_returns (conv_path self conversation_id ++ [name])
              {| fs := n1; log := log st |}) as (n' & Hmk & Hp);
    [by rewrite Hm2|].
  exists n'. rewrite (bind_returned _ _ _ _ _ Hmk). split; [done|]. split.
  - eapply rtc_r; [done|]. by eexists.
  - by eapply mkdir_p_is_dir.
Qed.

Lemma get_input_dir_returns st :
  (get_input_dir self conversation_id st).1 ≠ Raised →
  ∃ n', get_input_dir self conversation_id st
        = (Returned (input_path self conversation_id),
           {| fs := n'; log := log st |})
        ∧ prepared self conversation_id (fs st) n'
        ∧ ∃ es, lookup (input_path self conversation_id) n' = Some (Dir es).
Proof. apply sub_dir_returns. unfold workspace_dirs. set_solver. Qed.

Lemma get_output_dir_returns st :
  (get_output_dir self conversation_id st).1 ≠ Raised →
  ∃ n', get_output_dir self conversation_id st
        = (Returned (output_path self conversation_id),
           {| fs := n'; log := log st |})
        ∧ prepared self conversation_id (fs st) n'
        ∧ ∃ es, lookup (output_path self conversation_id) n' = Some (Dir es).
Proof. apply sub_dir_returns. unfold workspace_dirs. set_solver. Qed.

Lemma get_cache_dir_returns st :
  (get_cache_dir self conversation_id st).1 ≠ Raised →
  ∃ n', get_cache_dir self conversation_id st
        = (Returned (cache_path self conversation_id),
           {| fs := n'; log := log st |})
        ∧ prepared self conversation_id (fs st) n'
        ∧ ∃ es, lookup (cache_path self conversation_id) n' = Some (Dir es).
Proof. apply sub_dir_returns. unfold workspace_dirs. set_solver. Qed.

End helpers.

(** * Properties of path parsing *)

Section purepath.
Implicit Types s x stem ext : str.

Lemma split_slash_free s x : x ∈ split (py "/") s → "/"%char ∉ x.
Proof.
  revert x. pattern s. apply (scan_ind (py "/")); [done|..]; clear s.
  - intros x. rewrite split_eq by done. simpl.
    intros ->%list_elem_of_singleton. apply not_elem_of_nil.
  - intros rest IH x. rewrite split_eq, strip_prefix_app by done.
    intros [->|H]%elem_of_cons; [apply not_elem_of_nil|by apply IH].
  - intros c r E IH x. rewrite split_eq by done. rewrite E.
    assert (c ≠ "/"%char) as Hc.
    { intros ->. change ("/"%char :: r) with (py "/" ++ r) in E.
      by rewrite strip_prefix_app in E. }
    destruct (split (py "/") r) as [|p ps] eqn:Er.
    + intros ->%list_elem_of_singleton.
      intros [?|?%elem_of_nil]%elem_of_cons; done.
    + intros [->|H]%elem_of_cons.
      * intros [?|?]%elem_of_cons; [done|]. apply (IH p); [left|done].
      * apply IH. by right.
Qed.

Lemma name_slash_free s : "/"%char ∉ PurePath.name s.
Proof.
  unfold PurePath.name, PurePath.parts.
  destruct (last _) as [x|] eqn:E; simpl; [|apply not_elem_of_nil].
  apply last_Some_elem_of in E.
  apply list_elem_of_In, filter_In in E as [E _].
  by apply list_elem_of_In, split_slash_free in E.
Qed.

Lemma stem_slash_free s : "/"%char ∉ PurePath.stem s.
Proof.
  unfold PurePath.stem. pose proof (name_slash_free s) as H.
  destruct (PurePath.rfind _ _) as [i|]; [|done].
  destruct (_ && _); [|done].
  intros Hin. apply H. by apply (subseteq_take i).
Qed.

Lemma split_without_separator x :
  "/"%char ∉ x → split (py "/") x = [x].
Proof.
  induction x as [|c x IH]; intros H.
  - by rewrite split_eq.
  - rewrite split_eq by done.
    assert (strip_prefix (py "/") (c :: x) = None) as ->.
    { simpl. rewrite decide_False; [done|]. intros <-. apply H. left. }
    rewrite IH; [done|]. intros ?. apply H. by right.
Qed.

(** A name made of a component and the text extension joins as one
    component. *)
Lemma joinpath_text_name d x :
  "/"%char ∉ x →
  PurePath.joinpath d (x ++ py ".txt") = d ++ [x ++ py ".txt"].
Proof.
  intros H.
  assert ("/"%char ∉ x ++ py ".txt") as H'.
  { intros [?|Hd]%elem_of_app; [done|]. simpl in Hd.
    repeat (apply elem_of_cons in Hd as [?|Hd]; [done|]).
    by apply elem_of_nil in Hd. }
  unfold PurePath.joinpath, PurePath.is_absolute, PurePath.parts.
  rewrite split_without_separator by done.
  assert (startswith (x ++ py ".txt") (py "/") = false) as ->.
  { unfold startswith. destruct x as [|c x]; [done|]. simpl.
    rewrite decide_False by set_solver. done. }
  simpl. unfold PurePath.keep_part.
  rewrite !bool_decide_eq_false_2; [done|..];
    intros E; apply (f_equal length) in E; rewrite length_app in E;
    simpl in E; lia.
Qed.

Lemma rfind_absent c x : c ∉ x → PurePath.rfind c x = None.
Proof.
  induction x as [|a x IH]; intros H; simpl; [done|].
  rewrite IH by set_solver. rewrite decide_False by set_solver. done.
Qed.

Lemma rfind_last c x y :
  c ∉ y → PurePath.rfind c (x ++ c :: y) = Some (length x).
Proof.
  intros H. induction x as [|a x IH]; simpl.
  - rewrite rfind_absent by done. by rewrite decide_True.
  - by rewrite IH.
Qed.

(** On a plain name [stem.ext] the stem is what stands before the last
    dot. *)
Lemma stem_of_plain_name stem ext :
  stem ≠ [] → "/"%char ∉ stem →
  ext ≠ [] → "/"%char ∉ ext → "."%char ∉ ext →
  PurePath.stem (stem ++ py "." ++ ext) = stem.
Proof.
  intros Hs Hss He Hes Hed.
  assert ("/"%char ∉ stem ++ py "." ++ ext) as Hfree.
  { intros [?|Hd]%elem_of_app; [done|].
    apply elem_of_cons in Hd as [?|?]; done. }
  assert (PurePath.name (stem ++ py "." ++ ext) = stem ++ py "." ++ ext)
    as Hname.
  { unfold PurePath.name, PurePath.parts.
    rewrite split_without_separator by done. simpl.
    unfold PurePath.keep_part.
    rewrite !bool_decide_eq_false_2; [done|..];
      intros E; apply (f_equal length) in E; rewrite !length_app in E;
      destruct stem, ext; simpl in E; try done; lia. }
  unfold PurePath.stem. rewrite Hname.
  change (py "." ++ ext) with ("."%char :: ext).
  rewrite rfind_last by done.
  assert ((0 <? length stem) = true) as ->.
  { apply Nat.ltb_lt. destruct stem; simpl; [done|lia]. }
  assert ((length stem <? length (stem ++ "."%char :: ext) - 1) = true)
    as ->.
  { apply Nat.ltb_lt. rewrite length_app. destruct ext; simpl; [done|lia]. }
  simpl. by rewrite take_app_length.
Qed.

End purepath.

(** * The document normaliser: saving *)

Section saving.
Context (self : GraphRAGService) (conversation_id : str).
Implicit Types (st : state) (n : node) (filename content : str).

(** A save that returns has created the input directory and written the
    formatted text under the normalised name. *)
Lemma save_document_returns filename content st p st' :
  save_document self conversation_id filename content st = (Returned p, st') →
  ∃ n1, prepared self conversation_id (fs st) n1
        ∧ (∃ es, lookup (input_path self conversation_id) n1 = Some (Dir es))
        ∧ p = PurePath.joinpath (input_path self conversation_id)
                (text_filename filename)
        ∧ write_text p (format_content content) n1 = Some (fs st').
Proof.
  unfold save_document. intros H.
  apply bind_returned_inv in H as (d & st1 & Hd & H).
  destruct (get_input_dir_returns self conversation_id st)
    as (n1 & Hin & Hprep & Hdir); [by eapply returned_not_raised|].
  rewrite Hin in Hd. simplify_eq.
  exists n1. split; [done|]. split; [done|].
  fold (format_content content) in H.
  unfold bind, when, write, print, ret in H. simpl in H.
  destruct (length (strip content) <? 100); simpl in H;
    destruct (write_text _ _ n1) as [n2|] eqn:Hw; simplify_eq; done.
Qed.

Lemma parent_is_dir p c n m :
  lookup (p ++ [c]) n = Some m → ∃ es, lookup p n = Some (Dir es).
Proof.
  rewrite lookup_app. destruct (lookup p n) as [[|es]|]; [done| |done].
  by eexists.
Qed.

Lemma mkdir_existing p st es :
  lookup p (fs st) = Some (Dir es) → mkdir p st = (Returned tt, st).
Proof.
  intros H. unfold mkdir. rewrite (mkdir_p_existing _ _ _ H). by destruct st.
Qed.

(** On an existing input directory the helper changes nothing. *)
Lemma get_input_dir_existing st es :
  lookup (input_path self conversation_id) (fs st) = Some (Dir es) →
  get_input_dir self conversation_id st
  = (Returned (input_path self conversation_id), st).
Proof.
  intros Hin. destruct (parent_is_dir _ _ _ _ Hin) as [es' Hconv].
  unfold get_input_dir, get_conversation_dir.
  erewrite bind_returned; [|erewrite bind_returned;
    [reflexivity|by eapply mkdir_existing]].
  erewrite bind_returned; [reflexivity|by eapply mkdir_existing].
Qed.

(** C6.  The file a save has written ends with a newline; and when the
    trimmed content is longer than 200 characters and the content has no
    blank line, the file holds the trimmed content cut at every period
    followed by a space, the pieces joined again by a period and a paragraph
    break, with the final newline after it. *)
Theorem save_document_breaks_and_newline filename content st p st' :
  save_document self conversation_id filename content st = (Returned p, st') →
  ∃ written,
    lookup p (fs st') = Some (File (Some written))
    ∧ endswith written nl = true
    ∧ (200 < length (strip content) →
       contains (nl ++ nl) content = false →
       written
       = join (py "." ++ nl ++ nl) (split (py ". ") (strip content)) ++ nl).
Proof.
  intros (n1 & _ & _ & _ & Hw)%save_document_returns.
  exists (format_content content). split; [by eapply write_text_lookup|].
  split; [apply format_content_endswith_nl|]. apply format_content_breaks.
Qed.

(** C7.  For a file name that does not end in [.txt], the document is
    written in the input directory under the stem of the name followed by
    [.txt]; for a plain name [stem.ext] that stem is [stem], so the
    extension is replaced and nothing is appended to the old one. *)
Theorem save_document_replaces_extension filename content st p st' :
  endswith filename (py ".txt") = false →
  save_document self conversation_id filename content st = (Returned p, st') →
  p = input_path self conversation_id ++ [PurePath.stem filename ++ py ".txt"]
  ∧ lookup p (fs st') = Some (File (Some (format_content content)))
  ∧ ∀ stem ext,
      filename = stem ++ py "." ++ ext →
      stem ≠ [] → "/"%char ∉ stem →
      ext ≠ [] → "/"%char ∉ ext → "."%char ∉ ext →
      p = input_path self conversation_id ++ [stem ++ py ".txt"].
Proof.
  intros Hext (n1 & _ & _ & Hp & Hw)%save_document_returns.
  unfold text_filename in Hp. rewrite Hext in Hp. simpl negb in Hp.
  cbv iota in Hp. rewrite joinpath_text_name in Hp
    by apply stem_slash_free.
  split; [done|]. split; [by eapply write_text_lookup|].
  intros stem ext -> ? ? ? ? ?. rewrite Hp.
  by rewrite stem_of_plain_name.
Qed.

(** C10.  Saving again, under the same name, the text a save has written
    returns the same path and leaves the file system as it is: the file is
    written with the same content. *)
Theorem save_document_idempotent filename content st p st1 :
  save_document self conversation_id filename content st = (Returned p, st1) →
  ∃ written,
    lookup p (fs st1) = Some (File (Some written))
    ∧ ∃ st2,
        save_document self conversation_id filename written st1
        = (Returned p, st2)
        ∧ fs st2 = fs st1.
Proof.
  intros (n1 & _ & [es Hdir] & Hp & Hw)%save_document_returns.
  exists (format_content content). split; [by eapply write_text_lookup|].
  destruct (write_text_keeps_dir _ _ _ _ _ _ Hw Hdir) as [es' Hdir'].
  unfold save_document.
  erewrite bind_returned; [|by eapply get_input_dir_existing].
  fold (format_content (format_content content)).
  rewrite format_content_idempotent, <-Hp.
  unfold bind, when, write, print, ret.
  destruct (length (strip (format_content content)) <? 100); simpl;
    rewrite (write_text_again _ _ _ _ Hw); by eexists.
Qed.

End saving.

Section saving_witnesses.
Import Examples.

(** The lease text, saved into an empty tree: six sentences, five breaks. *)
Lemma save_document_breaks_witness :
  ∃ p st' written,
    save_document demo_service demo_id (py "lease.txt") lease_text empty_state
    = (Returned p, st')
    ∧ lookup p (fs st') = Some (File (Some written))
    ∧ endswith written nl = true
    ∧ 200 < length (strip lease_text)
    ∧ contains (nl ++ nl) lease_text = false
    ∧ written
      = join (py "." ++ nl ++ nl) (split (py ". ") (strip lease_text)) ++ nl.
Proof.
  eexists _, _.
  assert (save_document demo_service demo_id (py "lease.txt") lease_text
            empty_state = (Returned _, _)) as Hrun
    by (vm_compute; reflexivity).
  destruct (save_document_breaks_and_newline demo_service demo_id _ _ _ _ _
              Hrun) as (written & Hl & He & Hb).
  exists written. split; [exact Hrun|]. split; [exact Hl|].
  split; [exact He|].
  assert (200 < length (strip lease_text)) as Hlen
    by (vm_compute; repeat constructor).
  assert (contains (nl ++ nl) lease_text = false) as Hnn
    by (vm_compute; reflexivity).
  split; [exact Hlen|]. split; [exact Hnn|]. exact (Hb Hlen Hnn).
Defined.

(** [notes.docx] is written as [notes.txt]. *)
Lemma save_document_extension_witness :
  ∃ p st',
    endswith (py "notes.docx") (py ".txt") = false
    ∧ save_document demo_service demo_id (py "notes.docx") lease_text
        empty_state = (Returned p, st')
    ∧ p = input_path demo_service demo_id ++ [py "notes.txt"].
Proof.
  eexists _, _.
  assert (endswith (py "notes.docx") (py ".txt") = false) as Hext
    by reflexivity.
  assert (save_document demo_service demo_id (py "notes.docx") lease_text
            empty_state = (Returned _, _)) as Hrun
    by (vm_compute; reflexivity).
  split; [exact Hext|]. split; [exact Hrun|].
  exact (proj1 (save_document_replaces_extension demo_service demo_id _ _ _
                  _ _ Hext Hrun)).
Defined.

(** Saving the lease text twice. *)
Lemma save_document_idempotent_witness :
  ∃ p st1 written st2,
    save_document demo_service demo_id (py "notes.docx") lease_text
      empty_state = (Returned p, st1)
    ∧ lookup p (fs st1) = Some (File (Some written))
    ∧ save_document demo_service demo_id (py "notes.docx") written st1
      = (Returned p, st2)
    ∧ fs st2 = fs st1.
Proof.
  eexists _, _.
  assert (save_document demo_service demo_id (py "notes.docx") lease_text
            empty_state = (Returned _, _)) as Hrun
    by (vm_compute; reflexivity).
  destruct (save_document_idempotent demo_service demo_id _ _ _ _ _ Hrun)
    as (written & Hl & st2 & Hagain & Hfs).
  by exists written, st2.
Defined.

End saving_witnesses.

(** * The index builder *)

Section building.
Context (self : GraphRAGService) (conversation_id : str).
Implicit Types (st : state) (n : node) (debug : bool).

Lemma list_case_nonempty {A B} (l : list A) (a b : B) :
  l ≠ [] → match l with [] => a | _ :: _ => b end = b.
Proof. by destruct l. Qed.

Lemma spawned_prints log0 l :
  Forall (λ e, is_exec e = false) l →
  List.filter is_exec (log0 ++ l) = List.filter is_exec log0.
Proof.
  intros H. rewrite List.filter_app.
  assert (List.filter is_exec l = []) as ->; [|by rewrite app_nil_r].
  induction H as [|e l He _ IH]; simpl; [done|]. by rewrite He.
Qed.

(** The four helpers [build_index] starts with leave the files alone. *)
Lemma build_index_prepare debug st :
  (build_index self conversation_id debug st).1 ≠ Raised →
  ∃ n4, prepared self conversation_id (fs st) n4
        ∧ build_index self conversation_id debug st
          = build_index_checks self conversation_id debug
              (conv_path self conversation_id)
              (input_path self conversation_id)
              {| fs := n4; log := log st |}.
Proof.
  unfold build_index. intros H.
  destruct (bind_not_raised _ _ _ H) as (? & ? & H1).
  destruct (get_conversation_dir_returns self conversation_id st)
    as (n1 & E1 & P1 & _); [by rewrite H1|].
  rewrite (bind_returned _ _ _ _ _ E1) in H |- *.
  destruct (bind_not_raised _ _ _ H) as (? & ? & H2).
  destruct (get_input_dir_returns self conversation_id
              {| fs := n1; log := log st |})
    as (n2 & E2 & P2 & _); [by rewrite H2|].
  cbn [log fs] in E2, P2.
  rewrite (bind_returned _ _ _ _ _ E2) in H |- *.
  destruct (bind_not_raised _ _ _ H) as (? & ? & H3).
  destruct (get_output_dir_returns self conversation_id
              {| fs := n2; log := log st |})
    as (n3 & E3 & P3 & _); [by rewrite H3|].
  cbn [log fs] in E3, P3.
  rewrite (bind_returned _ _ _ _ _ E3) in H |- *.
  destruct (bind_not_raised _ _ _ H) as (? & ? & H4).
  destruct (get_cache_dir_returns self conversation_id
              {| fs := n3; log := log st |})
    as (n4 & E4 & P4 & _); [by rewrite H4|].
  cbn [log fs] in E4, P4.
  rewrite (bind_returned _ _ _ _ _ E4).
  exists n4. split; [|done]. simpl in *.
  by repeat (etrans; [eassumption|]).
Qed.

Lemma validate_files_readable files total st :
  (∀ p, p ∈ files → readable (fs st) p) →
  validate_files files total st
  = (Returned (Some (total + total_chars (fs st) files)),
     {| fs := fs st;
        log := log st
               ++ map (λ p, Print (MsgFileChars (path_name p)
                                     (chars_of (fs st) p))) files |}).
Proof.
  revert total st. induction files as [|f files IH]; intros total st Hr.
  - simpl. unfold ret, total_chars. simpl.
    rewrite Nat.add_0_r, app_nil_r. by destruct st.
  - destruct (Hr f) as [content Hc]; [left|].
    simpl validate_files. unfold bind at 1. unfold try_read_text at 1.
    rewrite Hc. unfold bind at 1. unfold print at 1.
    rewrite IH by (intros p Hp; apply Hr; by right).
    simpl. unfold total_chars, chars_of. simpl. rewrite Hc. simpl.
    rewrite <-app_assoc. simpl. do 3 f_equal. lia.
Qed.

(** The validation loop on any files: it only prints, and gives the total
    exactly when every file reads. *)
Lemma validate_files_any files total n :
  ∃ r evs,
    Forall (λ e, is_exec e = false) evs
    ∧ (∀ log0, validate_files files total {| fs := n; log := log0 |}
               = (Returned r, {| fs := n; log := log0 ++ evs |}))
    ∧ (r = None ∧ ¬ Forall (readable n) files
       ∨ r = Some (total + total_chars n files) ∧ Forall (readable n) files).
Proof.
  revert total. induction files as [|f files IH]; intros total.
  - exists (Some total), []. split; [done|]. split.
    + intros log0. by rewrite app_nil_r.
    + right. unfold total_chars. cbn. by rewrite Nat.add_0_r.
  - cbn [validate_files]. unfold bind at 1. unfold try_read_text at 1.
    cbn [fs log]. unfold total_chars. cbn [map sum_list].
    fold (total_chars n files). unfold chars_of at 1.
    destruct (read_text f n) as [content|] eqn:E.
    + destruct (IH (total + length content)) as (r & evs & F & Erun & Hr).
      exists r, (Print (MsgFileChars (path_name f) (length content)) :: evs).
      split; [by constructor|]. split.
      * intros log0. unfold bind at 1. unfold print at 1. cbn [fs log].
        by rewrite Erun, <-app_assoc.
      * cbn [from_option]. destruct Hr as [[-> Hno]|[-> Hall]].
        -- left. split; [done|]. by intros [_ ?]%Forall_cons.
        -- right. split; [f_equal; unfold id; lia|].
           apply Forall_cons.
           split; [unfold readable; by rewrite E|done].
    + exists None, [Print (MsgReadError (path_name f))].
      split; [by repeat constructor|]. split; [done|]. left.
      split; [done|]. intros [Hr _]%Forall_cons. unfold readable in Hr.
      rewrite E in Hr. by destruct Hr.
Qed.

(** The checks, up to the volume tests, on readable files. *)
Lemma build_index_checks_readable debug n log0 :
  let files := txt_files self conversation_id n in
  files ≠ [] →
  (∀ p, p ∈ files → readable n p) →
  build_index_checks self conversation_id debug
    (conv_path self conversation_id) (input_path self conversation_id)
    {| fs := n; log := log0 |}
  = (if total_chars n files <? 50 then
       let* _ := print MsgInsufficient in
       ret false
     else
       let* _ := when (total_chars n files <? 200) (print MsgLowVolume) in
       build_index_run self conversation_id debug
         (conv_path self conversation_id))
      {| fs := n; log := log0 ++ validation_log n files |}.
Proof.
  intros files Hne Hread.
  unfold build_index_checks. unfold bind at 1. unfold glob_paths at 1.
  cbn [fs]. fold (txt_files self conversation_id n). fold files.
  rewrite list_case_nonempty by done.
  unfold bind at 1. unfold print at 1. cbn [fs log].
  unfold bind at 1. rewrite validate_files_readable by done. cbn [fs log].
  rewrite Nat.add_0_l.
  unfold bind at 1. unfold print at 1. cbn [fs log].
  unfold validation_log. by rewrite <-!app_assoc.
Qed.

Lemma total_chars_prepared n n' files :
  prepared self conversation_id n n' →
  files ⊆ txt_files self conversation_id n →
  total_chars n' files = total_chars n files
  ∧ map (λ p, Print (MsgFileChars (path_name p) (chars_of n' p))) files
    = map (λ p, Print (MsgFileChars (path_name p) (chars_of n p))) files.
Proof.
  intros Hp Hsub. unfold total_chars.
  assert (∀ p, p ∈ files → chars_of n' p = chars_of n p) as Hc.
  { intros p Hin. unfold chars_of.
    rewrite (prepared_read_text self conversation_id n n'); [done..|].
    by apply Hsub. }
  split.
  - f_equal. apply map_ext_in. intros p Hin. apply Hc.
    by apply list_elem_of_In.
  - apply map_ext_in. intros p Hin. rewrite Hc; [done|].
    by apply list_elem_of_In.
Qed.

(** C3.  With no text file in the input directory, a build that gets past
    the directory helpers returns [False] and has made no call of
    [create_subprocess_exec]. *)
Theorem build_index_no_documents debug st :
  txt_files self conversation_id (fs st) = [] →
  (build_index self conversation_id debug st).1 ≠ Raised →
  ∃ st', build_index self conversation_id debug st = (Returned false, st')
         ∧ spawned st' = spawned st.
Proof.
  intros Hfiles Hnr.
  destruct (build_index_prepare debug st Hnr) as (n4 & Hp & ->).
  unfold build_index_checks. unfold bind at 1. unfold glob_paths at 1.
  cbn [fs]. fold (txt_files self conversation_id n4).
  rewrite (prepared_txt_files _ _ _ _ Hp), Hfiles.
  eexists. split; [reflexivity|]. unfold spawned. cbn [log].
  apply spawned_prints. by repeat constructor.
Qed.

(** Below 50 characters the checks stop the build, whether or not every
    file reads. *)
Lemma build_index_checks_low_volume debug n log0 :
  total_chars n (txt_files self conversation_id n) < 50 →
  ∃ evs,
    Forall (λ e, is_exec e = false) evs
    ∧ build_index_checks self conversation_id debug
        (conv_path self conversation_id) (input_path self conversation_id)
        {| fs := n; log := log0 |}
      = (Returned false, {| fs := n; log := log0 ++ evs |}).
Proof.
  intros Hlt. unfold build_index_checks.
  unfold bind at 1. unfold glob_paths at 1. cbn [fs].
  fold (txt_files self conversation_id n).
  destruct (decide (txt_files self conversation_id n = [])) as [->|Hne].
  { exists [Print MsgNoDocuments]. split; [by repeat constructor|].
    unfold bind, print, ret. by cbn [fs log]. }
  rewrite list_case_nonempty by done.
  destruct (validate_files_any (txt_files self conversation_id n) 0 n)
    as (rv & evs_v & Fv & Ev & Hv).
  unfold bind at 1. unfold print at 1. cbn [fs log].
  unfold bind at 1. rewrite Ev.
  destruct Hv as [[-> _]|[-> _]].
  - exists (Print (MsgValidating
                     (length (txt_files self conversation_id n))) :: evs_v).
    split; [by constructor|]. unfold ret. by rewrite <-app_assoc.
  - rewrite Nat.add_0_l, (proj2 (Nat.ltb_lt _ _) Hlt).
    exists (Print (MsgValidating (length (txt_files self conversation_id n)))
            :: evs_v
            ++ [Print (MsgTotal (total_chars n
                                   (txt_files self conversation_id n))
                         (length (txt_files self conversation_id n)));
                Print MsgInsufficient]).
    split.
    { constructor; [done|]. apply Forall_app. by repeat constructor. }
    unfold bind, print, ret. cbn [fs log]. by rewrite <-!app_assoc.
Qed.

(** C4, as amended.  Below 50 characters in total, a file that does not
    read counting for none, a build that gets past the directory helpers
    returns [False] without a call of [create_subprocess_exec], whether or
    not every text file reads.  When every text file of the conversation is
    readable, with a total from 50 and below 200 (so there is at least one
    file) the build prints the low-volume warning after the validation
    lines and goes on with the steps after the volume checks. *)
Theorem build_index_volume debug st :
  (build_index self conversation_id debug st).1 ≠ Raised →
  let files := txt_files self conversation_id (fs st) in
  (total_chars (fs st) files < 50 →
   ∃ st', build_index self conversation_id debug st = (Returned false, st')
          ∧ spawned st' = spawned st)
  ∧ ((∀ p, p ∈ files → readable (fs st) p) →
     50 ≤ total_chars (fs st) files < 200 →
     ∃ st2, build_index self conversation_id debug st
            = build_index_run self conversation_id debug
                (conv_path self conversation_id) st2
            ∧ prepared self conversation_id (fs st) (fs st2)
            ∧ log st2
              = log st ++ validation_log (fs st) files
                ++ [Print MsgLowVolume]).
Proof.
  intros Hnr files.
  destruct (build_index_prepare debug st Hnr)
    as (n4 & Hp & ->).
  pose proof (prepared_txt_files _ _ _ _ Hp) as Hfiles. fold files in Hfiles.
  destruct (total_chars_prepared (fs st) n4 files Hp)
    as [Htot Hlines]; [done|].
  split.
  - intros Hlt.
    destruct (build_index_checks_low_volume debug n4 (log st))
      as (evs & Hevs & ->); [by rewrite Hfiles, Htot|].
    eexists. split; [reflexivity|]. unfold spawned. cbn [log].
    by apply spawned_prints.
  - intros Hread [Hge Hlt].
    assert (files ≠ []) as Hne.
    { intros E. rewrite E in Hge. unfold total_chars in Hge. simpl in Hge.
      lia. }
    rewrite (build_index_checks_readable debug n4 (log st)).
    2:{ by rewrite Hfiles. }
    2:{ intros p Hin. rewrite Hfiles in Hin. unfold readable.
        rewrite (prepared_read_text _ _ _ _ _ Hp Hin). by apply Hread. }
    rewrite Hfiles, Htot.
    assert (validation_log n4 files = validation_log (fs st) files) as ->.
    { unfold validation_log. by rewrite Htot, Hlines. }
    rewrite (proj2 (Nat.ltb_ge _ _) Hge), (proj2 (Nat.ltb_lt _ _) Hlt).
    eexists. split; [reflexivity|]. cbn [fs log]. split; [done|].
    by rewrite <-!app_assoc.
Qed.

End building.

Section building_witnesses.
Import Examples.

(** A build on an empty tree. *)
Lemma build_index_no_documents_witness :
  txt_files demo_service demo_id (fs empty_state) = []
  ∧ (build_index demo_service demo_id false empty_state).1 ≠ Raised
  ∧ ∃ st', build_index demo_service demo_id false empty_state
           = (Returned false, st')
           ∧ spawned st' = spawned empty_state.
Proof.
  assert (txt_files demo_service demo_id (fs empty_state) = []) as H1
    by reflexivity.
  assert ((build_index demo_service demo_id false empty_state).1 ≠ Raised)
    as H2 by (vm_compute; discriminate).
  split; [exact H1|]. split; [exact H2|].
  exact (build_index_no_documents demo_service demo_id false empty_state
           H1 H2).
Defined.

(** C4 as stated fails: one readable file of 60 characters next to a file
    that does not decode.  The total is between 50 and 200, yet the build
    returns [False] after the read error, with no low-volume warning and
    without going on to the run. *)
Lemma build_index_unreadable_sibling :
  let st := unreadable_sibling in
  let files := txt_files demo_service demo_id (fs st) in
  (∃ p, p ∈ files ∧ readable (fs st) p)
  ∧ 50 ≤ total_chars (fs st) files < 200
  ∧ ∃ st', build_index demo_service demo_id false st = (Returned false, st')
           ∧ log st' = [ Print (MsgValidating 2);
                         Print (MsgFileChars (py "a.txt") 60);
                         Print (MsgReadError (py "b.txt")) ]
           ∧ spawned st' = [].
Proof.
  split; [|split].
  - exists (input_path demo_service demo_id ++ [py "a.txt"]). split.
    + vm_compute. left.
    + vm_compute. by eexists.
  - vm_compute. split; repeat constructor.
  - eexists. split; [vm_compute; reflexivity|]. split; reflexivity.
Qed.

(** A build over a short file beside one that does not decode, and a
    build over one readable file of 60 characters. *)
Lemma build_index_volume_witness :
  let low := MoreExamples.short_beside_unreadable in
  let low_files := txt_files demo_service demo_id (fs low) in
  let st := one_short_file in
  let files := txt_files demo_service demo_id (fs st) in
  ((build_index demo_service demo_id false low).1 ≠ Raised
   ∧ (∃ p, p ∈ low_files ∧ ¬ readable (fs low) p)
   ∧ total_chars (fs low) low_files < 50
   ∧ ∃ st', build_index demo_service demo_id false low = (Returned false, st')
            ∧ spawned st' = spawned low)
  ∧ (build_index demo_service demo_id false st).1 ≠ Raised
  ∧ (∀ p, p ∈ files → readable (fs st) p)
  ∧ 50 ≤ total_chars (fs st) files < 200
  ∧ ∃ st2, build_index demo_service demo_id false st
           = build_index_run demo_service demo_id false
               (conv_path demo_service demo_id) st2
           ∧ log st2 = log st ++ validation_log (fs st) files
                       ++ [Print MsgLowVolume].
Proof.
  intros low low_files st files. split.
  { assert ((build_index demo_service demo_id false low).1 ≠ Raised) as L1
      by (vm_compute; discriminate).
    assert (total_chars (fs low) low_files < 50) as L2
      by (vm_compute; repeat constructor).
    split; [exact L1|]. split.
    - exists (input_path demo_service demo_id ++ [py "b.txt"]). split.
      + vm_compute. right. left.
      + vm_compute. by intros [? ?].
    - split; [exact L2|].
      exact (proj1 (build_index_volume demo_service demo_id false low L1)
               L2). }
  assert ((build_index demo_service demo_id false st).1 ≠ Raised) as H1
    by (vm_compute; discriminate).
  assert (∀ p, p ∈ files → readable (fs st) p) as H3.
  { intros p Hin. vm_compute in Hin.
    apply elem_of_cons in Hin as [->|Hin]; [|by apply elem_of_nil in Hin].
    vm_compute. by eexists. }
  assert (50 ≤ total_chars (fs st) files < 200) as H4
    by (vm_compute; split; repeat constructor).
  split; [exact H1|]. split; [exact H3|]. split; [exact H4|].
  destruct (proj2 (build_index_volume demo_service demo_id false st H1)
              H3 H4) as (st2 & Hrun & _ & Hlog).
  by exists st2.
Defined.

End building_witnesses.

(** * The query router *)

Section querying.
Context (self : GraphRAGService) (conversation_id : str).
Implicit Types (st : state) (n : node) (debug : bool) (question method : str).

(** Line 317 to 319: the mode check. *)
Lemma query_from_mode_check question debug st :
  (∀ method,
     (Service.query self conversation_id question method debug st).1 = Raised)
  ∨ ∃ n2, prepared self conversation_id (fs st) n2
          ∧ exists_ (output_path self conversation_id) n2 = true
          ∧ ∀ method,
              Service.query self conversation_id question method debug st
              = bind (if negb (bool_decide (method = py "local")
                               || bool_decide (method = py "global"))
                      then bind (print (MsgInvalidMethod method))
                             (λ _, ret (py "local"))
                      else ret method)
                  (λ method, query_exec self conversation_id question method
                               debug (conv_path self conversation_id))
                  {| fs := n2; log := log st |}.
Proof.
  unfold Service.query.
  destruct (raised_or_not (get_conversation_dir self conversation_id st).1)
    as [Hr|Hr].
  { left. intros method. by apply bind_raised. }
  destruct (get_conversation_dir_returns self conversation_id st Hr)
    as (n1 & E1 & P1 & _).
  destruct (raised_or_not (get_output_dir self conversation_id
                             {| fs := n1; log := log st |}).1)
    as [Hr2|Hr2].
  { left. intros method. rewrite (bind_returned _ _ _ _ _ E1).
    by apply bind_raised. }
  destruct (get_output_dir_returns self conversation_id _ Hr2)
    as (n2 & E2 & P2 & [es Hdir]).
  cbn [log fs] in E2, P2.
  assert (exists_ (output_path self conversation_id) n2 = true) as He
    by (unfold exists_; by rewrite Hdir).
  right. exists n2. split; [by etrans|]. split; [done|]. intros method.
  rewrite (bind_returned _ _ _ _ _ E1), (bind_returned _ _ _ _ _ E2).
  unfold bind at 1. unfold path_exists at 1. cbn [fs]. by rewrite He.
Qed.

(** The run after the mode check appends to the log it is given and does
    not read it. *)
Lemma query_exec_appends question method debug conv_dir n :
  ∃ r n' evs, ∀ log0,
    query_exec self conversation_id question method debug conv_dir
      {| fs := n; log := log0 |}
    = (r, {| fs := n'; log := log0 ++ evs |}).
Proof.
  unfold query_exec.
  destruct (openai_api_key (settings self)) as [|k key].
  { eexists _, _, _. intros log0. unfold bind, print, ret. cbn [fs log].
    reflexivity. }
  unfold bind at 1. unfold print at 1. cbn [fs log].
  unfold bind at 1. unfold create_subprocess_exec at 1. cbn [fs log].
  destruct (run_process _ _ _ n) as [| |rc [out|] [err|] n'].
  1-2,4-6: destruct debug; eexists _, _, _; intros log0;
    unfold query_exception, bind, print, when, ret; cbn [fs log];
    rewrite <-?app_assoc; reflexivity.
  destruct (negb (rc =? 0)%Z).
  { eexists _, _, _; intros log0; unfold bind, print, ret; cbn [fs log];
      rewrite <-?app_assoc; reflexivity. }
  destruct debug, (strip out); eexists _, _, _; intros log0;
    unfold bind, print, when, ret; cbn [fs log];
    rewrite <-?app_assoc; reflexivity.
Qed.

(** With a credential configured the run calls [create_subprocess_exec]
    exactly once. *)
Lemma query_exec_spawns question method debug conv_dir st :
  openai_api_key (settings self) ≠ [] →
  ∃ argv env,
    spawned (query_exec self conversation_id question method debug conv_dir
               st).2
    = spawned st ++ [Exec argv env].
Proof.
  intros Hkey. unfold query_exec.
  destruct (openai_api_key (settings self)) as [|k key]; [done|].
  unfold bind at 1. unfold print at 1. cbn [fs log].
  unfold bind at 1. unfold create_subprocess_exec at 1. cbn [fs log].
  eexists _, _.
  destruct (run_process _ _ _ (fs st)) as [| |rc [out|] [err|] n'].
  1-2,4-6: destruct debug;
    unfold query_exception, bind, print, when, ret, spawned; cbn [fs log snd];
    rewrite !List.filter_app; cbn [List.filter is_exec];
    by rewrite ?app_nil_r.
  destruct (negb (rc =? 0)%Z).
  { unfold bind, print, ret, spawned; cbn [fs log snd].
    rewrite !List.filter_app. cbn [List.filter is_exec].
    by rewrite ?app_nil_r. }
  destruct debug, (strip out);
    unfold bind, print, when, ret, spawned; cbn [fs log snd];
    rewrite !List.filter_app; cbn [List.filter is_exec];
    by rewrite ?app_nil_r.
Qed.

(** C1, on the code.  When the conversation has no output directory at the
    time of the call and a credential is configured, a query that gets past
    the directory helpers does not stop at the test for a missing index: it
    calls [create_subprocess_exec].  The helper has created the directory
    before the test looks for it. *)
Theorem query_absent_output_spawns question method debug st :
  exists_ (output_path self conversation_id) (fs st) = false →
  openai_api_key (settings self) ≠ [] →
  (Service.query self conversation_id question method debug st).1 ≠ Raised →
  ∃ argv env,
    spawned (Service.query self conversation_id question method debug st).2
    = spawned st ++ [Exec argv env].
Proof.
  intros _ Hkey Hnr.
  destruct (query_from_mode_check question debug st)
    as [Hr|(n2 & _ & _ & Hq)]; [by rewrite Hr in Hnr|].
  rewrite (Hq method).
  destruct (negb _).
  - unfold bind at 1. unfold bind at 1. unfold print at 1, ret at 1.
    cbn [fs log].
    destruct (query_exec_spawns question (py "local") debug
                (conv_path self conversation_id)
                {| fs := n2;
                   log := log st ++ [Print (MsgInvalidMethod method)] |}
                Hkey) as (argv & env & ->).
    exists argv, env. f_equal. unfold spawned. cbn [log].
    apply spawned_prints. by repeat constructor.
  - unfold bind at 1. unfold ret at 1.
    destruct (query_exec_spawns question method debug
                (conv_path self conversation_id)
                {| fs := n2; log := log st |} Hkey) as (argv & env & ->).
    by exists argv, env.
Qed.

(** C8.  With a mode other than [local] and [global], a query that gets
    past the directory helpers first prints the invalid-mode warning and
    from there on does what the same call with mode [local] does: same
    result, same file system, same events after the warning. *)
Theorem query_invalid_mode_coerced question method debug st :
  method ≠ py "local" → method ≠ py "global" →
  (Service.query self conversation_id question method debug st).1 ≠ Raised →
  let bad := Service.query self conversation_id question method debug st in
  let good :=
    Service.query self conversation_id question (py "local") debug st in
  bad.1 = good.1
  ∧ fs bad.2 = fs good.2
  ∧ ∃ rest, log good.2 = log st ++ rest
            ∧ log bad.2 = log st ++ Print (MsgInvalidMethod method) :: rest.
Proof.
  intros Hl Hg Hnr bad good.
  destruct (query_from_mode_check question debug st)
    as [Hr|(n2 & _ & _ & Hq)]; [by rewrite Hr in Hnr|].
  destruct (query_exec_appends question (py "local") debug
              (conv_path self conversation_id) n2) as (r & n' & evs & He).
  assert (bad = (r, {| fs := n';
                       log := (log st ++ [Print (MsgInvalidMethod method)])
                              ++ evs |})) as ->.
  { subst bad. rewrite (Hq method).
    rewrite !bool_decide_eq_false_2 by done. cbn [orb negb].
    unfold bind, print, ret. cbn [fs log]. apply He. }
  assert (good = (r, {| fs := n'; log := log st ++ evs |})) as ->.
  { subst good. rewrite (Hq (py "local")).
    rewrite bool_decide_eq_true_2 by done. cbn [orb negb].
    unfold bind, ret. apply He. }
  cbn [fst snd fs log]. split; [done|]. split; [done|].
  exists evs. split; [done|]. by rewrite <-app_assoc.
Qed.

End querying.

Section querying_witnesses.
Import Examples.

(** The mode [hybrid] against [local]. *)
Lemma query_invalid_mode_witness :
  let bad :=
    Service.query demo_service demo_id (py "lease term") (py "hybrid") false
      empty_state in
  let good :=
    Service.query demo_service demo_id (py "lease term") (py "local") false
      empty_state in
  py "hybrid" ≠ py "local" ∧ py "hybrid" ≠ py "global"
  ∧ bad.1 ≠ Raised
  ∧ bad.1 = good.1
  ∧ fs bad.2 = fs good.2
  ∧ ∃ rest, log good.2 = log empty_state ++ rest
            ∧ log bad.2
              = log empty_state
                ++ Print (MsgInvalidMethod (py "hybrid")) :: rest.
Proof.
  intros bad good.
  assert (py "hybrid" ≠ py "local") as H1 by discriminate.
  assert (py "hybrid" ≠ py "global") as H2 by discriminate.
  assert (bad.1 ≠ Raised) as H3 by (vm_compute; discriminate).
  split; [exact H1|]. split; [exact H2|]. split; [exact H3|].
  exact (query_invalid_mode_coerced demo_service demo_id _ _ _ _ H1 H2 H3).
Defined.

(** The conversation has no output directory and a credential is
    configured.  The helper creates the directory, the query process is
    started and the call returns after it; on a host whose binary answers,
    the answer is returned. *)
Lemma query_absent_output_witness :
  let st := no_output_yet in
  let run :=
    Service.query demo_service demo_id (py "lease term") (py "local") false
      st in
  let answered :=
    Service.query answering_service demo_id (py "lease term") (py "local")
      false st in
  exists_ (output_path demo_service demo_id) (fs st) = false
  ∧ openai_api_key (settings demo_service) ≠ []
  ∧ run.1 ≠ Raised
  ∧ (∃ argv env, spawned run.2 = spawned st ++ [Exec argv env])
  ∧ exists_ (output_path demo_service demo_id) (fs run.2) = true
  ∧ run.1 = Returned None
  ∧ log run.2
    = [ Print (MsgQuerying (py "local") (py "lease term") false);
        Exec [ py "graphrag"; py "query";
               py "--config";
               py "/app/graphrag_data/7f9c2ba4/settings.yaml";
               py "--root"; py "/app/graphrag_data/7f9c2ba4";
               py "--method"; py "local";
               py "--query"; py "lease term" ]
             [ (py "GRAPHRAG_API_KEY", py "sk-demo");
               (py "OPENAI_API_KEY", py "sk-demo") ];
        Print (MsgQueryError (py "no index") []) ]
  ∧ answered.1 = Returned (Some (py "Five years.")).
Proof.
  intros st run answered.
  assert (exists_ (output_path demo_service demo_id) (fs st) = false) as H1
    by reflexivity.
  assert (openai_api_key (settings demo_service) ≠ []) as H2 by discriminate.
  assert (run.1 ≠ Raised) as H3 by (vm_compute; discriminate).
  split; [exact H1|]. split; [exact H2|]. split; [exact H3|].
  split; [exact (query_absent_output_spawns demo_service demo_id _ _ _ _
                   H1 H2 H3)|].
  repeat split; vm_compute; reflexivity.
Defined.

End querying_witnesses.

(** * The status reporter and removal *)

Section status.
Context (self : GraphRAGService) (conversation_id : str).
Implicit Types (st : state) (n : node).

Lemma has_index_returns st b st' :
  has_index self conversation_id st = (Returned b, st') →
  ∃ n1, prepared self conversation_id (fs st) n1
        ∧ st' = {| fs := n1; log := log st |}
        ∧ b = (0 <? length (parquet_files self conversation_id n1)).
Proof.
  unfold has_index. intros H.
  apply bind_returned_inv in H as (d & st1 & Hd & H).
  destruct (get_output_dir_returns self conversation_id st)
    as (n1 & E1 & P1 & [es Hdir]); [by eapply returned_not_raised|].
  rewrite E1 in Hd. simplify_eq. exists n1. split; [done|].
  unfold bind, path_exists, glob_paths, ret in H. cbn [fs] in H.
  unfold exists_ in H. rewrite Hdir in H. by simplify_eq.
Qed.

Lemma has_documents_returns st b st' :
  has_documents self conversation_id st = (Returned b, st') →
  ∃ n1, prepared self conversation_id (fs st) n1
        ∧ st' = {| fs := n1; log := log st |}
        ∧ b = (0 <? length (txt_files self conversation_id n1)).
Proof.
  unfold has_documents. intros H.
  apply bind_returned_inv in H as (d & st1 & Hd & H).
  destruct (get_input_dir_returns self conversation_id st)
    as (n1 & E1 & P1 & _); [by eapply returned_not_raised|].
  rewrite E1 in Hd. simplify_eq. exists n1. split; [done|].
  unfold bind, glob_paths, ret in H. cbn [fs] in H. by simplify_eq.
Qed.

(** The loop over the text files counts every one of them and leaves the
    other entries of the dictionary alone. *)
Lemma document_stats_counts files stats st :
  ∃ stats',
    document_stats files stats st = (Returned stats', st)
    ∧ Stats.has_index stats' = Stats.has_index stats
    ∧ Stats.has_documents stats' = Stats.has_documents stats
    ∧ Stats.document_count stats' = Stats.document_count stats + length files
    ∧ Stats.artifact_count stats' = Stats.artifact_count stats.
Proof.
  revert stats. induction files as [|f files IH]; intros stats.
  - exists stats. simpl. by rewrite Nat.add_0_r.
  - simpl document_stats. unfold bind at 1. unfold try_read_text at 1.
    destruct (read_text f (fs st)) as [content|].
    + destruct (IH {|
          Stats.has_index := Stats.has_index stats;
          Stats.has_documents := Stats.has_documents stats;
          Stats.document_count := Stats.document_count stats + 1;
          Stats.total_characters := Stats.total_characters stats
                                    + length content;
          Stats.artifact_count := Stats.artifact_count stats |})
        as (stats' & -> & ? & ? & Hc & ?).
      exists stats'. cbn in *. repeat split; try done. lia.
    + destruct (IH {|
          Stats.has_index := Stats.has_index stats;
          Stats.has_documents := Stats.has_documents stats;
          Stats.document_count := Stats.document_count stats + 1;
          Stats.total_characters := Stats.total_characters stats;
          Stats.artifact_count := Stats.artifact_count stats |})
        as (stats' & -> & ? & ? & Hc & ?).
      exists stats'. cbn in *. repeat split; try done. lia.
Qed.

(** C9.  In the dictionary [get_index_stats] returns, [has_documents] says
    that the document count is positive and [has_index] that the artifact
    count is. *)
Theorem get_index_stats_consistent st stats st' :
  get_index_stats self conversation_id st = (Returned stats, st') →
  Stats.has_documents stats = (0 <? Stats.document_count stats)
  ∧ Stats.has_index stats = (0 <? Stats.artifact_count stats).
Proof.
  unfold get_index_stats. intros H.
  apply bind_returned_inv in H as (hi & st1 & Hhi & H).
  apply has_index_returns in Hhi as (n1 & _ & -> & ->).
  apply bind_returned_inv in H as (hd & st2 & Hhd & H).
  apply has_documents_returns in Hhd as (n2 & P12 & -> & ->).
  cbn [fs log] in H, P12.
  apply bind_returned_inv in H as (d & st3 & Hd & H).
  destruct (get_input_dir_returns self conversation_id
              {| fs := n2; log := log st |})
    as (n3 & E3 & P3 & _); [by eapply returned_not_raised|].
  rewrite E3 in Hd. cbn [fs log] in Hd, P3. simplify_eq.
  unfold bind at 1 in H. unfold glob_paths at 1 in H. cbn [fs] in H.
  fold (txt_files self conversation_id n3) in H.
  apply bind_returned_inv in H as (stats3 & st4 & Hloop & H).
  destruct (document_stats_counts (txt_files self conversation_id n3)
              {| Stats.has_index :=
                   0 <? length (parquet_files self conversation_id n1);
                 Stats.has_documents :=
                   0 <? length (txt_files self conversation_id n2);
                 Stats.document_count := 0;
                 Stats.total_characters := 0;
                 Stats.artifact_count := 0 |}
              {| fs := n3; log := log st |})
    as (stats3' & Hrun & Hi & Hd & Hc & Ha).
  rewrite Hrun in Hloop. simplify_eq. cbn in Hi, Hd, Hc, Ha.
  apply bind_returned_inv in H as (d & st5 & Hout & H).
  destruct (get_output_dir_returns self conversation_id
              {| fs := n3; log := log st |})
    as (n4 & E4 & P4 & [es Hdir]); [by eapply returned_not_raised|].
  rewrite E4 in Hout. cbn [fs log] in Hout, P4. simplify_eq.
  unfold bind, path_exists, glob_paths, ret in H. cbn [fs] in H.
  unfold exists_ in H. rewrite Hdir in H. simplify_eq.
  cbn [Stats.has_documents Stats.has_index Stats.document_count
       Stats.artifact_count].
  change (glob _ (output_path self conversation_id) n4)
    with (parquet_files self conversation_id n4).
  rewrite Hd, Hi, Hc.
  rewrite (prepared_txt_files _ _ _ _ P3).
  assert (prepared self conversation_id n1 n4) as P14
    by (etrans; [done|]; by etrans).
  by rewrite (prepared_parquet_files _ _ _ _ P14).
Qed.

(** The test for an absent workspace never fires: when the host does not
    refuse the removal, a call that gets past the directory helper returns
    [True], whether the workspace existed or not. *)
Lemma delete_conversation_data_always_true st :
  (∀ p n, rmtree_fails (host self) p n = false) →
  (delete_conversation_data self conversation_id st).1 ≠ Raised →
  (delete_conversation_data self conversation_id st).1 = Returned true
  ∧ exists_ (conv_path self conversation_id)
      (fs (delete_conversation_data self conversation_id st).2) = false.
Proof.
  intros Hhost Hnr.
  assert (∃ n', delete_conversation_data self conversation_id st
                = (Returned true,
                   {| fs := n';
                      log := log st ++ [Print (MsgDeleted conversation_id)] |})
                ∧ lookup (conv_path self conversation_id) n' = None)
    as (n' & -> & Hgone).
  { revert Hnr. unfold delete_conversation_data. intros Hnr.
    destruct (bind_not_raised _ _ _ Hnr) as (? & ? & H1).
    destruct (get_conversation_dir_returns self conversation_id st)
      as (n1 & E1 & _ & [es Hdir]); [by rewrite H1|].
    rewrite (bind_returned _ _ _ _ _ E1).
    destruct (rmtree_dir (conv_path self conversation_id) n1 es)
      as (n' & Hrm & Hgone);
      [unfold conv_path; by destruct (base_dir self)|done|].
    exists n'. split; [|done].
    unfold bind, path_exists, catch, shutil_rmtree, print, ret. cbn [fs log].
    unfold exists_. rewrite Hdir, Hhost. cbn [fs log]. by rewrite Hrm. }
  cbn [fst snd fs]. split; [done|]. unfold exists_. by rewrite Hgone.
Qed.

(** C2, on the code.  On a host that does not refuse removals, two calls
    in a row that get past the directory helper both return [True]: the
    first leaves no workspace, and the second creates the directory again
    through the helper, finds it and removes it. *)
Theorem delete_twice_both_true st :
  (∀ p n, rmtree_fails (host self) p n = false) →
  let first := delete_conversation_data self conversation_id st in
  let second := delete_conversation_data self conversation_id first.2 in
  first.1 ≠ Raised → second.1 ≠ Raised →
  first.1 = Returned true
  ∧ exists_ (conv_path self conversation_id) (fs first.2) = false
  ∧ second.1 = Returned true.
Proof.
  intros Hhost first second H1 H2.
  destruct (delete_conversation_data_always_true st Hhost H1) as [E1 Egone].
  destruct (delete_conversation_data_always_true first.2 Hhost H2) as [E2 _].
  by repeat split.
Qed.

End status.

Section status_witnesses.
Import Examples.

(** One document, no artifact. *)
Lemma get_index_stats_witness :
  ∃ stats st',
    get_index_stats demo_service demo_id one_short_file = (Returned stats, st')
    ∧ Stats.document_count stats = 1
    ∧ Stats.has_documents stats = (0 <? Stats.document_count stats)
    ∧ Stats.has_index stats = (0 <? Stats.artifact_count stats).
Proof.
  eexists _, _.
  assert (get_index_stats demo_service demo_id one_short_file
          = (Returned _, _)) as Hrun by (vm_compute; reflexivity).
  split; [exact Hrun|]. split; [reflexivity|].
  exact (get_index_stats_consistent demo_service demo_id _ _ _ Hrun).
Defined.

(** The workspace holds one document.  Both calls return [True]; the
    second one has created the directory again to remove it. *)
Lemma delete_twice_witness :
  let st := one_short_file in
  let first := delete_conversation_data demo_service demo_id st in
  let second := delete_conversation_data demo_service demo_id first.2 in
  (∀ p n, rmtree_fails (host demo_service) p n = false)
  ∧ first.1 ≠ Raised
  ∧ second.1 ≠ Raised
  ∧ exists_ (conv_path demo_service demo_id) (fs st) = true
  ∧ (first.1 = Returned true
     ∧ exists_ (conv_path demo_service demo_id) (fs first.2) = false
     ∧ second.1 = Returned true)
  ∧ log second.2 = [Print (MsgDeleted demo_id); Print (MsgDeleted demo_id)].
Proof.
  intros st first second.
  assert (∀ p n, rmtree_fails (host demo_service) p n = false) as H1
    by reflexivity.
  assert (first.1 ≠ Raised) as H2 by (vm_compute; discriminate).
  assert (second.1 ≠ Raised) as H3 by (vm_compute; discriminate).
  split; [exact H1|]. split; [exact H2|]. split; [exact H3|].
  split; [reflexivity|].
  split; [exact (delete_twice_both_true demo_service demo_id st H1 H2 H3)|].
  vm_compute. reflexivity.
Defined.

End status_witnesses.

(** * The fallback search *)

Section sorting.
Context {A : Type} (key : A → nat).
Implicit Types (x : A) (l : list A).

Lemma insert_desc_perm x l : insert_desc key x l ≡ₚ x :: l.
Proof.
  induction l as [|y l IH]; simpl; [done|].
  destruct (key x <? key y); [|done]. rewrite IH. apply Permutation_swap.
Qed.

Lemma sort_desc_perm l : sort_desc key l ≡ₚ l.
Proof.
  induction l as [|x l IH]; simpl; [done|].
  by rewrite insert_desc_perm, IH.
Qed.

Lemma insert_desc_sorted x l :
  StronglySorted (λ a b, key b ≤ key a) l →
  StronglySorted (λ a b, key b ≤ key a) (insert_desc key x l).
Proof.
  induction 1 as [|y l Hs IH Hy]; simpl.
  - by repeat constructor.
  - destruct (key x <? key y) eqn:E.
    + apply Nat.ltb_lt in E. constructor; [done|].
      rewrite insert_desc_perm. constructor; [lia|done].
    + apply Nat.ltb_ge in E. constructor; [by constructor|].
      constructor; [done|]. eapply Forall_impl; [exact Hy|].
      simpl. intros z Hz. lia.
Qed.

Lemma sort_desc_sorted l :
  StronglySorted (λ a b, key b ≤ key a) (sort_desc key l).
Proof.
  induction l as [|x l IH]; simpl; [constructor|].
  by apply insert_desc_sorted.
Qed.

(** Insertion moves [x] past strictly larger keys only. *)
Lemma insert_desc_ties x l k :
  List.filter (λ a, key a =? k) (insert_desc key x l)
  = List.filter (λ a, key a =? k) (x :: l).
Proof.
  induction l as [|y l IH]; [done|]. simpl insert_desc.
  destruct (key x <? key y) eqn:E; [|done].
  apply Nat.ltb_lt in E. simpl in *. rewrite IH.
  destruct (key x =? k) eqn:Ex, (key y =? k) eqn:Ey; try done.
  apply Nat.eqb_eq in Ex, Ey. lia.
Qed.

Lemma sort_desc_ties l k :
  List.filter (λ a, key a =? k) (sort_desc key l)
  = List.filter (λ a, key a =? k) l.
Proof.
  induction l as [|x l IH]; [done|]. simpl sort_desc.
  rewrite insert_desc_ties. simpl. by rewrite IH.
Qed.

End sorting.

Section searching.
Context (self : GraphRAGService) (conversation_id : str).
Implicit Types (st : state) (n : node) (question : str).

Lemma slice_to_nonneg {A} (m : Z) (l : list A) :
  (0 ≤ m)%Z → slice_to m l = take (Z.to_nat m) l.
Proof. intros H. unfold slice_to. by rewrite (proj2 (Z.leb_le _ _) H). Qed.

Lemma omap_cons {X Y} (f : X → option Y) x l :
  omap f (x :: l)
  = match f x with Some y => y :: omap f l | None => omap f l end.
Proof. done. Qed.

(** The paragraph loop adds, in order, the paragraphs that count. *)
Lemma scan_paragraphs_hits question filename paragraphs relevant :
  scan_paragraphs (word_set question) filename paragraphs relevant
  = relevant ++ omap (paragraph_hit question filename) paragraphs.
Proof.
  unfold scan_paragraphs. revert relevant.
  induction paragraphs as [|p ps IH]; intros relevant.
  - cbn [foldl omap]. by rewrite app_nil_r.
  - cbn [foldl]. rewrite IH, omap_cons.
    fold (score question (strip p)).
    unfold paragraph_hit at 2. cbv zeta.
    destruct (length (strip p) <? 50) eqn:E.
    + apply Nat.ltb_lt in E.
      rewrite (proj2 (Nat.leb_gt _ _)) by lia. done.
    + apply Nat.ltb_ge in E. rewrite (proj2 (Nat.leb_le _ _) E).
      cbn [andb]. destruct (1 <=? score question (strip p)); [|done].
      by rewrite <-app_assoc.
Qed.

Lemma search_hits_cons question d docs :
  search_hits question (d :: docs)
  = document_hits question d ++ search_hits question docs.
Proof. done. Qed.

(** The file loop reads every file, leaves the file system alone and only
    prints. *)
Lemma scan_files_hits question files relevant st :
  ∃ evs,
    scan_files (word_set question) files relevant st
    = (Returned (relevant
                 ++ search_hits question (documents (fs st) files)),
       {| fs := fs st; log := log st ++ evs |})
    ∧ Forall (λ e, is_exec e = false) evs.
Proof.
  revert relevant st. induction files as [|f files IH]; intros relevant st.
  - exists []. split; [|done]. simpl. unfold ret, search_hits. simpl.
    rewrite !app_nil_r. by destruct st.
  - cbn [scan_files]. unfold bind at 1. unfold try_read_text at 1.
    unfold documents. rewrite omap_cons.
    destruct (read_text f (fs st)) as [content|] eqn:Hr;
      cbn [fmap option_fmap option_map].
    + destruct (IH (scan_paragraphs (word_set question) (path_name f)
                      (split (nl ++ nl) content) relevant) st)
        as (evs & -> & Hevs).
      exists evs. split; [|done]. f_equal. f_equal.
      rewrite scan_paragraphs_hits, search_hits_cons.
      by rewrite <-app_assoc.
    + unfold bind at 1. unfold print at 1.
      destruct (IH relevant
                  {| fs := fs st;
                     log := log st
                            ++ [Print (MsgSearchReadError (path_name f))] |})
        as (evs & -> & Hevs).
      exists (Print (MsgSearchReadError (path_name f)) :: evs).
      split; [|by constructor].
      cbn [fs log]. by rewrite <-app_assoc.
Qed.

Lemma documents_prepared n n' files :
  prepared self conversation_id n n' →
  files ⊆ txt_files self conversation_id n →
  documents n' files = documents n files.
Proof.
  intros Hp. unfold documents.
  induction files as [|f files IH]; intros Hsub; [done|].
  rewrite !omap_cons.
  rewrite (prepared_read_text self conversation_id n n'); [|done|].
  - rewrite IH; [done|]. intros p Hin. apply Hsub. by right.
  - apply Hsub. left.
Qed.

Lemma search_hits_no_overlap question docs :
  (∀ d p, d ∈ docs → p ∈ split (nl ++ nl) d.2 →
          score question (strip p) = 0) →
  search_hits question docs = [].
Proof.
  intros H. unfold search_hits.
  induction docs as [|d docs IH]; [done|]. simpl.
  rewrite IH by (intros d' p Hd Hp; apply (H d' p); [by right|done]).
  rewrite app_nil_r. unfold document_hits.
  assert (∀ p, p ∈ split (nl ++ nl) d.2 →
               paragraph_hit question d.1 p = None) as Hnone.
  { intros p Hp. unfold paragraph_hit. rewrite (H d p); [|left|done].
    by rewrite andb_false_r. }
  induction (split (nl ++ nl) d.2) as [|p ps IHp]; [done|]. simpl.
  rewrite (Hnone p) by left. apply IHp. intros p' Hp'. apply Hnone. by right.
Qed.

(** C5, as amended.  For a bound that is not negative, the fallback search
    that gets past the directory helper scores every trimmed paragraph of at
    least 50 characters of every readable text file by the number of
    distinct lower-case words it shares with the query and keeps those of
    positive score, in file and then paragraph order ([hits]).  It returns
    [None] when there are none, so when no paragraph shares a word with the
    query; otherwise it returns the labelled first [max_results] of [hits]
    reordered by decreasing score, equal scores in encounter order. *)
Theorem simple_search_ranks question max_results st :
  (0 ≤ max_results)%Z →
  (simple_search self conversation_id question max_results st).1 ≠ Raised →
  let docs := documents (fs st) (txt_files self conversation_id (fs st)) in
  let hits := search_hits question docs in
  let result :=
    (simple_search self conversation_id question max_results st).1 in
  (hits = [] → result = Returned None)
  ∧ ((∀ d p, d ∈ docs → p ∈ split (nl ++ nl) d.2 →
             score question (strip p) = 0) →
     result = Returned None)
  ∧ (hits ≠ [] →
     ∃ ranked,
       ranked ≡ₚ hits ∧ descending ranked ∧ ties_in_order ranked hits
       ∧ result
         = Returned (Some (render (take (Z.to_nat max_results) ranked)))).
Proof.
  intros Hm Hnr docs hits result.
  assert (result = match hits with
                   | [] => Returned None
                   | _ => Returned (Some (render (slice_to max_results
                            (sort_desc overlap_of hits))))
                   end) as Hres.
  { subst result. revert Hnr. unfold simple_search. intros Hnr.
    destruct (bind_not_raised _ _ _ Hnr) as (? & ? & H1).
    destruct (get_input_dir_returns self conversation_id st)
      as (n1 & E1 & P1 & _); [by rewrite H1|].
    rewrite (bind_returned _ _ _ _ _ E1).
    unfold bind at 1. unfold glob_paths at 1. cbn [fs].
    fold (txt_files self conversation_id n1).
    rewrite (prepared_txt_files _ _ _ _ P1).
    destruct (decide (txt_files self conversation_id (fs st) = []))
      as [Ef|Ef].
    { subst hits docs. by rewrite Ef. }
    rewrite list_case_nonempty by done.
    destruct (scan_files_hits question
                (txt_files self conversation_id (fs st)) []
                {| fs := n1; log := log st |}) as (evs & Hscan & _).
    unfold bind at 1. rewrite Hscan. cbn [fs log app].
    rewrite (documents_prepared (fs st) n1) by done.
    fold docs. fold hits. by destruct hits. }
  assert (hits = [] → result = Returned None) as Hnone
    by (intros Hh; by rewrite Hres, Hh).
  split; [done|]. split.
  - intros Hno. apply Hnone. by apply search_hits_no_overlap.
  - intros Hh. exists (sort_desc overlap_of hits).
    split; [apply sort_desc_perm|]. split; [apply sort_desc_sorted|].
    split; [intros k; apply sort_desc_ties|].
    rewrite Hres, slice_to_nonneg by done. by destruct hits.
Qed.

End searching.

Section searching_witnesses.
Import Examples.

(** Two paragraphs scoring 2 and 1, the best one asked for. *)
Lemma simple_search_ranks_witness :
  let st := two_paragraphs in
  let docs := documents (fs st) (txt_files demo_service demo_id (fs st)) in
  let hits := search_hits (py "lease term") docs in
  let result := (simple_search demo_service demo_id (py "lease term") 1 st).1 in
  (0 ≤ 1)%Z
  ∧ result ≠ Raised
  ∧ map overlap_of hits = [2; 1]
  ∧ ∃ ranked,
      ranked ≡ₚ hits ∧ descending ranked ∧ ties_in_order ranked hits
      ∧ result = Returned (Some (render (take (Z.to_nat 1) ranked))).
Proof.
  intros st docs hits result.
  assert (0 ≤ 1)%Z as H1 by lia.
  assert (result ≠ Raised) as H2 by (vm_compute; discriminate).
  assert (map overlap_of hits = [2; 1]) as H3 by (vm_compute; reflexivity).
  assert (hits ≠ []) as H4 by (intros E; rewrite E in H3; discriminate H3).
  split; [exact H1|]. split; [exact H2|]. split; [exact H3|].
  exact (proj2 (proj2 (simple_search_ranks demo_service demo_id
                         (py "lease term") 1 st H1 H2)) H4).
Defined.

(** C5 as stated fails for a negative bound.  Two paragraphs share a word
    with the query; with [max_results = -1] the slice drops the last hit and
    the answer holds the first one, where the first [max_results] of the
    ranking are none at all. *)
Lemma simple_search_negative_bound :
  let st := two_paragraphs in
  let docs := documents (fs st) (txt_files demo_service demo_id (fs st)) in
  let ranked := sort_desc overlap_of (search_hits (py "lease term") docs) in
  let result :=
    (simple_search demo_service demo_id (py "lease term") (-1) st).1 in
  map overlap_of ranked = [2; 1]
  ∧ result = Returned (Some (render (take 1 ranked)))
  ∧ result ≠ Returned (Some (render (take (Z.to_nat (-1)) ranked))).
Proof.
  split; [vm_compute; reflexivity|].
  split; [vm_compute; reflexivity|]. vm_compute. discriminate.
Qed.

End searching_witnesses.

(** * More on the file system: what an operation leaves alone *)

Section frames.
Implicit Types (p q : path) (n : node).

Lemma keeps_files_refl n : keeps_files n n.
Proof. by intros q t. Qed.

Lemma keeps_files_trans n1 n2 n3 :
  keeps_files n1 n2 → keeps_files n2 n3 → keeps_files n1 n3.
Proof. intros H1 H2 q t. etrans; [apply H2|apply H1]. Qed.

Lemma lookup_file_deeper p c r n t :
  lookup p n = Some (File t) → lookup (p ++ c :: r) n = None.
Proof. intros H. by rewrite lookup_app, H. Qed.

(** [mkdir -p] adds directories and nothing else. *)
Lemma mkdir_p_keeps_files q n n' :
  mkdir_p q n = Some n' → keeps_files n n'.
Proof.
  revert n n'. induction q as [|c q IH]; intros n n'.
  - destruct n; simpl; [done|]. intros [= <-]. apply keeps_files_refl.
  - destruct n as [|es]; simpl; [done|]. intros Hmk p t.
    destruct p as [|a p].
    { assert (∃ es', n' = Dir es') as [es' ->]; [|done].
      destruct (assoc c es); destruct (mkdir_p q _); simplify_eq; by eexists. }
    assert (∀ ch ch', mkdir_p q ch = Some ch' →
              n' = Dir (set_entry c ch' es) →
              (a = c → lookup p ch = Some (File t)
                       ↔ match assoc c es with
                         | Some x => lookup p x
                         | None => None
                         end = Some (File t)) →
              lookup (a :: p) n' = Some (File t)
              ↔ lookup (a :: p) (Dir es) = Some (File t)) as Hstep.
    { intros ch ch' Hch -> Hsame. rewrite !lookup_cons.
      destruct (decide (c = a)) as [->|Hne].
      - rewrite assoc_set_entry_eq, (IH ch ch' Hch p t). by apply Hsame.
      - by rewrite assoc_set_entry_ne. }
    destruct (assoc c es) as [ch|] eqn:E.
    + destruct (mkdir_p q ch) as [ch'|] eqn:E'; [|done].
      injection Hmk as <-. by eapply Hstep.
    + destruct (mkdir_p q (Dir [])) as [ch'|] eqn:E'; [|done].
      injection Hmk as <-. eapply Hstep; [done..|].
      intros _. destruct p as [|b p]; [done|].
      by rewrite lookup_nil_dir.
Qed.

Lemma write_text_through_file p r s n t :
  lookup p n = Some (File t) → r ≠ [] → write_text (p ++ r) s n = None.
Proof.
  revert n. induction p as [|c p IH]; intros n Hl Hr.
  - simpl in Hl. injection Hl as ->. by destruct r.
  - destruct n as [|es]; [done|]. rewrite lookup_cons in Hl.
    destruct (assoc c es) as [ch|] eqn:E; [|done].
    change ((c :: p) ++ r) with (c :: (p ++ r)).
    destruct (p ++ r) as [|c' pr] eqn:Epr.
    { apply app_eq_nil in Epr as [_ ->]. done. }
    rewrite write_text_deeper, E, IH; done.
Qed.

(** Writing [q] changes nothing at a path that is not a prefix of [q]. *)
Lemma write_text_lookup_other q p s n n' :
  write_text q s n = Some n' → (∀ r, q ≠ p ++ r) → lookup p n' = lookup p n.
Proof.
  revert p n n'. induction q as [|c q IH]; intros p n n'.
  - by destruct n.
  - destruct n as [|es]; [done|]. intros Hw Hp.
    destruct p as [|a p]; [by destruct (Hp (c :: q))|].
    destruct q as [|c' q].
    + rewrite write_text_one in Hw.
      assert (n' = Dir (set_entry c (File (Some s)) es) ∧
              ∀ es1, assoc c es ≠ Some (Dir es1)) as [-> Hnd].
      { destruct (assoc c es) as [[]|]; by simplify_eq. }
      rewrite !lookup_cons. destruct (decide (c = a)) as [->|Hne].
      * rewrite assoc_set_entry_eq.
        destruct p as [|b p]; [by destruct (Hp [])|].
        destruct (assoc a es) as [[|es1]|] eqn:Ea; [done| |done].
        by destruct (Hnd es1).
      * by rewrite assoc_set_entry_ne.
    + rewrite write_text_deeper in Hw.
      destruct (assoc c es) as [ch|] eqn:Ec; [|done].
      destruct (write_text (c' :: q) s ch) as [ch'|] eqn:E; [|done].
      injection Hw as <-. rewrite !lookup_cons.
      destruct (decide (c = a)) as [->|Hne].
      * rewrite assoc_set_entry_eq, Ec. apply (IH p ch ch' E).
        intros r Hr. apply (Hp r). by rewrite Hr.
      * by rewrite assoc_set_entry_ne.
Qed.

(** Writing [q] keeps every other regular file as it is. *)
Lemma write_text_keeps_file q p s n n' t :
  write_text q s n = Some n' → lookup p n = Some (File t) → p ≠ q →
  lookup p n' = Some (File t).
Proof.
  intros Hw Hl Hne.
  destruct (decide (p `prefix_of` q)) as [[r ->]|Hno].
  - destruct r as [|c r]; [by rewrite app_nil_r in Hne|].
    by rewrite (write_text_through_file p (c :: r) s n t) in Hw.
  - rewrite (write_text_lookup_other q p s n n' Hw); [done|].
    intros r Hr. apply Hno. by exists r.
Qed.

Lemma assoc_Some_elem k es x : assoc k es = Some x → k ∈ map fst es.
Proof.
  induction es as [|[k' v] es IH]; simpl; [done|].
  destruct (decide (k = k')) as [->|Hne]; [intros _; set_solver|].
  intros H. apply elem_of_cons. right. by apply IH.
Qed.

Lemma lookup_listed d k n x : lookup (d ++ [k]) n = Some x → k ∈ listdir d n.
Proof.
  rewrite lookup_app. unfold listdir.
  destruct (lookup d n) as [[|es]|]; [done| |done].
  rewrite lookup_cons. destruct (assoc k es) as [y|] eqn:E; [|done].
  intros _. by eapply assoc_Some_elem.
Qed.

Lemma assoc_del_entry_ne k k' es :
  k ≠ k' → assoc k' (del_entry k es) = assoc k' es.
Proof.
  intros Hne. induction es as [|[a v] es IH]; [done|].
  unfold del_entry in *. simpl.
  destruct (decide (k = a)) as [->|Hka].
  - rewrite bool_decide_eq_true_2 by done. simpl.
    rewrite IH. by rewrite decide_False by (intros ->; done).
  - rewrite bool_decide_eq_false_2 by done. simpl. rewrite IH. done.
Qed.

(** Removing the tree at [q] changes nothing at a path that is neither above
    nor below [q]. *)
Lemma rmtree_lookup_other q p n n' :
  rmtree q n = Some n' → (∀ r, q ≠ p ++ r) → (∀ r, p ≠ q ++ r) →
  lookup p n' = lookup p n.
Proof.
  revert p n n'. induction q as [|c q IH]; intros p n n'.
  - by destruct n.
  - destruct n as [|es]; [done|]. intros Hrm Hp Hq.
    destruct p as [|a p]; [by destruct (Hp (c :: q))|].
    destruct q as [|c' q].
    + simpl in Hrm.
      destruct (assoc c es) as [[|es1]|] eqn:Ec; [done| |done].
      injection Hrm as <-. rewrite !lookup_cons.
      destruct (decide (c = a)) as [->|Hne]; [by destruct (Hq p)|].
      by rewrite assoc_del_entry_ne.
    + change (rmtree (c :: c' :: q) (Dir es)) with
        (match assoc c es with
         | Some ch => match rmtree (c' :: q) ch with
                      | Some ch' => Some (Dir (set_entry c ch' es))
                      | None => None
                      end
         | None => None
         end) in Hrm.
      destruct (assoc c es) as [ch|] eqn:Ec; [|done].
      destruct (rmtree (c' :: q) ch) as [ch'|] eqn:E; [|done].
      injection Hrm as <-. rewrite !lookup_cons.
      destruct (decide (c = a)) as [->|Hne].
      * rewrite assoc_set_entry_eq, Ec. apply (IH p ch ch' E).
        -- intros r Hr. apply (Hp r). by rewrite Hr.
        -- intros r Hr. apply (Hq r). by rewrite Hr.
      * by rewrite assoc_set_entry_ne.
Qed.

End frames.

(** * More on the directory helpers *)

Section more_helpers.
Context (self : GraphRAGService) (conversation_id : str).
Implicit Types (st : state) (n : node).

Lemma prepared_keeps_files n n' :
  prepared self conversation_id n n' → keeps_files n n'.
Proof.
  induction 1 as [|n1 n2 n3 (q & _ & Hmk) _ IH]; [apply keeps_files_refl|].
  eapply keeps_files_trans; [|exact IH]. by eapply mkdir_p_keeps_files.
Qed.

(** Nothing below another conversation's directory changes. *)
Lemma prepared_other_workspace n n' other r :
  prepared self conversation_id n n' → other ≠ conversation_id →
  lookup (conv_path self other ++ r) n' = lookup (conv_path self other ++ r) n.
Proof.
  intros H Hne. induction H as [|n1 n2 n3 (q & Hq & Hmk) _ IH]; [done|].
  rewrite IH. apply (mkdir_p_lookup_other q); [done|].
  intros r'. unfold workspace_dirs in Hq.
  repeat (apply elem_of_cons in Hq as [->|Hq]); [..|by apply elem_of_nil in Hq];
    unfold input_path, output_path, cache_path, conv_path;
    rewrite <-?app_assoc; intros E; apply app_inv_head in E;
    simpl in E; congruence.
Qed.

Lemma get_conversation_dir_existing st es :
  lookup (conv_path self conversation_id) (fs st) = Some (Dir es) →
  get_conversation_dir self conversation_id st
  = (Returned (conv_path self conversation_id), st).
Proof.
  intros H. unfold get_conversation_dir.
  erewrite bind_returned; [reflexivity|by eapply mkdir_existing].
Qed.

Lemma sub_dir_existing name st es :
  lookup (conv_path self conversation_id ++ [name]) (fs st) = Some (Dir es) →
  bind (get_conversation_dir self conversation_id)
    (λ conv_dir, bind (mkdir (conv_dir ++ [name]))
                   (λ _, ret (conv_dir ++ [name]))) st
  = (Returned (conv_path self conversation_id ++ [name]), st).
Proof.
  intros Hin. destruct (parent_is_dir _ _ _ _ Hin) as [es' Hconv].
  erewrite bind_returned; [|by eapply get_conversation_dir_existing].
  erewrite bind_returned; [reflexivity|by eapply mkdir_existing].
Qed.

(** What every helper does, in one statement. *)
Lemma directory_helper_returns (h : M path) st p st1 :
  h ∈ directory_helpers self conversation_id →
  h st = (Returned p, st1) →
  p ∈ workspace_dirs self conversation_id
  ∧ log st1 = log st
  ∧ prepared self conversation_id (fs st) (fs st1)
  ∧ (∃ es, lookup p (fs st1) = Some (Dir es))
  ∧ h st1 = (Returned p, st1).
Proof.
  intros Hh Hrun. unfold directory_helpers in Hh.
  assert ((h st).1 ≠ Raised) as Hok by by rewrite Hrun.
  repeat (apply elem_of_cons in Hh as [->|Hh]); [..|by apply elem_of_nil in Hh].
  - destruct (get_conversation_dir_returns self conversation_id st Hok)
      as (n' & E & Hprep & es & Hdir).
    rewrite E in Hrun. injection Hrun as <- <-. cbn [fs log].
    split; [unfold workspace_dirs; set_solver|]. split; [done|].
    split; [done|]. split; [by eexists|].
    by eapply get_conversation_dir_existing.
  - destruct (get_input_dir_returns self conversation_id st Hok)
      as (n' & E & Hprep & es & Hdir).
    rewrite E in Hrun. injection Hrun as <- <-. cbn [fs log].
    split; [unfold workspace_dirs; set_solver|]. split; [done|].
    split; [done|]. split; [by eexists|].
    by eapply (sub_dir_existing (py "input")).
  - destruct (get_output_dir_returns self conversation_id st Hok)
      as (n' & E & Hprep & es & Hdir).
    rewrite E in Hrun. injection Hrun as <- <-. cbn [fs log].
    split; [unfold workspace_dirs; set_solver|]. split; [done|].
    split; [done|]. split; [by eexists|].
    by eapply (sub_dir_existing (py "output")).
  - destruct (get_cache_dir_returns self conversation_id st Hok)
      as (n' & E & Hprep & es & Hdir).
    rewrite E in Hrun. injection Hrun as <- <-. cbn [fs log].
    split; [unfold workspace_dirs; set_solver|]. split; [done|].
    split; [done|]. split; [by eexists|].
    by eapply (sub_dir_existing (py "cache")).
Qed.

(** A directory helper that has returned has made its directory, printed
    nothing, and returns the same path again without changing anything:
    calling one twice is calling it once. *)
Theorem directory_helpers_idempotent (h : M path) st p st1 :
  h ∈ directory_helpers self conversation_id →
  h st = (Returned p, st1) →
  (∃ es, lookup p (fs st1) = Some (Dir es))
  ∧ log st1 = log st
  ∧ h st1 = (Returned p, st1).
Proof.
  intros Hh Hrun.
  destruct (directory_helper_returns h st p st1 Hh Hrun)
    as (_ & Hlog & _ & Hdir & Hagain).
  done.
Qed.

(** A directory helper creates directories only: every regular file is
    there afterwards with the content it had, no file appears, and nothing
    changes below the directory of another conversation. *)
Theorem directory_helpers_keep_files (h : M path) st p st1 :
  h ∈ directory_helpers self conversation_id →
  h st = (Returned p, st1) →
  keeps_files (fs st) (fs st1)
  ∧ ∀ other r, other ≠ conversation_id →
      lookup (conv_path self other ++ r) (fs st1)
      = lookup (conv_path self other ++ r) (fs st).
Proof.
  intros Hh Hrun.
  destruct (directory_helper_returns h st p st1 Hh Hrun)
    as (_ & _ & Hprep & _).
  split; [by eapply prepared_keeps_files|].
  intros other r Hne. by apply prepared_other_workspace.
Qed.

End more_helpers.

Section more_helpers_witnesses.
Import Examples MoreExamples.

(** The cache helper on an empty disk, twice. *)
Lemma directory_helpers_idempotent_witness :
  let h := get_cache_dir demo_service demo_id in
  let st1 := (h empty_state).2 in
  h empty_state = (Returned (cache_path demo_service demo_id), st1)
  ∧ (∃ es, lookup (cache_path demo_service demo_id) (fs st1) = Some (Dir es))
  ∧ log st1 = []
  ∧ h st1 = (Returned (cache_path demo_service demo_id), st1).
Proof.
  intros h st1.
  assert (h ∈ directory_helpers demo_service demo_id) as H1
    by (unfold directory_helpers; set_solver).
  assert (h empty_state = (Returned (cache_path demo_service demo_id), st1))
    as H2 by (vm_compute; reflexivity).
  split; [exact H2|].
  exact (directory_helpers_idempotent demo_service demo_id h empty_state
           _ st1 H1 H2).
Defined.

(** The output helper of one conversation beside another conversation's
    document. *)
Lemma directory_helpers_keep_files_witness :
  let h := get_output_dir demo_service demo_id in
  let st := two_workspaces in
  let st1 := (h st).2 in
  h st = (Returned (output_path demo_service demo_id), st1)
  ∧ fs st1 ≠ fs st
  ∧ keeps_files (fs st) (fs st1)
  ∧ ∀ other r, other ≠ demo_id →
      lookup (conv_path demo_service other ++ r) (fs st1)
      = lookup (conv_path demo_service other ++ r) (fs st).
Proof.
  intros h st st1.
  assert (h ∈ directory_helpers demo_service demo_id) as H1
    by (unfold directory_helpers; set_solver).
  assert (h st = (Returned (output_path demo_service demo_id), st1))
    as H2 by (vm_compute; reflexivity).
  split; [exact H2|]. split; [vm_compute; discriminate|].
  exact (directory_helpers_keep_files demo_service demo_id h st _ st1 H1 H2).
Defined.

End more_helpers_witnesses.

(** * More on saving a document *)

Section more_strings.

Lemma endswith_true s p : endswith s p = true → ∃ a, s = a ++ p.
Proof.
  unfold endswith. intros [r Hr]%startswith_true. exists (rev r).
  apply (f_equal (@rev _)) in Hr. by rewrite rev_app_distr, !rev_involutive in Hr.
Qed.

Lemma universal_newlines_id s :
  "013"%char ∉ s → universal_newlines s = s.
Proof.
  induction s as [|c s IH]; intros H; [done|].
  cbn [universal_newlines]. rewrite decide_False by set_solver.
  f_equal. apply IH. set_solver.
Qed.

Lemma strip_elem x s : x ∈ strip s → x ∈ s.
Proof.
  intros H. destruct (strip_infix s) as (pre & suf & E). rewrite E.
  set_solver.
Qed.

Lemma replace_elem old new x s :
  old ≠ [] → x ∈ replace old new s → x ∈ s ∨ x ∈ new.
Proof.
  intros Hold. pattern s. apply (scan_ind old); [done|..]; clear s.
  - rewrite replace_eq, strip_prefix_nil_None by done.
    by intros ?%elem_of_nil.
  - intros rest IH. rewrite replace_eq, strip_prefix_app by done.
    intros [?|[?|?]%IH]%elem_of_app; [by right|left|by right]. set_solver.
  - intros c r Hno IH. rewrite replace_eq, Hno by done.
    intros [->|[?|?]%IH]%elem_of_cons; [left|left|by right]; set_solver.
Qed.

(** The normaliser brings in no carriage return. *)
Lemma format_content_no_cr content :
  "013"%char ∉ content → "013"%char ∉ format_content content.
Proof.
  intros Hc. rewrite format_content_eq. unfold add_paragraph_breaks.
  assert ("013"%char ∉ strip content) as Hs
    by (intros H; by apply Hc, strip_elem).
  assert ("013"%char ∉ nl) as Hnl.
  { unfold nl. intros [E|E]%elem_of_cons; [discriminate E|by apply elem_of_nil in E]. }
  intros [H|H]%elem_of_app; [|done].
  destruct (negb _ && _); [|done].
  apply replace_elem in H as [H|H]; [done| |done].
  change (py "." ++ nl ++ nl) with ("."%char :: nl ++ nl) in H.
  apply elem_of_cons in H as [H|[H|H]%elem_of_app]; [discriminate H|done..].
Qed.

End more_strings.

Section more_saving.
Context (self : GraphRAGService) (conversation_id : str).
Implicit Types (st : state) (n : node).

(** A name without a separator, or one that gets the text extension, is one
    path component. *)
Lemma text_filename_component d filename :
  "/"%char ∉ filename ∨ endswith filename (py ".txt") = false →
  endswith (text_filename filename) (py ".txt") = true
  ∧ PurePath.joinpath d (text_filename filename)
    = d ++ [text_filename filename].
Proof.
  intros H. unfold text_filename.
  destruct (endswith filename (py ".txt")) eqn:E; cbn [negb].
  - split; [done|]. destruct H as [H|H]; [|done].
    apply endswith_true in E as [a ->]. apply joinpath_text_name.
    intros Ha. apply H. set_solver.
  - split; [apply endswith_app|]. apply joinpath_text_name, stem_slash_free.
Qed.

Lemma glob_elem suffix d k n :
  k ∈ listdir d n → endswith k suffix = true → d ++ [k] ∈ glob suffix d n.
Proof.
  intros Hk He. unfold glob. apply list_elem_of_In, in_map_iff. exists k.
  split; [done|]. apply filter_In. split; [by apply list_elem_of_In|done].
Qed.

(** A saved document reads back as the normalised content: the trimmed
    text, with its paragraph breaks, and one final newline.  Text-mode
    reading turns a carriage return into a line feed, so the text read is
    exactly the text written when the content has no carriage return. *)
Theorem save_document_read_back filename content st p st' :
  save_document self conversation_id filename content st = (Returned p, st') →
  read_text p (fs st') = Some (universal_newlines (format_content content))
  ∧ ("013"%char ∉ content →
     read_text p (fs st') = Some (format_content content)).
Proof.
  intros (n1 & _ & _ & _ & Hw)%save_document_returns.
  assert (read_text p (fs st')
          = Some (universal_newlines (format_content content))) as Hr.
  { unfold read_text. by rewrite (write_text_lookup _ _ _ _ Hw). }
  split; [done|]. intros Hcr.
  by rewrite Hr, universal_newlines_id by by apply format_content_no_cr.
Qed.

(** A save under a name that is one path component (a name without a
    separator, or one that gets the text extension, whose stem is one
    component) touches one file: the document in the input directory.
    Every other regular file is there afterwards with the content it had,
    and no other file appears. *)
Theorem save_document_keeps_other_files filename content st p st' :
  "/"%char ∉ filename ∨ endswith filename (py ".txt") = false →
  save_document self conversation_id filename content st = (Returned p, st') →
  p = input_path self conversation_id ++ [text_filename filename]
  ∧ ∀ q t, q ≠ p →
      lookup q (fs st') = Some (File t) ↔ lookup q (fs st) = Some (File t).
Proof.
  intros Hname (n1 & Hprep & _ & Hp & Hw)%save_document_returns.
  destruct (text_filename_component (input_path self conversation_id)
              filename Hname) as [_ Hjoin].
  rewrite Hjoin in Hp. split; [done|]. intros q t Hne.
  rewrite <-(prepared_keeps_files _ _ _ _ Hprep q t).
  split.
  - intros Hl. rewrite <-Hl. symmetry.
    apply (write_text_lookup_other p q _ _ _ Hw).
    intros r ->. destruct r as [|c r]; [by rewrite app_nil_r in Hne|].
    apply write_text_lookup in Hw.
    by rewrite (lookup_file_deeper q c r _ t Hl) in Hw.
  - intros Hl. by eapply write_text_keeps_file.
Qed.

(** Content of at most 200 characters after trimming, or with a blank line
    in it, is written as it is: trimmed, followed by one newline, no
    paragraph break added. *)
Theorem save_document_short_content filename content st p st' :
  length (strip content) ≤ 200
  ∨ contains (nl ++ nl) (strip content) = true →
  save_document self conversation_id filename content st = (Returned p, st') →
  lookup p (fs st') = Some (File (Some (strip content ++ nl))).
Proof.
  intros Hc (n1 & _ & _ & _ & Hw)%save_document_returns.
  rewrite (write_text_lookup _ _ _ _ Hw), format_content_eq.
  unfold add_paragraph_breaks. destruct Hc as [Hc|Hc].
  - apply Nat.ltb_ge in Hc. by rewrite Hc, andb_false_r.
  - by rewrite Hc.
Qed.

(** A document saved under a name without a separator lies directly in the
    input directory of its conversation, under a name that ends in [.txt]:
    it is one of the conversation's text files, [has_documents] answers
    yes, and nothing below the directory of another conversation has
    changed. *)
Theorem save_document_listed filename content st p st' :
  "/"%char ∉ filename →
  save_document self conversation_id filename content st = (Returned p, st') →
  p = input_path self conversation_id ++ [text_filename filename]
  ∧ p ∈ txt_files self conversation_id (fs st')
  ∧ has_documents self conversation_id st' = (Returned true, st')
  ∧ ∀ other r, other ≠ conversation_id →
      lookup (conv_path self other ++ r) (fs st')
      = lookup (conv_path self other ++ r) (fs st).
Proof.
  intros Hname (n1 & Hprep & [es Hdir] & Hp & Hw)%save_document_returns.
  destruct (text_filename_component (input_path self conversation_id)
              filename) as [Hext Hjoin]; [by left|].
  rewrite Hjoin in Hp.
  assert (p ∈ txt_files self conversation_id (fs st')) as Hin.
  { rewrite Hp. apply glob_elem; [|done].
    eapply lookup_listed. rewrite <-Hp. by eapply write_text_lookup. }
  split; [done|]. split; [done|]. split.
  - destruct (write_text_keeps_dir _ _ _ _ _ _ Hw Hdir) as [es' Hdir'].
    unfold has_documents.
    erewrite bind_returned; [|by eapply get_input_dir_existing].
    unfold bind, glob_paths, ret.
    fold (txt_files self conversation_id (fs st')).
    destruct (txt_files self conversation_id (fs st')); [|done].
    by apply elem_of_nil in Hin.
  - intros other r Hne.
    rewrite <-(prepared_other_workspace self conversation_id (fs st) n1
                 other r Hprep Hne).
    apply (write_text_lookup_other p _ _ _ _ Hw).
    intros r'. rewrite Hp. unfold input_path, conv_path.
    rewrite <-!app_assoc. intros E. apply app_inv_head in E.
    simpl in E. congruence.
Qed.

Lemma joinpath_absolute_text_name d x :
  "/"%char ∉ x →
  PurePath.joinpath d (py "/" ++ x ++ py ".txt") = [x ++ py ".txt"].
Proof.
  intros H.
  assert ("/"%char ∉ x ++ py ".txt") as H'.
  { intros [?|Hd]%elem_of_app; [done|].
    repeat (apply elem_of_cons in Hd as [Hd|Hd]; [discriminate Hd|]).
    by apply elem_of_nil in Hd. }
  unfold PurePath.joinpath, PurePath.is_absolute, PurePath.parts.
  assert (startswith (py "/" ++ x ++ py ".txt") (py "/") = true) as ->.
  { apply startswith_true. by eexists. }
  rewrite split_eq, strip_prefix_app by done.
  rewrite split_without_separator by done.
  cbn [List.filter]. unfold PurePath.keep_part.
  rewrite bool_decide_eq_true_2 by done. cbn [negb andb].
  rewrite !bool_decide_eq_false_2; [done|..];
    intros E; apply (f_equal length) in E; rewrite length_app in E;
    simpl in E; lia.
Qed.

(** The name of a document is not confined to the input directory.  A name
    that already ends in [.txt] is joined to the directory as it is, and
    joining an absolute path replaces the directory: the document saved
    under the name [/x.txt] is written at the top of the file system, not
    in the workspace of its conversation. *)
Theorem save_document_absolute_name x content st p st' :
  "/"%char ∉ x →
  save_document self conversation_id (py "/" ++ x ++ py ".txt") content st
  = (Returned p, st') →
  p = [x ++ py ".txt"]
  ∧ lookup p (fs st') = Some (File (Some (format_content content)))
  ∧ ¬ input_path self conversation_id `prefix_of` p.
Proof.
  intros Hx (n1 & _ & _ & Hp & Hw)%save_document_returns.
  assert (text_filename (py "/" ++ x ++ py ".txt")
          = py "/" ++ x ++ py ".txt") as Hname.
  { unfold text_filename. rewrite app_assoc, endswith_app. done. }
  rewrite Hname, joinpath_absolute_text_name in Hp by done.
  split; [done|]. split; [by eapply write_text_lookup|].
  intros [r Hr]. rewrite Hp in Hr. unfold input_path, conv_path in Hr.
  apply (f_equal length) in Hr. rewrite !length_app in Hr. simpl in Hr. lia.
Qed.

End more_saving.

Section more_saving_witnesses.
Import Examples MoreExamples.

(** Sixty characters and a trailing space, saved on an empty disk. *)
Lemma save_document_read_back_witness :
  let content := sixty ++ py " " in
  let run := save_document demo_service demo_id (py "lease.pdf") content
               empty_state in
  let p := input_path demo_service demo_id ++ [py "lease.txt"] in
  run = (Returned p, run.2)
  ∧ ("013"%char ∉ content)
  ∧ read_text p (fs run.2) = Some (sixty ++ nl).
Proof.
  intros content run p.
  assert (run = (Returned p, run.2)) as H1 by (vm_compute; reflexivity).
  assert ("013"%char ∉ content) as H2
    by (apply (bool_decide_unpack _); vm_compute; exact I).
  split; [exact H1|]. split; [exact H2|].
  exact (proj2 (save_document_read_back demo_service demo_id (py "lease.pdf")
                  content empty_state p run.2 H1) H2).
Defined.

(** A second document beside [a.txt]. *)
Lemma save_document_keeps_other_files_witness :
  let st := two_workspaces in
  let run := save_document demo_service demo_id (py "b.md") lease_text st in
  let p := input_path demo_service demo_id ++ [py "b.txt"] in
  let q := input_path demo_service demo_id ++ [py "a.txt"] in
  ("/"%char ∉ py "b.md" ∨ endswith (py "b.md") (py ".txt") = false)
  ∧ run = (Returned p, run.2)
  ∧ q ≠ p
  ∧ (lookup q (fs run.2) = Some (File (Some sixty))
     ↔ lookup q (fs st) = Some (File (Some sixty))).
Proof.
  intros st run p q.
  assert ("/"%char ∉ py "b.md" ∨ endswith (py "b.md") (py ".txt") = false)
    as H0 by (right; vm_compute; reflexivity).
  assert (run = (Returned p, run.2)) as H1 by (vm_compute; reflexivity).
  assert (q ≠ p) as H2 by (vm_compute; discriminate).
  split; [exact H0|]. split; [exact H1|]. split; [exact H2|].
  exact (proj2 (save_document_keeps_other_files demo_service demo_id
                  (py "b.md") lease_text st p run.2 H0 H1)
           q (Some sixty) H2).
Defined.

(** Sixty characters with white space around them. *)
Lemma save_document_short_content_witness :
  let content := py "  " ++ sixty ++ nl ++ nl in
  let run := save_document demo_service demo_id (py "note.txt") content
               empty_state in
  let p := input_path demo_service demo_id ++ [py "note.txt"] in
  (length (strip content) ≤ 200
   ∨ contains (nl ++ nl) (strip content) = true)
  ∧ run = (Returned p, run.2)
  ∧ lookup p (fs run.2) = Some (File (Some (strip content ++ nl))).
Proof.
  intros content run p.
  assert (length (strip content) ≤ 200
          ∨ contains (nl ++ nl) (strip content) = true) as H1
    by (left; vm_compute; lia).
  assert (run = (Returned p, run.2)) as H2 by (vm_compute; reflexivity).
  split; [exact H1|]. split; [exact H2|].
  exact (save_document_short_content demo_service demo_id (py "note.txt")
           content empty_state p run.2 H1 H2).
Defined.

(** The first document of a conversation, beside another conversation. *)
Lemma save_document_listed_witness :
  let st := two_workspaces in
  let run := save_document demo_service (py "c0ffee") (py "will.docx")
               lease_text st in
  let p := input_path demo_service (py "c0ffee") ++ [py "will.txt"] in
  ("/"%char ∉ py "will.docx")
  ∧ run = (Returned p, run.2)
  ∧ p ∈ txt_files demo_service (py "c0ffee") (fs run.2)
  ∧ has_documents demo_service (py "c0ffee") run.2 = (Returned true, run.2).
Proof.
  intros st run p.
  assert ("/"%char ∉ py "will.docx") as H1
    by (apply (bool_decide_unpack _); vm_compute; exact I).
  assert (run = (Returned p, run.2)) as H2 by (vm_compute; reflexivity).
  split; [exact H1|]. split; [exact H2|].
  destruct (save_document_listed demo_service (py "c0ffee") (py "will.docx")
              lease_text st p run.2 H1 H2) as (_ & H3 & H4 & _).
  split; [exact H3|exact H4].
Defined.

(** A name that starts at the root. *)
Lemma save_document_absolute_name_witness :
  let run := save_document demo_service demo_id (py "/motd.txt") sixty
               empty_state in
  ("/"%char ∉ py "motd")
  ∧ run = (Returned [py "motd.txt"], run.2)
  ∧ lookup [py "motd.txt"] (fs run.2) = Some (File (Some (sixty ++ nl)))
  ∧ listdir (input_path demo_service demo_id) (fs run.2) = [].
Proof.
  intros run.
  assert ("/"%char ∉ py "motd") as H1
    by (apply (bool_decide_unpack _); vm_compute; exact I).
  assert (run = (Returned [py "motd.txt"], run.2)) as H2
    by (vm_compute; reflexivity).
  split; [exact H1|]. split; [exact H2|].
  split; [|vm_compute; reflexivity].
  exact (proj1 (proj2 (save_document_absolute_name demo_service demo_id
                         (py "motd") sixty empty_state _ run.2 H1 H2))).
Defined.

End more_saving_witnesses.

(** * Listing and counting the documents *)

Section more_status.
Context (self : GraphRAGService) (conversation_id : str).
Implicit Types (st : state) (n : node).

(** The loop of [list_documents] reads every file in turn and stops with an
    exception at the first one that does not read. *)
Lemma list_documents_loop_run files documents st :
  (Forall (readable (fs st)) files →
   list_documents_loop files documents st
   = (Returned (documents
                ++ map (λ p, (path_name p, chars_of (fs st) p)) files), st))
  ∧ (¬ Forall (readable (fs st)) files →
     (list_documents_loop files documents st).1 = Raised).
Proof.
  revert documents. induction files as [|f files IH]; intros documents.
  - split; [intros _; cbn; by rewrite app_nil_r|]. intros H. by destruct H.
  - cbn [list_documents_loop map]. unfold bind at 1 2.
    unfold read_text_or_raise at 1 2. unfold chars_of at 1.
    destruct (read_text f (fs st)) as [content|] eqn:E.
    + destruct (IH (documents ++ [(path_name f, length content)]))
        as [IH1 IH2].
      cbn [from_option]. split.
      * intros [_ Hall]%Forall_cons. by rewrite (IH1 Hall), <-app_assoc.
      * intros Hnot. apply IH2. intros Hall. apply Hnot, Forall_cons.
        split; [unfold readable; by rewrite E|done].
    + split; [|done]. intros [Hr _]%Forall_cons. unfold readable in Hr.
      rewrite E in Hr. by destruct Hr.
Qed.

Lemma prepared_readable n n' files :
  prepared self conversation_id n n' →
  files ⊆ txt_files self conversation_id n →
  (Forall (readable n') files ↔ Forall (readable n) files)
  ∧ map (λ p, (path_name p, chars_of n' p)) files
    = map (λ p, (path_name p, chars_of n p)) files.
Proof.
  intros Hp Hsub.
  assert (∀ p, p ∈ files → read_text p n' = read_text p n) as Hr.
  { intros p Hin. apply (prepared_read_text self conversation_id); [done|].
    by apply Hsub. }
  split.
  - rewrite !Forall_forall. unfold readable.
    split; intros H p Hin; [rewrite <-Hr|rewrite Hr]; by auto.
  - apply map_ext_in. intros p Hin%list_elem_of_In. unfold chars_of.
    by rewrite Hr.
Qed.

(** [list_documents] answers with one pair per text file of the input
    directory, in listing order: the name of the file and the number of
    characters read from it.  Unlike the statistics, the search and the
    build, it has no handler around the read: one file that does not read
    makes the whole call raise. *)
Theorem list_documents_sizes st :
  (get_input_dir self conversation_id st).1 ≠ Raised →
  let files := txt_files self conversation_id (fs st) in
  (Forall (readable (fs st)) files →
   (list_documents self conversation_id st).1
   = Returned (map (λ p, (path_name p, chars_of (fs st) p)) files))
  ∧ (¬ Forall (readable (fs st)) files →
     (list_documents self conversation_id st).1 = Raised).
Proof.
  intros Hok files.
  destruct (get_input_dir_returns self conversation_id st Hok)
    as (n1 & E1 & P1 & _).
  unfold list_documents. rewrite (bind_returned _ _ _ _ _ E1).
  unfold bind at 1 2. unfold glob_paths at 1 2. cbn [fs].
  fold (txt_files self conversation_id n1).
  rewrite (prepared_txt_files _ _ _ _ P1). fold files.
  destruct (prepared_readable (fs st) n1 files P1) as [Hall Hmap]; [done|].
  destruct (list_documents_loop_run files [] {| fs := n1; log := log st |})
    as [H1 H2].
  cbn [fs] in H1, H2. split.
  - intros H. rewrite H1 by by apply Hall. cbn [fst app]. by rewrite Hmap.
  - intros H. apply H2. intros H'. by apply H, Hall.
Qed.

(** The loop of the statistics counts every file and adds up the characters
    of those that read. *)
Lemma document_stats_totals files stats st :
  ∃ stats',
    document_stats files stats st = (Returned stats', st)
    ∧ Stats.document_count stats' = Stats.document_count stats + length files
    ∧ Stats.total_characters stats'
      = Stats.total_characters stats + total_chars (fs st) files
    ∧ Stats.artifact_count stats' = Stats.artifact_count stats.
Proof.
  revert stats. induction files as [|f files IH]; intros stats.
  - exists stats. cbn. by rewrite !Nat.add_0_r.
  - simpl document_stats. unfold bind at 1. unfold try_read_text at 1.
    unfold total_chars. cbn [map sum_list]. unfold chars_of at 1.
    fold (total_chars (fs st) files).
    destruct (read_text f (fs st)) as [content|].
    + destruct (IH {|
          Stats.has_index := Stats.has_index stats;
          Stats.has_documents := Stats.has_documents stats;
          Stats.document_count := Stats.document_count stats + 1;
          Stats.total_characters := Stats.total_characters stats
                                    + length content;
          Stats.artifact_count := Stats.artifact_count stats |})
        as (stats' & -> & Hc & Ht & ?).
      exists stats'. cbn in *. repeat split; try done; lia.
    + destruct (IH {|
          Stats.has_index := Stats.has_index stats;
          Stats.has_documents := Stats.has_documents stats;
          Stats.document_count := Stats.document_count stats + 1;
          Stats.total_characters := Stats.total_characters stats;
          Stats.artifact_count := Stats.artifact_count stats |})
        as (stats' & -> & Hc & Ht & ?).
      exists stats'. cbn in *. repeat split; try done; lia.
Qed.

(** The numbers of [get_index_stats] are those of the disk it was called
    on: the text files of the input directory, the characters of those that
    read (a file that does not read is counted as a document of no
    characters, it does not make the call fail), and the Parquet files of
    the output directory.  The call prints nothing and changes no file. *)
Theorem get_index_stats_numbers st stats st' :
  get_index_stats self conversation_id st = (Returned stats, st') →
  Stats.document_count stats
  = length (txt_files self conversation_id (fs st))
  ∧ Stats.total_characters stats
    = total_chars (fs st) (txt_files self conversation_id (fs st))
  ∧ Stats.artifact_count stats
    = length (parquet_files self conversation_id (fs st))
  ∧ log st' = log st
  ∧ keeps_files (fs st) (fs st').
Proof.
  unfold get_index_stats. intros H.
  apply bind_returned_inv in H as (hi & st1 & Hhi & H).
  apply has_index_returns in Hhi as (n1 & P1 & -> & ->).
  apply bind_returned_inv in H as (hd & st2 & Hhd & H).
  apply has_documents_returns in Hhd as (n2 & P12 & -> & ->).
  cbn [fs log] in H, P12.
  apply bind_returned_inv in H as (d & st3 & Hd & H).
  destruct (get_input_dir_returns self conversation_id
              {| fs := n2; log := log st |})
    as (n3 & E3 & P3 & _); [by eapply returned_not_raised|].
  rewrite E3 in Hd. cbn [fs log] in Hd, P3. simplify_eq.
  unfold bind at 1 in H. unfold glob_paths at 1 in H. cbn [fs] in H.
  fold (txt_files self conversation_id n3) in H.
  apply bind_returned_inv in H as (stats3 & st4 & Hloop & H).
  destruct (document_stats_totals (txt_files self conversation_id n3)
              {| Stats.has_index :=
                   0 <? length (parquet_files self conversation_id n1);
                 Stats.has_documents :=
                   0 <? length (txt_files self conversation_id n2);
                 Stats.document_count := 0;
                 Stats.total_characters := 0;
                 Stats.artifact_count := 0 |}
              {| fs := n3; log := log st |})
    as (stats3' & Hrun & Hc & Ht & Ha).
  rewrite Hrun in Hloop. simplify_eq. cbn in Hc, Ht, Ha.
  apply bind_returned_inv in H as (d & st5 & Hout & H).
  destruct (get_output_dir_returns self conversation_id
              {| fs := n3; log := log st |})
    as (n4 & E4 & P4 & [es Hdir]); [by eapply returned_not_raised|].
  rewrite E4 in Hout. cbn [fs log] in Hout, P4. simplify_eq.
  unfold bind, path_exists, glob_paths, ret in H. cbn [fs] in H.
  unfold exists_ in H. rewrite Hdir in H. simplify_eq.
  cbn [Stats.document_count Stats.total_characters Stats.artifact_count
       fs log].
  change (glob _ (output_path self conversation_id) n4)
    with (parquet_files self conversation_id n4).
  assert (prepared self conversation_id (fs st) n3) as P03
    by (etrans; [done|]; by etrans).
  assert (prepared self conversation_id (fs st) n4) as P04 by by etrans.
  rewrite Hc, Ht, (prepared_txt_files _ _ _ _ P03).
  rewrite (prepared_parquet_files _ _ _ _ P04).
  destruct (total_chars_prepared self conversation_id (fs st) n3
              (txt_files self conversation_id (fs st)) P03) as [-> _];
    [done|].
  do 4 (split; [done|]). by eapply prepared_keeps_files.
Qed.

End more_status.

Section more_status_witnesses.
Import Examples MoreExamples.

(** Two documents that read. *)
Lemma list_documents_sizes_witness :
  let st := {| fs := workspace [(py "a.txt", File (Some sixty));
                                (py "notes.md", File (Some lease_text));
                                (py "b.txt", File (Some lease_text))];
               log := [] |} in
  (get_input_dir demo_service demo_id st).1 ≠ Raised
  ∧ Forall (readable (fs st)) (txt_files demo_service demo_id (fs st))
  ∧ (list_documents demo_service demo_id st).1
    = Returned [(py "a.txt", 60); (py "b.txt", 372)].
Proof.
  intros st.
  assert ((get_input_dir demo_service demo_id st).1 ≠ Raised) as H1
    by (vm_compute; discriminate).
  assert (Forall (readable (fs st)) (txt_files demo_service demo_id (fs st)))
    as H2.
  { let files := eval vm_compute in (txt_files demo_service demo_id (fs st)) in
    change (txt_files demo_service demo_id (fs st)) with files.
    repeat constructor; by eexists. }
  split; [exact H1|]. split; [exact H2|].
  exact (proj1 (list_documents_sizes demo_service demo_id st H1) H2).
Defined.

(** One readable document of sixty characters beside one that does not
    decode: two documents, sixty characters, no artifact. *)
Lemma get_index_stats_numbers_witness :
  let run := get_index_stats demo_service demo_id unreadable_sibling in
  ∃ stats,
    run = (Returned stats, run.2)
    ∧ Stats.document_count stats = 2
    ∧ Stats.total_characters stats = 60
    ∧ Stats.artifact_count stats = 0
    ∧ log run.2 = []
    ∧ keeps_files (fs unreadable_sibling) (fs run.2).
Proof.
  intros run. eexists.
  assert (run = (Returned _, run.2)) as H by (vm_compute; reflexivity).
  split; [exact H|].
  exact (get_index_stats_numbers demo_service demo_id unreadable_sibling
           _ run.2 H).
Defined.

End more_status_witnesses.

(** * More on building the index *)

Section more_building.
Context (self : GraphRAGService) (conversation_id : str).
Implicit Types (st : state) (n : node) (debug : bool).

Lemma filter_prints l :
  Forall (λ e, is_exec e = false) l → List.filter is_exec l = [].
Proof. induction 1 as [|e l He _ IH]; simpl; [done|]. by rewrite He. Qed.

Lemma mkdir_any p n :
  p ∈ workspace_dirs self conversation_id →
  ∃ r n', prepared self conversation_id n n'
          ∧ (∀ log0, mkdir p {| fs := n; log := log0 |}
                     = (r, {| fs := n'; log := log0 |}))
          ∧ (r = Raised ∨ r = Returned tt ∧ ∃ es, lookup p n' = Some (Dir es)).
Proof.
  intros Hp. unfold mkdir. cbn [fs log].
  destruct (mkdir_p p n) as [n'|] eqn:E.
  - exists (Returned tt), n'. split; [apply rtc_once; by exists p|].
    split; [done|]. right. split; [done|]. by eapply mkdir_p_is_dir.
  - exists Raised, n. split; [done|]. split; [done|]. by left.
Qed.

(** A directory helper, whether it returns or raises: the file system it
    leaves and its outcome do not depend on the log, which it leaves as it
    is. *)
Lemma sub_dir_any name n :
  conv_path self conversation_id ++ [name]
    ∈ workspace_dirs self conversation_id →
  ∃ r n', prepared self conversation_id n n'
          ∧ (∀ log0,
               bind (get_conversation_dir self conversation_id)
                 (λ conv_dir, bind (mkdir (conv_dir ++ [name]))
                                (λ _, ret (conv_dir ++ [name])))
                 {| fs := n; log := log0 |}
               = (r, {| fs := n'; log := log0 |}))
          ∧ (r = Raised
             ∨ r = Returned (conv_path self conversation_id ++ [name])
               ∧ ∃ es, lookup (conv_path self conversation_id ++ [name]) n'
                       = Some (Dir es)).
Proof.
  intros Hin. unfold get_conversation_dir.
  fold (conv_path self conversation_id).
  destruct (mkdir_any (conv_path self conversation_id) n)
    as (r1 & n1 & P1 & E1 & H1);
    [unfold workspace_dirs; apply elem_of_cons; by left|].
  destruct H1 as [->|[-> _]].
  { exists Raised, n1. split; [done|]. split; [|by left].
    intros log0. unfold bind. by rewrite E1. }
  destruct (mkdir_any (conv_path self conversation_id ++ [name]) n1 Hin)
    as (r2 & n2 & P2 & E2 & H2).
  destruct H2 as [->|[-> Hdir]].
  { exists Raised, n2. split; [by etrans|]. split; [|by left].
    intros log0. unfold bind. rewrite E1. unfold ret. by rewrite E2. }
  exists (Returned (conv_path self conversation_id ++ [name])), n2.
  split; [by etrans|]. split; [|by right].
  intros log0. unfold bind. rewrite E1. unfold ret. by rewrite E2.
Qed.

Lemma get_conversation_dir_any n :
  ∃ r n', prepared self conversation_id n n'
          ∧ (∀ log0, get_conversation_dir self conversation_id
                       {| fs := n; log := log0 |}
                     = (r, {| fs := n'; log := log0 |}))
          ∧ (r = Raised
             ∨ r = Returned (conv_path self conversation_id)
               ∧ ∃ es, lookup (conv_path self conversation_id) n'
                       = Some (Dir es)).
Proof.
  unfold get_conversation_dir. fold (conv_path self conversation_id).
  destruct (mkdir_any (conv_path self conversation_id) n)
    as (r1 & n1 & P1 & E1 & H1);
    [unfold workspace_dirs; apply elem_of_cons; by left|].
  destruct H1 as [->|[-> Hdir]].
  - exists Raised, n1. split; [done|]. split; [|by left].
    intros log0. unfold bind. by rewrite E1.
  - exists (Returned (conv_path self conversation_id)), n1.
    split; [done|]. split; [|by right].
    intros log0. unfold bind. by rewrite E1.
Qed.

Lemma get_input_dir_any n :
  ∃ r n', prepared self conversation_id n n'
          ∧ (∀ log0, get_input_dir self conversation_id
                       {| fs := n; log := log0 |}
                     = (r, {| fs := n'; log := log0 |}))
          ∧ (r = Raised
             ∨ r = Returned (input_path self conversation_id)
               ∧ ∃ es, lookup (input_path self conversation_id) n'
                       = Some (Dir es)).
Proof. apply sub_dir_any. unfold workspace_dirs. set_solver. Qed.

Lemma get_output_dir_any n :
  ∃ r n', prepared self conversation_id n n'
          ∧ (∀ log0, get_output_dir self conversation_id
                       {| fs := n; log := log0 |}
                     = (r, {| fs := n'; log := log0 |}))
          ∧ (r = Raised
             ∨ r = Returned (output_path self conversation_id)
               ∧ ∃ es, lookup (output_path self conversation_id) n'
                       = Some (Dir es)).
Proof. apply sub_dir_any. unfold workspace_dirs. set_solver. Qed.

Lemma get_cache_dir_any n :
  ∃ r n', prepared self conversation_id n n'
          ∧ (∀ log0, get_cache_dir self conversation_id
                       {| fs := n; log := log0 |}
                     = (r, {| fs := n'; log := log0 |}))
          ∧ (r = Raised
             ∨ r = Returned (cache_path self conversation_id)
               ∧ ∃ es, lookup (cache_path self conversation_id) n'
                       = Some (Dir es)).
Proof. apply sub_dir_any. unfold workspace_dirs. set_solver. Qed.

Lemma debug_files_loop_prints files n :
  ∀ log0, debug_files_loop files {| fs := n; log := log0 |}
          = (Returned tt,
             {| fs := n; log := log0 ++ map (debug_entry n) files |}).
Proof.
  induction files as [|f files IH]; intros log0.
  - cbn. by rewrite app_nil_r.
  - cbn [debug_files_loop map]. unfold bind at 1. unfold try_read_text at 1.
    cbn [fs log]. unfold bind at 1. unfold debug_entry at 1.
    destruct (read_text f n) as [content|]; unfold print at 1; cbn [fs log];
      by rewrite IH, <-app_assoc.
Qed.

Lemma debug_entry_print n p : is_exec (debug_entry n p) = false.
Proof. unfold debug_entry. by destruct (read_text p n). Qed.

(** With the input directory in place the debug listing only prints: the
    header, then one entry per text file and the footer, or the notice that
    there is no file. *)
Lemma debug_input_files_run n es :
  lookup (input_path self conversation_id) n = Some (Dir es) →
  ∀ log0, debug_input_files self conversation_id {| fs := n; log := log0 |}
          = (Returned tt,
             {| fs := n;
                log := log0 ++ debug_listing self conversation_id n |}).
Proof.
  intros Hdir log0. unfold debug_input_files, debug_listing, txt_files.
  erewrite bind_returned; [|by eapply get_input_dir_existing].
  unfold bind at 1. unfold print at 1. cbn [fs log].
  unfold bind at 1. unfold glob_paths at 1. cbn [fs].
  destruct (glob (py ".txt") (input_path self conversation_id) n)
    as [|f files] eqn:Hg.
  - unfold print. cbn [fs log]. by rewrite <-app_assoc.
  - unfold bind at 1. rewrite debug_files_loop_prints.
    unfold print. cbn [fs log]. by rewrite <-!app_assoc.
Qed.

Lemma debug_listing_prints n :
  Forall (λ e, is_exec e = false) (debug_listing self conversation_id n).
Proof.
  unfold debug_listing. constructor; [done|].
  destruct (txt_files self conversation_id n) as [|f files];
    [by repeat constructor|].
  apply Forall_app. split; [|by repeat constructor].
  apply Forall_forall. intros e (p & -> & _)%list_elem_of_fmap.
  apply debug_entry_print.
Qed.

Lemma debug_input_files_prints debug n es :
  lookup (input_path self conversation_id) n = Some (Dir es) →
  ∃ evs, Forall (λ e, is_exec e = false) evs
         ∧ ∀ log0, when debug (debug_input_files self conversation_id)
                     {| fs := n; log := log0 |}
                   = (Returned tt, {| fs := n; log := log0 ++ evs |}).
Proof.
  intros Hdir. destruct debug; cbn [when].
  2:{ exists []. split; [done|]. intros log0. by rewrite app_nil_r. }
  exists (debug_listing self conversation_id n).
  split; [apply debug_listing_prints|].
  by apply (debug_input_files_run n es).
Qed.

(** The debug listing does not fail on a file.  It prints its header, then
    for every text file of the conversation, in listing order, either the
    figures of the file (its characters, line feeds, blank lines and first
    300 characters) or, when the file does not read, a read error under its
    name; and then the footer.  Without a text file it prints the notice
    that there is none.  The listing starts no process and changes no
    file. *)
Theorem debug_input_files_lists_every_file st :
  (get_input_dir self conversation_id st).1 ≠ Raised →
  ∃ st',
    debug_input_files self conversation_id st = (Returned tt, st')
    ∧ log st' = log st ++ debug_listing self conversation_id (fs st)
    ∧ spawned st' = spawned st
    ∧ keeps_files (fs st) (fs st').
Proof.
  intros Hok.
  destruct (get_input_dir_returns self conversation_id st Hok)
    as (n1 & E1 & P1 & [es Hdir]).
  assert (debug_listing self conversation_id n1
          = debug_listing self conversation_id (fs st)) as Hsame.
  { unfold debug_listing. rewrite (prepared_txt_files _ _ _ _ P1).
    f_equal. destruct (txt_files self conversation_id (fs st)) eqn:Hf; [done|].
    rewrite <-Hf. f_equal. apply map_ext_in. intros p Hp%list_elem_of_In.
    unfold debug_entry.
    by rewrite (prepared_read_text self conversation_id (fs st) n1). }
  exists {| fs := n1;
            log := log st ++ debug_listing self conversation_id (fs st) |}.
  split.
  { rewrite <-Hsame, <-(debug_input_files_run n1 es Hdir).
    unfold debug_input_files.
    rewrite (bind_returned _ _ _ _ _ E1).
    by rewrite (bind_returned _ _ _ _ _
                  (get_input_dir_existing self conversation_id
                     {| fs := n1; log := log st |} es Hdir)). }
  cbn [fs log]. split; [done|]. split.
  - unfold spawned. cbn [log]. apply spawned_prints.
    rewrite <-Hsame. apply debug_listing_prints.
  - by eapply prepared_keeps_files.
Qed.

(** The summary after a zero exit status, under its handler. *)
Lemma report_artifacts_run n :
  ∃ (r : option unit) n' evs,
    prepared self conversation_id n n'
    ∧ Forall (λ e, is_exec e = false) evs
    ∧ ∀ log0,
        catch (report_artifacts self conversation_id)
          {| fs := n; log := log0 |}
        = (Returned r, {| fs := n'; log := log0 ++ evs |}).
Proof.
  destruct (get_output_dir_any n) as (r1 & n1 & P1 & E1 & H1).
  unfold catch, report_artifacts.
  destruct H1 as [->|[-> [es Hdir]]].
  - exists None, n1, [Print MsgIndexDone]. split; [done|].
    split; [by repeat constructor|]. intros log0.
    unfold bind at 1. unfold print at 1. cbn [fs log].
    unfold bind at 1. by rewrite E1.
  - eexists (Some tt), n1, [Print MsgIndexDone; Print (MsgArtifacts _)].
    split; [done|]. split; [by repeat constructor|]. intros log0.
    unfold bind at 1. unfold print at 1. cbn [fs log].
    unfold bind at 1. rewrite E1.
    unfold bind, path_exists, glob_paths, print, exists_. cbn [fs log].
    rewrite Hdir. cbn [fs log]. rewrite <-app_assoc. reflexivity.
Qed.

(** Everything after the volume checks, on a disk with the input
    directory: the outcome, the file system left and the process started
    depend neither on the debug flag nor on the log. *)
Lemma build_index_run_outcome n es :
  lookup (input_path self conversation_id) n = Some (Dir es) →
  ∃ (r : outcome bool) n' spawn,
    (∀ debug, ∃ evs,
        List.filter is_exec evs = spawn
        ∧ ∀ log0,
            build_index_run self conversation_id debug
              (conv_path self conversation_id) {| fs := n; log := log0 |}
            = (r, {| fs := n'; log := log0 ++ evs |}))
    ∧ (spawn = []
       ∨ spawn = [Exec (index_argv self conversation_id)
                    (subprocess_env self)])
    ∧ (openai_api_key (settings self) = [] →
       r = Returned false ∧ n' = n ∧ spawn = [])
    ∧ (r = Returned true →
       openai_api_key (settings self) ≠ []
       ∧ indexed self conversation_id n n'
       ∧ spawn = [Exec (index_argv self conversation_id)
                    (subprocess_env self)]).
Proof.
  intros Hdir. unfold build_index_run, indexed, settings_path, index_argv.
  destruct (openai_api_key (settings self)) as [|k key] eqn:Hkey.
  { exists (Returned false), n, []. split; [|split; [by left|by split]].
    intros debug.
    destruct (debug_input_files_prints debug n es Hdir) as (evs0 & F0 & E0).
    exists (evs0 ++ [Print MsgApiKeyMissing]). split.
    - rewrite List.filter_app, (filter_prints _ F0). done.
    - intros log0. unfold bind at 1. rewrite E0.
      unfold bind, print, ret. cbn [fs log]. by rewrite <-app_assoc. }
  destruct (write_text (conv_path self conversation_id ++ [py "settings.yaml"])
              (_create_settings_yaml self conversation_id) n)
    as [n_cfg|] eqn:Hw.
  2:{ exists Raised, n, []. split; [|split; [by left|by split]].
      intros debug.
      destruct (debug_input_files_prints debug n es Hdir)
        as (evs0 & F0 & E0).
      exists evs0. split; [by apply filter_prints|].
      intros log0. unfold bind at 1. rewrite E0.
      unfold bind at 1. unfold write at 1. cbn [fs log]. by rewrite Hw. }
  assert (∃ evs_url, Forall (λ e, is_exec e = false) evs_url
            ∧ ∀ log0, match openai_base_url (settings self) with
                      | [] => ret tt
                      | c :: url => print (MsgCustomBaseUrl (c :: url))
                      end {| fs := n_cfg; log := log0 |}
                      = (Returned tt,
                         {| fs := n_cfg; log := log0 ++ evs_url |}))
    as (evs_url & Furl & Eurl).
  { destruct (openai_base_url (settings self)) as [|c url].
    - exists []. split; [done|]. intros log0. by rewrite app_nil_r.
    - exists [Print (MsgCustomBaseUrl (c :: url))].
      split; [by repeat constructor|]. done. }
  destruct (run_process (host self)
              [py "graphrag"; py "index"; py "--root";
               path_str (conv_path self conversation_id); py "--verbose"]
              (subprocess_env self) n_cfg)
    as [| |rc [out|] [err|] n1] eqn:Hp.
  1-2: exists (Returned false), n_cfg,
         [Exec (index_argv self conversation_id) (subprocess_env self)].
  4-6: exists (Returned false), n1,
         [Exec (index_argv self conversation_id) (subprocess_env self)].
  1-2,4-6: (split; [|split; [by right|by split]]);
    intros debug;
    destruct (debug_input_files_prints debug n es Hdir) as (evs0 & F0 & E0);
    destruct debug;
    (eexists; split;
     [|intros log0; unfold bind at 1; rewrite E0;
       unfold bind at 1; unfold write at 1; cbn [fs log]; rewrite Hw;
       unfold bind at 1; unfold print at 1; cbn [fs log];
       unfold bind at 1; rewrite Eurl;
       unfold bind at 1; unfold print at 1; cbn [fs log];
       unfold bind at 1; unfold create_subprocess_exec at 1; cbn [fs log];
       rewrite Hp;
       unfold index_exception, bind, print, when, ret; cbn [fs log];
       rewrite <-?app_assoc; reflexivity]);
    rewrite !List.filter_app, (filter_prints _ F0), (filter_prints _ Furl);
    reflexivity.
  destruct (rc =? 0)%Z eqn:Hrc.
  - apply Z.eqb_eq in Hrc as ->.
    destruct (report_artifacts_run n1) as (ra & n2 & evs_r & P & Fr & Er).
    exists (match ra with
            | Some _ => Returned true
            | None => Returned false
            end), n2,
      [Exec (index_argv self conversation_id) (subprocess_env self)].
    split.
    2:{ split; [by right|]. split; [done|]. intros Hr.
        split; [done|]. split; [|done]. by exists n_cfg, out, err, n1. }
    intros debug.
    destruct (debug_input_files_prints debug n es Hdir) as (evs0 & F0 & E0).
    destruct debug, ra as [[]|];
    (eexists; split;
     [|intros log0; unfold bind at 1; rewrite E0;
       unfold bind at 1; unfold write at 1; cbn [fs log]; rewrite Hw;
       unfold bind at 1; unfold print at 1; cbn [fs log];
       unfold bind at 1; rewrite Eurl;
       unfold bind at 1; unfold print at 1; cbn [fs log];
       unfold bind at 1; unfold create_subprocess_exec at 1; cbn [fs log];
       rewrite Hp; cbn [Z.eqb negb];
       unfold bind at 1; rewrite Er;
       unfold index_exception, bind, print, when, ret; cbn [fs log];
       rewrite <-?app_assoc; reflexivity]);
    rewrite !List.filter_app, (filter_prints _ F0), (filter_prints _ Furl),
      ?(filter_prints _ Fr);
    reflexivity.
  - exists (Returned false), n1,
      [Exec (index_argv self conversation_id) (subprocess_env self)].
    split; [|split; [by right|by split]].
    intros debug.
    destruct (debug_input_files_prints debug n es Hdir) as (evs0 & F0 & E0).
    destruct (contains (py "Empty DataFrame") out) eqn:C1,
      (contains (py "create_base_text_units") out) eqn:C2;
    (eexists; split;
     [|intros log0; unfold bind at 1; rewrite E0;
       unfold bind at 1; unfold write at 1; cbn [fs log]; rewrite Hw;
       unfold bind at 1; unfold print at 1; cbn [fs log];
       unfold bind at 1; rewrite Eurl;
       unfold bind at 1; unfold print at 1; cbn [fs log];
       unfold bind at 1; unfold create_subprocess_exec at 1; cbn [fs log];
       rewrite Hp, Hrc, C1, C2; cbn [negb];
       unfold bind, print, when, ret; cbn [fs log];
       rewrite <-?app_assoc; reflexivity]);
    rewrite !List.filter_app, (filter_prints _ F0), (filter_prints _ Furl);
    reflexivity.
Qed.

(** The checks and the run, on a disk with the input directory. *)
Lemma build_index_checks_outcome n es :
  lookup (input_path self conversation_id) n = Some (Dir es) →
  let files := txt_files self conversation_id n in
  ∃ (r : outcome bool) n' spawn,
    (∀ debug, ∃ evs,
        List.filter is_exec evs = spawn
        ∧ ∀ log0,
            build_index_checks self conversation_id debug
              (conv_path self conversation_id)
              (input_path self conversation_id) {| fs := n; log := log0 |}
            = (r, {| fs := n'; log := log0 ++ evs |}))
    ∧ (spawn = []
       ∨ spawn = [Exec (index_argv self conversation_id)
                    (subprocess_env self)])
    ∧ (openai_api_key (settings self) = [] →
       r = Returned false ∧ n' = n ∧ spawn = [])
    ∧ (r = Returned true →
       files ≠ [] ∧ Forall (readable n) files ∧ 50 ≤ total_chars n files
       ∧ openai_api_key (settings self) ≠ []
       ∧ indexed self conversation_id n n'
       ∧ spawn = [Exec (index_argv self conversation_id)
                    (subprocess_env self)]).
Proof.
  intros Hdir files.
  assert (∀ evs, Forall (λ e, is_exec e = false) evs →
            ∃ (r : outcome bool) n' spawn,
              (∀ debug : bool, ∃ evs',
                 List.filter is_exec evs' = spawn
                 ∧ ∀ log0, (Returned false, {| fs := n; log := log0 ++ evs |})
                           = (r, {| fs := n'; log := log0 ++ evs' |}))
              ∧ (spawn = []
                 ∨ spawn = [Exec (index_argv self conversation_id)
                              (subprocess_env self)])
              ∧ (openai_api_key (settings self) = [] →
                 r = Returned false ∧ n' = n ∧ spawn = [])
              ∧ (r = Returned true →
                 files ≠ [] ∧ Forall (readable n) files
                 ∧ 50 ≤ total_chars n files
                 ∧ openai_api_key (settings self) ≠ []
                 ∧ indexed self conversation_id n n'
                 ∧ spawn = [Exec (index_argv self conversation_id)
                              (subprocess_env self)])) as Hstop.
  { intros evs F. exists (Returned false), n, [].
    split; [|split; [by left|by split]].
    intros _. exists evs. split; [by apply filter_prints|done]. }
  assert (files = [] ∨ files ≠ []) as [Hfiles|Hne]
    by (destruct files; [by left|by right]).
  { destruct (Hstop [Print MsgNoDocuments]) as (r & n' & spawn & Hrun & Hf);
      [by repeat constructor|].
    exists r, n', spawn. split; [|done]. intros debug.
    destruct (Hrun debug) as (evs & Hs & E). exists evs. split; [done|].
    intros log0. unfold build_index_checks.
    unfold bind at 1. unfold glob_paths at 1. cbn [fs].
    fold (txt_files self conversation_id n). fold files. rewrite Hfiles.
    unfold bind, print, ret. cbn [fs log]. apply E. }
  destruct (validate_files_any files 0 n) as (rv & evs_v & Fv & Ev & Hv).
  assert (∀ debug log0,
            build_index_checks self conversation_id debug
              (conv_path self conversation_id)
              (input_path self conversation_id) {| fs := n; log := log0 |}
            = match rv with
              | None => ret false
              | Some total_chars =>
                  let* _ := print (MsgTotal total_chars (length files)) in
                  if total_chars <? 50 then
                    let* _ := print MsgInsufficient in
                    ret false
                  else
                    let* _ := when (total_chars <? 200)
                                (print MsgLowVolume) in
                    build_index_run self conversation_id debug
                      (conv_path self conversation_id)
              end {| fs := n;
                     log := log0 ++ Print (MsgValidating (length files))
                                    :: evs_v |}) as Hchecks.
  { intros debug log0. unfold build_index_checks.
    unfold bind at 1. unfold glob_paths at 1. cbn [fs].
    fold (txt_files self conversation_id n). fold files.
    rewrite list_case_nonempty by done.
    unfold bind at 1. unfold print at 1. cbn [fs log].
    unfold bind at 1. rewrite Ev. by rewrite <-app_assoc. }
  destruct Hv as [[-> Hno]|[-> Hall]].
  { destruct (Hstop (Print (MsgValidating (length files)) :: evs_v))
      as (r & n' & spawn & Hrun & Hf); [by constructor|].
    exists r, n', spawn. split; [|done]. intros debug.
    destruct (Hrun debug) as (evs & Hs & E). exists evs. split; [done|].
    intros log0. rewrite Hchecks. apply E. }
  rewrite Nat.add_0_l in Hchecks.
  destruct (total_chars n files <? 50) eqn:H50.
  { destruct (Hstop (Print (MsgValidating (length files))
                     :: evs_v
                     ++ [Print (MsgTotal (total_chars n files)
                                  (length files));
                         Print MsgInsufficient]))
      as (r & n' & spawn & Hrun & Hf).
    { constructor; [done|]. apply Forall_app. by repeat constructor. }
    exists r, n', spawn. split; [|done]. intros debug.
    destruct (Hrun debug) as (evs & Hs & E). exists evs. split; [done|].
    intros log0. rewrite Hchecks, <-E.
    unfold bind, print, ret. cbn [fs log].
    by rewrite <-!app_assoc. }
  apply Nat.ltb_ge in H50 as H50'.
  destruct (build_index_run_outcome n es Hdir)
    as (r & n' & spawn & Hrun & Hsp & Hk & Ht).
  exists r, n', spawn. split.
  2:{ split; [done|]. split; [done|]. intros Hr.
      destruct (Ht Hr) as (? & ? & ?). by repeat split. }
  intros debug. destruct (Hrun debug) as (evs & Hs & E).
  destruct (total_chars n files <? 200) eqn:H200.
  - exists (Print (MsgValidating (length files))
            :: evs_v
            ++ [Print (MsgTotal (total_chars n files) (length files));
                Print MsgLowVolume] ++ evs).
    split.
    { cbn [List.filter is_exec].
      rewrite !List.filter_app, (filter_prints _ Fv). done. }
    intros log0. rewrite Hchecks.
    unfold bind at 1. unfold print at 1. cbn [fs log].
    unfold bind at 1. unfold when, print. cbn [fs log]. rewrite E.
    by rewrite <-!app_assoc.
  - exists (Print (MsgValidating (length files))
            :: evs_v
            ++ [Print (MsgTotal (total_chars n files) (length files))]
            ++ evs).
    split.
    { cbn [List.filter is_exec].
      rewrite !List.filter_app, (filter_prints _ Fv). done. }
    intros log0. rewrite Hchecks.
    unfold bind at 1. unfold print at 1. cbn [fs log].
    unfold bind at 1. unfold when, ret. rewrite E.
    by rewrite <-!app_assoc.
Qed.

(** A whole build, from any disk: the helpers, the checks and the run. *)
Lemma build_index_outcome n :
  let files := txt_files self conversation_id n in
  ∃ (r : outcome bool) n' spawn,
    (∀ debug, ∃ evs,
        List.filter is_exec evs = spawn
        ∧ ∀ log0,
            build_index self conversation_id debug {| fs := n; log := log0 |}
            = (r, {| fs := n'; log := log0 ++ evs |}))
    ∧ (spawn = []
       ∨ spawn = [Exec (index_argv self conversation_id)
                    (subprocess_env self)])
    ∧ (openai_api_key (settings self) = [] →
       (r = Raised ∨ r = Returned false)
       ∧ prepared self conversation_id n n' ∧ spawn = [])
    ∧ (r = Returned true →
       files ≠ [] ∧ Forall (readable n) files ∧ 50 ≤ total_chars n files
       ∧ openai_api_key (settings self) ≠ []
       ∧ (∃ n4, prepared self conversation_id n n4
                ∧ indexed self conversation_id n4 n')
       ∧ spawn = [Exec (index_argv self conversation_id)
                    (subprocess_env self)]).
Proof.
  intros files.
  destruct (get_conversation_dir_any n) as (r1 & n1 & P1 & E1 & H1).
  destruct H1 as [->|[-> _]].
  { exists Raised, n1, []. split.
    - intros debug. exists []. split; [done|]. intros log0.
      unfold build_index. unfold bind at 1. by rewrite E1, app_nil_r.
    - split; [by left|]. split; [|done]. intros _. split; [by left|done]. }
  destruct (get_input_dir_any n1) as (r2 & n2 & P2 & E2 & H2).
  destruct H2 as [->|[-> [es2 Hdir2]]].
  { exists Raised, n2, []. split.
    - intros debug. exists []. split; [done|]. intros log0.
      unfold build_index. unfold bind at 1. rewrite E1.
      unfold bind at 1. by rewrite E2, app_nil_r.
    - split; [by left|]. split; [|done]. intros _.
      split; [by left|]. split; [by etrans|done]. }
  destruct (get_output_dir_any n2) as (r3 & n3 & P3 & E3 & H3).
  destruct H3 as [->|[-> _]].
  { exists Raised, n3, []. split.
    - intros debug. exists []. split; [done|]. intros log0.
      unfold build_index. unfold bind at 1. rewrite E1.
      unfold bind at 1. rewrite E2. unfold bind at 1.
      by rewrite E3, app_nil_r.
    - split; [by left|]. split; [|done]. intros _.
      split; [by left|]. split; [|done]. etrans; [done|]. by etrans. }
  destruct (get_cache_dir_any n3) as (r4 & n4 & P4 & E4 & H4).
  assert (prepared self conversation_id n n4) as P04.
  { etrans; [done|]. etrans; [done|]. by etrans. }
  destruct H4 as [->|[-> _]].
  { exists Raised, n4, []. split.
    - intros debug. exists []. split; [done|]. intros log0.
      unfold build_index. unfold bind at 1. rewrite E1.
      unfold bind at 1. rewrite E2. unfold bind at 1. rewrite E3.
      unfold bind at 1. by rewrite E4, app_nil_r.
    - split; [by left|]. split; [|done]. intros _.
      split; [by left|done]. }
  destruct (prepared_keeps_dir self conversation_id n2 n4
              (input_path self conversation_id) es2) as [es Hdir];
    [by etrans|done|].
  destruct (build_index_checks_outcome n4 es Hdir)
    as (r & n' & spawn & Hrun & Hsp & Hk & Ht).
  exists r, n', spawn. split.
  { intros debug. destruct (Hrun debug) as (evs & Hs & E).
    exists evs. split; [done|]. intros log0.
    unfold build_index. unfold bind at 1. rewrite E1.
    unfold bind at 1. rewrite E2. unfold bind at 1. rewrite E3.
    unfold bind at 1. rewrite E4. apply E. }
  split; [done|]. split.
  - intros Hkey. destruct (Hk Hkey) as (-> & -> & ->).
    split; [by right|done].
  - intros Hr. destruct (Ht Hr) as (Hne & Hall & H50 & Hkey & Hi & Hs).
    rewrite (prepared_txt_files _ _ _ _ P04) in Hne, Hall, H50.
    fold files in Hne, Hall, H50.
    destruct (prepared_readable self conversation_id n n4 files P04)
      as [Hiff _]; [done|].
    destruct (total_chars_prepared self conversation_id n n4 files P04)
      as [Htot _]; [done|].
    rewrite Htot in H50. apply Hiff in Hall.
    do 4 (split; [done|]). split; [by exists n4|done].
Qed.

(** Without a credential, a build that gets past the directory helpers
    returns [False]: it has started no process, written no configuration
    and changed no file. *)
Theorem build_index_without_credential debug st :
  openai_api_key (settings self) = [] →
  let run := build_index self conversation_id debug st in
  run.1 ≠ Raised →
  run.1 = Returned false
  ∧ spawned run.2 = spawned st
  ∧ keeps_files (fs st) (fs run.2).
Proof.
  intros Hkey run Hnr. destruct st as [n log0].
  destruct (build_index_outcome n) as (r & n' & spawn & Hrun & _ & Hk & _).
  destruct (Hk Hkey) as (Hr & Hp & ->).
  destruct (Hrun debug) as (evs & Hs & E).
  subst run. rewrite E in Hnr |- *. cbn [fst snd fs log] in *.
  split; [by destruct Hr|]. split.
  - unfold spawned. cbn [log]. by rewrite List.filter_app, Hs, app_nil_r.
  - by eapply prepared_keeps_files.
Qed.

(** A build returns [True] only if a credential is configured, every text
    file of the conversation reads, they hold at least 50 characters
    together, the configuration was written before the process started,
    and the process gave both its streams and exit status 0.  That process
    is the one call of [create_subprocess_exec] of the build: the index
    command on the conversation's directory, with the credential in its
    environment. *)
Theorem build_index_success debug st st' :
  build_index self conversation_id debug st = (Returned true, st') →
  let files := txt_files self conversation_id (fs st) in
  openai_api_key (settings self) ≠ []
  ∧ files ≠ [] ∧ Forall (readable (fs st)) files
  ∧ 50 ≤ total_chars (fs st) files
  ∧ (∃ n4, prepared self conversation_id (fs st) n4
           ∧ indexed self conversation_id n4 (fs st'))
  ∧ spawned st'
    = spawned st ++ [Exec (index_argv self conversation_id)
                       (subprocess_env self)].
Proof.
  destruct st as [n log0]. intros Hrun' files.
  destruct (build_index_outcome n) as (r & n' & spawn & Hrun & _ & _ & Ht).
  destruct (Hrun debug) as (evs & Hs & E).
  rewrite E in Hrun'. injection Hrun' as -> <-.
  destruct (Ht eq_refl) as (Hne & Hall & H50 & Hkey & Hi & ->).
  cbn [fs]. do 5 (split; [done|]).
  unfold spawned. cbn [log]. by rewrite List.filter_app, Hs.
Qed.

(** A build starts at most one process, whatever happens: there is no
    retry.  The process it starts is the index command on the
    conversation's directory. *)
Theorem build_index_spawns_at_most_once debug st :
  let st' := (build_index self conversation_id debug st).2 in
  spawned st' = spawned st
  ∨ spawned st'
    = spawned st ++ [Exec (index_argv self conversation_id)
                       (subprocess_env self)].
Proof.
  destruct st as [n log0]. intros st'.
  destruct (build_index_outcome n) as (r & n' & spawn & Hrun & Hsp & _).
  destruct (Hrun debug) as (evs & Hs & E).
  subst st'. rewrite E. unfold spawned. cbn [snd log].
  rewrite List.filter_app, Hs.
  destruct Hsp as [->| ->]; [left; by rewrite app_nil_r|by right].
Qed.

(** The debug flag of a build changes what is printed and nothing else:
    the same outcome, the same files, the same process. *)
Theorem build_index_debug_only_prints st :
  let quiet := build_index self conversation_id false st in
  let loud := build_index self conversation_id true st in
  loud.1 = quiet.1
  ∧ fs loud.2 = fs quiet.2
  ∧ spawned loud.2 = spawned quiet.2.
Proof.
  destruct st as [n log0]. intros quiet loud.
  destruct (build_index_outcome n) as (r & n' & spawn & Hrun & _).
  destruct (Hrun true) as (evs1 & Hs1 & E1).
  destruct (Hrun false) as (evs0 & Hs0 & E0).
  subst quiet loud. rewrite E1, E0. cbn [fst snd fs].
  split; [done|]. split; [done|].
  unfold spawned. cbn [log]. by rewrite !List.filter_app, Hs1, Hs0.
Qed.

End more_building.

Section more_building_witnesses.
Import Examples MoreExamples.

(** A long document, no credential. *)
Lemma build_index_without_credential_witness :
  let run := build_index keyless_service demo_id false one_long_file in
  openai_api_key (settings keyless_service) = []
  ∧ run.1 ≠ Raised
  ∧ run.1 = Returned false
  ∧ spawned run.2 = []
  ∧ keeps_files (fs one_long_file) (fs run.2).
Proof.
  intros run.
  assert (openai_api_key (settings keyless_service) = []) as H1
    by reflexivity.
  assert (run.1 ≠ Raised) as H2 by (vm_compute; discriminate).
  split; [exact H1|]. split; [exact H2|].
  exact (build_index_without_credential keyless_service demo_id false
           one_long_file H1 H2).
Defined.

(** A long document and an index process that exits with status 0. *)
Lemma build_index_success_witness :
  let run := build_index indexing_service demo_id false one_long_file in
  let files := txt_files indexing_service demo_id (fs one_long_file) in
  run = (Returned true, run.2)
  ∧ total_chars (fs one_long_file) files = 372
  ∧ 50 ≤ total_chars (fs one_long_file) files
  ∧ spawned run.2
    = [Exec (index_argv indexing_service demo_id)
         (subprocess_env indexing_service)].
Proof.
  intros run files.
  assert (run = (Returned true, run.2)) as H by (vm_compute; reflexivity).
  split; [exact H|]. split; [vm_compute; reflexivity|].
  destruct (build_index_success indexing_service demo_id false one_long_file
              run.2 H) as (_ & _ & _ & H50 & _ & Hs).
  split; [exact H50|exact Hs].
Defined.

(** One document that reads beside one that does not. *)
Lemma debug_input_files_lists_every_file_witness :
  (get_input_dir demo_service demo_id unreadable_sibling).1 ≠ Raised
  ∧ ∃ st',
      debug_input_files demo_service demo_id unreadable_sibling
      = (Returned tt, st')
      ∧ log st'
        = [ Print (MsgDebugHeader demo_id);
            Print (MsgDebugFile (py "a.txt") 60 0 0 sixty false);
            Print (MsgDebugReadError (py "b.txt"));
            Print MsgDebugFooter ]
      ∧ spawned st' = [].
Proof.
  assert ((get_input_dir demo_service demo_id unreadable_sibling).1 ≠ Raised)
    as H by (vm_compute; discriminate).
  split; [exact H|].
  destruct (debug_input_files_lists_every_file demo_service demo_id
              unreadable_sibling H) as (st' & E & Hlog & Hs & _).
  exists st'. split; [exact E|]. split; [exact Hlog|exact Hs].
Defined.

End more_building_witnesses.

(** * More on the query router *)

Section more_querying.
Context (self : GraphRAGService) (conversation_id : str).
Implicit Types (st : state) (n : node) (debug : bool) (question method : str).

Lemma effective_method_valid method :
  effective_method method = py "local"
  ∨ effective_method method = py "global".
Proof.
  unfold effective_method.
  destruct (decide (method = py "local")) as [->|Hl]; [by left|].
  destruct (decide (method = py "global")) as [->|Hg]; [by right|].
  rewrite !bool_decide_eq_false_2 by done. by left.
Qed.

(** The credential check and the query process: the outcome, the file
    system left and the process started depend neither on the debug flag
    nor on the log. *)
Lemma query_exec_outcome question method n :
  ∃ (r : option str) n' spawn,
    (∀ debug, ∃ evs,
        List.filter is_exec evs = spawn
        ∧ ∀ log0,
            query_exec self conversation_id question method debug
              (conv_path self conversation_id) {| fs := n; log := log0 |}
            = (Returned r, {| fs := n'; log := log0 ++ evs |}))
    ∧ (openai_api_key (settings self) = [] →
       r = None ∧ n' = n ∧ spawn = [])
    ∧ (openai_api_key (settings self) ≠ [] →
       spawn = [Exec (query_argv self conversation_id question method)
                  (subprocess_env self)])
    ∧ (∀ a, r = Some a →
       a ≠ [] ∧ trimmed a
       ∧ ∃ out err,
           run_process (host self)
             (query_argv self conversation_id question method)
             (subprocess_env self) n
           = ProcExit 0 (Some out) (Some err) n'
           ∧ a = strip out).
Proof.
  unfold query_exec, query_argv, settings_path.
  destruct (openai_api_key (settings self)) as [|k key] eqn:Hkey.
  { exists None, n, []. split; [|by repeat split].
    intros debug. exists [Print MsgApiKeyMissing]. split; [done|].
    intros log0. unfold bind, print, ret. by cbn [fs log]. }
  destruct (run_process (host self)
              [py "graphrag"; py "query";
               py "--config";
               path_str (conv_path self conversation_id
                         ++ [py "settings.yaml"]);
               py "--root"; path_str (conv_path self conversation_id);
               py "--method"; method; py "--query"; question]
              (subprocess_env self) n)
    as [| |rc [out|] [err|] n1] eqn:Hp.
  1-2: exists None, n, [Exec (query_argv self conversation_id question method)
                          (subprocess_env self)].
  4-6: exists None, n1,
         [Exec (query_argv self conversation_id question method)
            (subprocess_env self)].
  1-2,4-6: (split; [|by repeat split]);
    intros debug; destruct debug;
    (eexists; split;
     [|intros log0; unfold bind at 1; unfold print at 1; cbn [fs log];
       unfold bind at 1; unfold create_subprocess_exec at 1; cbn [fs log];
       rewrite Hp;
       unfold query_exception, bind, print, when, ret; cbn [fs log];
       rewrite <-?app_assoc; reflexivity]);
    reflexivity.
  destruct (rc =? 0)%Z eqn:Hrc.
  2:{ exists None, n1,
        [Exec (query_argv self conversation_id question method)
           (subprocess_env self)].
      split; [|by repeat split]. intros debug.
      eexists; split;
        [|intros log0; unfold bind at 1; unfold print at 1; cbn [fs log];
          unfold bind at 1; unfold create_subprocess_exec at 1;
          cbn [fs log]; rewrite Hp, Hrc; cbn [negb];
          unfold bind, print, ret; cbn [fs log];
          rewrite <-?app_assoc; reflexivity].
      reflexivity. }
  apply Z.eqb_eq in Hrc as ->.
  exists (match strip out with [] => None | _ => Some (strip out) end), n1,
    [Exec (query_argv self conversation_id question method)
       (subprocess_env self)].
  split.
  2:{ split; [done|]. split; [done|]. intros a Ha.
      assert (a = strip out ∧ a ≠ []) as [-> Hne]
        by (destruct (strip out); by simplify_eq).
      split; [done|]. split; [apply strip_trimmed|]. by exists out, err. }
  intros debug. destruct debug, (strip out) as [|c s] eqn:Hs;
    (eexists; split;
     [|intros log0; unfold bind at 1; unfold print at 1; cbn [fs log];
       unfold bind at 1; unfold create_subprocess_exec at 1; cbn [fs log];
       rewrite Hp, ?Hs; cbn [Z.eqb negb];
       unfold bind, print, when, ret; cbn [fs log];
       rewrite <-?app_assoc; reflexivity]);
    reflexivity.
Qed.

(** A whole query, from any disk. *)
Lemma query_outcome question method n :
  ∃ (r : outcome (option str)) n' spawn,
    (∀ debug, ∃ evs,
        List.filter is_exec evs = spawn
        ∧ ∀ log0,
            Service.query self conversation_id question method debug
              {| fs := n; log := log0 |}
            = (r, {| fs := n'; log := log0 ++ evs |}))
    ∧ (openai_api_key (settings self) = [] →
       (r = Raised ∨ r = Returned None)
       ∧ prepared self conversation_id n n' ∧ spawn = [])
    ∧ (openai_api_key (settings self) ≠ [] → r ≠ Raised →
       spawn = [Exec (query_argv self conversation_id question
                        (effective_method method))
                  (subprocess_env self)])
    ∧ (∀ a, r = Returned (Some a) →
       a ≠ [] ∧ trimmed a
       ∧ ∃ n2 out err,
           prepared self conversation_id n n2
           ∧ run_process (host self)
               (query_argv self conversation_id question
                  (effective_method method))
               (subprocess_env self) n2
             = ProcExit 0 (Some out) (Some err) n'
           ∧ a = strip out).
Proof.
  destruct (get_conversation_dir_any self conversation_id n)
    as (r1 & n1 & P1 & E1 & H1).
  destruct H1 as [->|[-> _]].
  { exists Raised, n1, []. split.
    - intros debug. exists []. split; [done|]. intros log0.
      unfold Service.query. unfold bind at 1. by rewrite E1, app_nil_r.
    - split; [intros _; split; [by left|done]|]. by split. }
  destruct (get_output_dir_any self conversation_id n1)
    as (r2 & n2 & P2 & E2 & H2).
  assert (prepared self conversation_id n n2) as P02 by by etrans.
  destruct H2 as [->|[-> [es Hdir]]].
  { exists Raised, n2, []. split.
    - intros debug. exists []. split; [done|]. intros log0.
      unfold Service.query. unfold bind at 1. rewrite E1.
      unfold bind at 1. by rewrite E2, app_nil_r.
    - split; [intros _; split; [by left|done]|]. by split. }
  destruct (query_exec_outcome question (effective_method method) n2)
    as (r & n' & spawn & Hrun & Hk & Hs & Ha).
  exists (Returned r), n', spawn. split.
  { intros debug. destruct (Hrun debug) as (evs & Hf & E).
    unfold effective_method in E.
    destruct (bool_decide (method = py "local")
              || bool_decide (method = py "global")) eqn:Hm.
    - exists evs. split; [done|]. intros log0.
      unfold Service.query. unfold bind at 1. rewrite E1.
      unfold bind at 1. rewrite E2.
      unfold bind at 1. unfold path_exists at 1. cbn [fs].
      unfold exists_. rewrite Hdir. cbn [negb]. rewrite Hm. cbn [negb].
      unfold bind at 1. unfold ret at 1. apply E.
    - exists (Print (MsgInvalidMethod method) :: evs). split; [done|].
      intros log0.
      unfold Service.query. unfold bind at 1. rewrite E1.
      unfold bind at 1. rewrite E2.
      unfold bind at 1. unfold path_exists at 1. cbn [fs].
      unfold exists_. rewrite Hdir. cbn [negb]. rewrite Hm. cbn [negb].
      unfold bind at 1. unfold bind at 1. unfold print at 1, ret at 1.
      cbn [fs log]. rewrite E. by rewrite <-app_assoc. }
  split.
  { intros Hkey. destruct (Hk Hkey) as (-> & -> & ->).
    split; [by right|done]. }
  split; [intros Hkey _; by apply Hs|].
  intros a [= ->]. destruct (Ha a eq_refl) as (Hne & Htr & out & err & Hp & ->).
  split; [done|]. split; [done|]. by exists n2, out, err.
Qed.

(** Without a credential, a query that gets past the directory helpers
    returns [None]: it has started no process and changed no file. *)
Theorem query_without_credential question method debug st :
  openai_api_key (settings self) = [] →
  let run := Service.query self conversation_id question method debug st in
  run.1 ≠ Raised →
  run.1 = Returned None
  ∧ spawned run.2 = spawned st
  ∧ keeps_files (fs st) (fs run.2).
Proof.
  intros Hkey run Hnr. destruct st as [n log0].
  destruct (query_outcome question method n)
    as (r & n' & spawn & Hrun & Hk & _).
  destruct (Hk Hkey) as (Hr & Hp & ->).
  destruct (Hrun debug) as (evs & Hs & E).
  subst run. rewrite E in Hnr |- *. cbn [fst snd fs log] in *.
  split; [by destruct Hr|]. split.
  - unfold spawned. cbn [log]. by rewrite List.filter_app, Hs, app_nil_r.
  - by eapply prepared_keeps_files.
Qed.

(** An answer of [query] is never empty and never has white space at
    either end: it is the trimmed standard output of a query process that
    gave both its streams and exit status 0.  Every other run of the
    process gives [None]. *)
Theorem query_answer question method debug st a st' :
  Service.query self conversation_id question method debug st
  = (Returned (Some a), st') →
  a ≠ [] ∧ trimmed a
  ∧ ∃ n2 out err,
      prepared self conversation_id (fs st) n2
      ∧ run_process (host self)
          (query_argv self conversation_id question (effective_method method))
          (subprocess_env self) n2
        = ProcExit 0 (Some out) (Some err) (fs st')
      ∧ a = strip out.
Proof.
  destruct st as [n log0]. intros Hq.
  destruct (query_outcome question method n)
    as (r & n' & spawn & Hrun & _ & _ & Ha).
  destruct (Hrun debug) as (evs & Hs & E).
  rewrite E in Hq. injection Hq as -> <-. cbn [fs]. by apply Ha.
Qed.

(** With a credential, a query that gets past the directory helpers makes
    exactly one call of [create_subprocess_exec], whether or not the call
    finds the binary and starts a process.  The command line it hands over
    carries the question as it was given, in one argument, and a mode that
    is [local] or [global]: the mode of the call when it is one of the two,
    [local] otherwise. *)
Theorem query_command_line question method debug st :
  openai_api_key (settings self) ≠ [] →
  let run := Service.query self conversation_id question method debug st in
  run.1 ≠ Raised →
  spawned run.2
  = spawned st
    ++ [Exec (query_argv self conversation_id question
                (effective_method method))
          (subprocess_env self)]
  ∧ (effective_method method = py "local"
     ∨ effective_method method = py "global")
  ∧ (method = py "local" ∨ method = py "global" →
     effective_method method = method).
Proof.
  intros Hkey run Hnr. destruct st as [n log0].
  destruct (query_outcome question method n)
    as (r & n' & spawn & Hrun & _ & Hs & _).
  destruct (Hrun debug) as (evs & Hf & E).
  subst run. rewrite E in Hnr |- *. cbn [fst snd] in *.
  rewrite <-(Hs Hkey Hnr). split.
  - unfold spawned. cbn [log]. by rewrite List.filter_app, Hf.
  - split; [apply effective_method_valid|].
    unfold effective_method. intros [-> | ->]; [done|].
    by rewrite orb_true_r.
Qed.

(** The debug flag of a query changes what is printed and nothing else:
    the same answer, the same files, the same process. *)
Theorem query_debug_only_prints question method st :
  let quiet := Service.query self conversation_id question method false st in
  let loud := Service.query self conversation_id question method true st in
  loud.1 = quiet.1
  ∧ fs loud.2 = fs quiet.2
  ∧ spawned loud.2 = spawned quiet.2.
Proof.
  destruct st as [n log0]. intros quiet loud.
  destruct (query_outcome question method n) as (r & n' & spawn & Hrun & _).
  destruct (Hrun true) as (evs1 & Hs1 & E1).
  destruct (Hrun false) as (evs0 & Hs0 & E0).
  subst quiet loud. rewrite E1, E0. cbn [fst snd fs].
  split; [done|]. split; [done|].
  unfold spawned. cbn [log]. by rewrite !List.filter_app, Hs1, Hs0.
Qed.

End more_querying.

Section more_querying_witnesses.
Import Examples MoreExamples.

(** A query on an empty disk, no credential. *)
Lemma query_without_credential_witness :
  let run := Service.query keyless_service demo_id (py "What is the term?")
               (py "local") false empty_state in
  openai_api_key (settings keyless_service) = []
  ∧ run.1 ≠ Raised
  ∧ run.1 = Returned None
  ∧ spawned run.2 = []
  ∧ keeps_files (fs empty_state) (fs run.2).
Proof.
  intros run.
  assert (openai_api_key (settings keyless_service) = []) as H1
    by reflexivity.
  assert (run.1 ≠ Raised) as H2 by (vm_compute; discriminate).
  split; [exact H1|]. split; [exact H2|].
  exact (query_without_credential keyless_service demo_id
           (py "What is the term?") (py "local") false empty_state H1 H2).
Defined.

(** A query process that prints an answer. *)
Lemma query_answer_witness :
  let run := Service.query answering_service demo_id
               (py "What is the term?") (py "global") false empty_state in
  run = (Returned (Some (py "Five years.")), run.2)
  ∧ py "Five years." ≠ [] ∧ trimmed (py "Five years.").
Proof.
  intros run.
  assert (run = (Returned (Some (py "Five years.")), run.2)) as H
    by (vm_compute; reflexivity).
  split; [exact H|].
  destruct (query_answer answering_service demo_id (py "What is the term?")
              (py "global") false empty_state _ run.2 H) as (H1 & H2 & _).
  split; [exact H1|exact H2].
Defined.

(** A mode that is neither [local] nor [global]. *)
Lemma query_command_line_witness :
  let run := Service.query demo_service demo_id (py "What is the term?")
               (py "drift") false empty_state in
  openai_api_key (settings demo_service) ≠ []
  ∧ run.1 ≠ Raised
  ∧ spawned run.2
    = [Exec [py "graphrag"; py "query";
             py "--config";
             py "/app/graphrag_data/7f9c2ba4/settings.yaml";
             py "--root"; py "/app/graphrag_data/7f9c2ba4";
             py "--method"; py "local";
             py "--query"; py "What is the term?"]
         (subprocess_env demo_service)].
Proof.
  intros run.
  assert (openai_api_key (settings demo_service) ≠ []) as H1
    by (vm_compute; discriminate).
  assert (run.1 ≠ Raised) as H2 by (vm_compute; discriminate).
  split; [exact H1|]. split; [exact H2|].
  exact (proj1 (query_command_line demo_service demo_id
                  (py "What is the term?") (py "drift") false empty_state
                  H1 H2)).
Defined.

End more_querying_witnesses.

(** * More on the fallback search *)

Section more_searching.
Context (self : GraphRAGService) (conversation_id : str).
Implicit Types (st : state) (n : node) (question : str) (h : hit).

(** What a search that gets past the directory helper does, in one
    statement. *)
Lemma simple_search_run question max_results st :
  (simple_search self conversation_id question max_results st).1 ≠ Raised →
  let hits :=
    search_hits question
      (documents (fs st) (txt_files self conversation_id (fs st))) in
  ∃ n1 evs,
    prepared self conversation_id (fs st) n1
    ∧ Forall (λ e, is_exec e = false) evs
    ∧ simple_search self conversation_id question max_results st
      = (match hits with
         | [] => Returned None
         | _ => Returned (Some (render (slice_to max_results
                                         (sort_desc overlap_of hits))))
         end,
         {| fs := n1; log := log st ++ evs |}).
Proof.
  intros Hnr hits. revert Hnr. unfold simple_search. intros Hnr.
  destruct (bind_not_raised _ _ _ Hnr) as (? & ? & H1).
  destruct (get_input_dir_returns self conversation_id st)
    as (n1 & E1 & P1 & _); [by rewrite H1|].
  rewrite (bind_returned _ _ _ _ _ E1).
  unfold bind at 1. unfold glob_paths at 1. cbn [fs].
  fold (txt_files self conversation_id n1).
  rewrite (prepared_txt_files _ _ _ _ P1).
  destruct (decide (txt_files self conversation_id (fs st) = []))
    as [Ef|Ef].
  { exists n1, []. split; [done|]. split; [done|].
    subst hits. rewrite Ef. unfold ret. by rewrite app_nil_r. }
  rewrite list_case_nonempty by done.
  destruct (scan_files_hits question
              (txt_files self conversation_id (fs st)) []
              {| fs := n1; log := log st |}) as (evs & Hscan & Hevs).
  unfold bind at 1. rewrite Hscan. cbn [fs log app].
  rewrite (documents_prepared self conversation_id (fs st) n1) by done.
  fold hits. destruct hits as [|h hits'].
  - exists n1, evs. by repeat split.
  - exists n1, (evs ++ [Print (MsgSearchFound
                           (length (map label_chunk
                              (slice_to max_results
                                 (sort_desc overlap_of (h :: hits'))))))]).
    split; [done|]. split; [apply Forall_app; by repeat constructor|].
    unfold bind, print, ret. cbn [fs log]. by rewrite <-app_assoc.
Qed.

Lemma documents_elem n files d :
  d ∈ documents n files →
  ∃ p, p ∈ files ∧ d.1 = path_name p ∧ read_text p n = Some d.2.
Proof.
  unfold documents. intros (p & Hp & Hd)%list_elem_of_omap.
  exists p. split; [done|].
  destruct (read_text p n) as [content|]; [|done].
  cbn in Hd. by simplify_eq.
Qed.

(** Every hit scores at least 1 and at most the number of distinct words
    of the query, holds at most 800 characters, and carries the name of the
    document it comes from. *)
Lemma search_hits_elem question docs h :
  h ∈ search_hits question docs →
  1 ≤ overlap_of h ≤ size (word_set question)
  ∧ length h.1.2 ≤ 800
  ∧ ∃ d, d ∈ docs ∧ h.2 = d.1.
Proof.
  unfold search_hits. intros Hin%list_elem_of_In.
  apply in_concat in Hin as (l & Hl & Hh).
  apply in_map_iff in Hl as (d & <- & Hd).
  apply list_elem_of_In in Hh, Hd. unfold document_hits in Hh.
  apply list_elem_of_omap in Hh as (p & _ & Hp).
  unfold paragraph_hit in Hp. cbv zeta in Hp.
  destruct (50 <=? length (strip p)); [|done].
  destruct (1 <=? score question (strip p)) eqn:Hs; [|done].
  cbn [andb] in Hp. injection Hp as <-. apply Nat.leb_le in Hs.
  unfold overlap_of. cbn [fst snd]. split; [split; [done|]|].
  - unfold score. apply subseteq_size, intersection_subseteq_r.
  - split; [|by exists d]. rewrite slice_to_nonneg by lia.
    rewrite length_take. lia.
Qed.

(** The fallback search only reads: it starts no process, changes no file,
    and leaves everything below the directory of another conversation as it
    is. *)
Theorem simple_search_read_only question max_results st :
  let run := simple_search self conversation_id question max_results st in
  run.1 ≠ Raised →
  spawned run.2 = spawned st
  ∧ keeps_files (fs st) (fs run.2)
  ∧ ∀ other r, other ≠ conversation_id →
      lookup (conv_path self other ++ r) (fs run.2)
      = lookup (conv_path self other ++ r) (fs st).
Proof.
  intros run Hnr.
  destruct (simple_search_run question max_results st Hnr)
    as (n1 & evs & P & F & E).
  subst run. rewrite E. cbn [snd fs log]. split.
  - unfold spawned. cbn [log]. by apply spawned_prints.
  - split; [by eapply prepared_keeps_files|].
    intros other r Hne.
    by apply (prepared_other_workspace self conversation_id).
Qed.

(** The size of an answer is bounded.  With a bound that is not negative,
    an answer is made of at most [max_results] chunks, each of at most 800
    characters of one paragraph, under the name of a text file of the
    conversation; each chunk shares at least one word with the query and at
    most as many as the query has distinct words.  A positive bound gives
    at least one chunk; the bound 0 gives the empty text, not [None]. *)
Theorem simple_search_bounds question max_results st text :
  (0 ≤ max_results)%Z →
  (simple_search self conversation_id question max_results st).1
  = Returned (Some text) →
  ∃ chosen,
    text = render chosen
    ∧ length chosen ≤ Z.to_nat max_results
    ∧ Forall (λ h, 1 ≤ overlap_of h ≤ size (word_set question)
                   ∧ length h.1.2 ≤ 800
                   ∧ h.2 ∈ map path_name
                             (txt_files self conversation_id (fs st)))
        chosen
    ∧ ((0 < max_results)%Z → chosen ≠ [])
    ∧ (max_results = 0%Z → text = []).
Proof.
  intros Hm Hres.
  destruct (simple_search_run question max_results st)
    as (n1 & evs & _ & _ & E); [by rewrite Hres|].
  rewrite E in Hres. cbn [fst] in Hres.
  set (hits := search_hits question
                 (documents (fs st) (txt_files self conversation_id (fs st))))
    in *.
  assert (hits ≠ [] ∧ text = render (slice_to max_results
                                       (sort_desc overlap_of hits)))
    as [Hne ->] by (destruct hits; by simplify_eq).
  rewrite slice_to_nonneg by done.
  exists (take (Z.to_nat max_results) (sort_desc overlap_of hits)).
  split; [done|]. split; [rewrite length_take; lia|]. split.
  { apply Forall_take. rewrite sort_desc_perm. apply Forall_forall.
    intros h Hh. apply search_hits_elem in Hh as (Hs & Hl & d & Hd & Hn).
    split; [done|]. split; [done|].
    apply documents_elem in Hd as (p & Hp & Hname & _).
    rewrite Hn, Hname. apply list_elem_of_In, in_map.
    by apply list_elem_of_In. }
  split.
  - intros Hpos Htake.
    assert (sort_desc overlap_of hits ≠ []) as Hs.
    { intros Hnil. apply Hne. apply Permutation_nil_r.
      by rewrite <-Hnil, sort_desc_perm. }
    destruct (sort_desc overlap_of hits) as [|h l]; [done|].
    destruct (Z.to_nat max_results) as [|k] eqn:Hk; [lia|done].
  - by intros ->.
Qed.

Lemma lower_keeps_space c : is_space (lower_char c) = is_space c.
Proof.
  destruct c as [b0 b1 b2 b3 b4 b5 b6 b7].
  destruct b0, b1, b2, b3, b4, b5, b6, b7; reflexivity.
Qed.

Lemma split_ws_blank s :
  Forall (λ c, is_space c = true) s → split_ws s = [].
Proof.
  unfold split_ws. induction 1 as [|c s Hc _ IH]; [done|].
  cbn [split_ws_aux]. by rewrite Hc.
Qed.

Lemma word_set_blank s :
  Forall (λ c, is_space c = true) s → word_set s = ∅.
Proof.
  intros H. unfold word_set. rewrite split_ws_blank; [done|].
  unfold lower. apply Forall_map. eapply Forall_impl; [exact H|].
  intros c Hc. cbn. by rewrite lower_keeps_space.
Qed.

(** A query without a word, empty or made of white space, finds nothing:
    the search returns [None] whatever the documents hold. *)
Theorem simple_search_blank_query question max_results st :
  Forall (λ c, is_space c = true) question →
  (simple_search self conversation_id question max_results st).1 ≠ Raised →
  (simple_search self conversation_id question max_results st).1
  = Returned None.
Proof.
  intros Hq Hnr.
  destruct (simple_search_run question max_results st Hnr)
    as (n1 & evs & _ & _ & ->).
  rewrite search_hits_no_overlap; [done|].
  intros d p _ _. unfold score. rewrite (word_set_blank question Hq).
  assert (word_set (strip p) ∩ ∅ = (∅ : gset str)) as ->
    by apply (right_absorb_L _ _).
  apply size_empty.
Qed.

End more_searching.

Section more_searching_witnesses.
Import Examples MoreExamples.

(** A search beside another conversation. *)
Lemma simple_search_read_only_witness :
  let run := simple_search demo_service demo_id (py "lease term") 5
               two_workspaces in
  run.1 ≠ Raised
  ∧ run.1 = Returned (Some (py "[From: a.txt]" ++ nl ++ sixty))
  ∧ spawned run.2 = []
  ∧ keeps_files (fs two_workspaces) (fs run.2).
Proof.
  intros run.
  assert (run.1 ≠ Raised) as H by (vm_compute; discriminate).
  split; [exact H|]. split; [vm_compute; reflexivity|].
  destruct (simple_search_read_only demo_service demo_id (py "lease term") 5
              two_workspaces H) as (H1 & H2 & _).
  split; [exact H1|exact H2].
Defined.

(** Two paragraphs score; the bound 1 keeps one chunk. *)
Lemma simple_search_bounds_witness :
  let result :=
    (simple_search demo_service demo_id (py "lease term") 1 two_paragraphs).1
  in
  ∃ text,
    (0 ≤ 1)%Z
    ∧ result = Returned (Some text)
    ∧ ∃ chosen,
        text = render chosen ∧ length chosen ≤ 1 ∧ chosen ≠ [].
Proof.
  intros result. eexists.
  assert (0 ≤ 1)%Z as H1 by lia.
  assert (result = Returned (Some _)) as H2 by (vm_compute; reflexivity).
  split; [exact H1|]. split; [exact H2|].
  destruct (simple_search_bounds demo_service demo_id (py "lease term") 1
              two_paragraphs _ H1 H2) as (chosen & Ht & Hl & _ & Hne & _).
  exists chosen. split; [exact Ht|]. split; [exact Hl|].
  apply Hne. lia.
Defined.

(** Three spaces, asked of a document. *)
Lemma simple_search_blank_query_witness :
  let run := simple_search demo_service demo_id (py "   ") 5 two_paragraphs in
  Forall (λ c, is_space c = true) (py "   ")
  ∧ run.1 ≠ Raised
  ∧ run.1 = Returned None.
Proof.
  intros run.
  assert (Forall (λ c, is_space c = true) (py "   ")) as H1
    by (repeat constructor).
  assert (run.1 ≠ Raised) as H2 by (vm_compute; discriminate).
  split; [exact H1|]. split; [exact H2|].
  exact (simple_search_blank_query demo_service demo_id (py "   ") 5
           two_paragraphs H1 H2).
Defined.

End more_searching_witnesses.

(** * More on deleting a conversation *)

Section pruning.
Implicit Types (p q : path) (n : node) (gone : path → bool).

(** The entries a partial removal leaves in a directory: those that are
    not gone, each pruned in turn. *)
Lemma prune_dir gone here es :
  ∃ es', prune gone here (Dir es) = Dir es'
         ∧ ∀ k, assoc k es'
                = if gone (here ++ [k]) then None
                  else prune gone (here ++ [k]) <$> assoc k es.
Proof.
  induction es as [|[k0 ch] es (es' & E & IH)].
  - exists []. split; [done|]. intros k. by destruct (gone _).
  - simpl in E |- *. injection E as E.
    destruct (gone (here ++ [k0])) eqn:Hg.
    + exists es'. split; [by rewrite E|]. intros k. rewrite IH.
      destruct (decide (k = k0)) as [->|Hne]; [by rewrite Hg|done].
    + eexists. split; [by rewrite E|]. intros k. simpl.
      destruct (decide (k = k0)) as [->|Hne]; [by rewrite Hg|by rewrite IH].
Qed.

(** A partial removal brings in no file and changes none. *)
Lemma lookup_prune_file gone here q n t :
  lookup q (prune gone here n) = Some (File t) → lookup q n = Some (File t).
Proof.
  revert here n. induction q as [|c q IH]; intros here n.
  - destruct n as [|es]; [done|].
    by destruct (prune_dir gone here es) as (es' & -> & _).
  - destruct n as [|es]; [done|].
    destruct (prune_dir gone here es) as (es' & -> & Ha).
    rewrite !lookup_cons, Ha.
    destruct (gone (here ++ [c])); [done|].
    destruct (assoc c es) as [ch|]; [|done]. apply IH.
Qed.

Lemma prune_at_file gone p t : prune_at p gone (File t) = File t.
Proof. by destruct p. Qed.

Lemma prune_at_cons gone c p es :
  prune_at (c :: p) gone (Dir es)
  = match assoc c es with
    | Some ch => Dir (set_entry c (prune_at p gone ch) es)
    | None => Dir es
    end.
Proof. done. Qed.

(** The root of a removal that was refused is still a directory. *)
Lemma prune_at_keeps_root gone p n es :
  lookup p n = Some (Dir es) →
  ∃ es', lookup p (prune_at p gone n) = Some (Dir es').
Proof.
  revert n. induction p as [|c p IH]; intros n.
  - intros [= ->]. destruct (prune_dir gone [] es) as (es' & E & _).
    exists es'. by rewrite <-E.
  - destruct n as [|es0]; [done|]. rewrite lookup_cons, prune_at_cons.
    destruct (assoc c es0) as [ch|] eqn:E; [|done]. intros Hl.
    rewrite lookup_cons, assoc_set_entry_eq. by apply IH.
Qed.

Lemma prune_at_lookup_file gone p q n t :
  lookup q (prune_at p gone n) = Some (File t) → lookup q n = Some (File t).
Proof.
  revert q n. induction p as [|c p IH]; intros q n.
  - apply lookup_prune_file.
  - destruct n as [|es]; [done|]. rewrite prune_at_cons.
    destruct (assoc c es) as [ch|] eqn:E; [|done].
    destruct q as [|a q]; [done|]. rewrite !lookup_cons.
    destruct (decide (c = a)) as [->|Hne].
    + rewrite assoc_set_entry_eq, E. apply IH.
    + by rewrite assoc_set_entry_ne.
Qed.

(** A refused removal changes nothing at a path that is neither above
    nor below its root. *)
Lemma prune_at_lookup_other gone p q n :
  (∀ r, p ≠ q ++ r) → (∀ r, q ≠ p ++ r) →
  lookup q (prune_at p gone n) = lookup q n.
Proof.
  revert q n. induction p as [|c p IH]; intros q n Hp Hq.
  - by destruct (Hq q).
  - destruct n as [|es]; [done|]. rewrite prune_at_cons.
    destruct (assoc c es) as [ch|] eqn:E; [|done].
    destruct q as [|a q]; [by destruct (Hp (c :: p))|]. rewrite !lookup_cons.
    destruct (decide (c = a)) as [->|Hne].
    + rewrite assoc_set_entry_eq, E. apply IH.
      * intros r Hr. apply (Hp r). by rewrite Hr.
      * intros r Hr. apply (Hq r). by rewrite Hr.
    + by rewrite assoc_set_entry_ne.
Qed.

(** A refused removal keeps every file that is not below its root. *)
Lemma prune_at_keeps_file_outside gone p q n t :
  lookup q n = Some (File t) → ¬ p `prefix_of` q →
  lookup q (prune_at p gone n) = Some (File t).
Proof.
  revert q n. induction p as [|c p IH]; intros q n Hl Hq.
  - destruct Hq. apply prefix_nil.
  - destruct n as [|es]; [done|]. rewrite prune_at_cons.
    destruct (assoc c es) as [ch|] eqn:E; [|done].
    destruct q as [|a q]; [done|]. rewrite lookup_cons in Hl |- *.
    destruct (decide (c = a)) as [->|Hne].
    + rewrite assoc_set_entry_eq. rewrite E in Hl. apply IH; [done|].
      intros Hpre. apply Hq. by apply prefix_cons.
    + by rewrite assoc_set_entry_ne.
Qed.

End pruning.

Section more_deleting.
Context (self : GraphRAGService) (conversation_id : str).
Implicit Types (st : state) (n : node).

(** A removal, from any disk: after the directory helper, the disk is left
    as the helper made it, or with the conversation's tree removed, or with
    a part of what the tree held removed. *)
Lemma delete_conversation_data_outcome n :
  ∃ (r : outcome bool) n1 n' evs,
    prepared self conversation_id n n1
    ∧ (∀ log0, delete_conversation_data self conversation_id
                 {| fs := n; log := log0 |}
               = (r, {| fs := n'; log := log0 ++ evs |}))
    ∧ (n' = n1
       ∨ rmtree (conv_path self conversation_id) n1 = Some n'
       ∨ n' = prune_at (conv_path self conversation_id)
                (rmtree_removed (host self)
                   (conv_path self conversation_id) n1) n1)
    ∧ (r ≠ Raised →
       (∃ es, lookup (conv_path self conversation_id) n1 = Some (Dir es))
       ∧ (rmtree_fails (host self) (conv_path self conversation_id) n1
          = true →
          r = Returned false
          ∧ n' = prune_at (conv_path self conversation_id)
                   (rmtree_removed (host self)
                      (conv_path self conversation_id) n1) n1
          ∧ evs = [Print MsgDeleteError])).
Proof.
  destruct (get_conversation_dir_any self conversation_id n)
    as (r1 & n1 & P1 & E1 & H1).
  unfold delete_conversation_data.
  destruct H1 as [->|[-> [es Hdir]]].
  { exists Raised, n1, n1, []. split; [done|]. split.
    - intros log0. unfold bind at 1. by rewrite E1, app_nil_r.
    - split; [by left|done]. }
  destruct (rmtree_fails (host self) (conv_path self conversation_id) n1)
    eqn:Hfail.
  { exists (Returned false), n1,
      (prune_at (conv_path self conversation_id)
         (rmtree_removed (host self) (conv_path self conversation_id) n1)
         n1),
      [Print MsgDeleteError].
    split; [done|]. split.
    - intros log0. unfold bind at 1. rewrite E1.
      unfold bind at 1. unfold path_exists at 1. cbn [fs].
      unfold exists_. rewrite Hdir.
      unfold bind at 1. unfold catch, shutil_rmtree. cbn [fs log].
      rewrite Hfail. unfold bind, print, ret. by cbn [fs log].
    - split; [by right; right|]. intros _. split; [by exists es|done]. }
  destruct (rmtree (conv_path self conversation_id) n1) as [n2|] eqn:Hrm.
  - exists (Returned true), n1, n2, [Print (MsgDeleted conversation_id)].
    split; [done|]. split.
    + intros log0. unfold bind at 1. rewrite E1.
      unfold bind at 1. unfold path_exists at 1. cbn [fs].
      unfold exists_. rewrite Hdir.
      unfold bind at 1. unfold catch, shutil_rmtree. cbn [fs log].
      rewrite Hfail, Hrm. unfold bind, print, ret. by cbn [fs log].
    + split; [by right; left|]. intros _. split; [by exists es|].
      intros Hf. congruence.
  - exists (Returned false), n1, n1, [Print MsgDeleteError].
    split; [done|]. split.
    + intros log0. unfold bind at 1. rewrite E1.
      unfold bind at 1. unfold path_exists at 1. cbn [fs].
      unfold exists_. rewrite Hdir.
      unfold bind at 1. unfold catch, shutil_rmtree. cbn [fs log].
      rewrite Hfail, Hrm. unfold bind, print, ret. by cbn [fs log].
    + split; [by left|]. intros _. split; [by exists es|].
      intros Hf. congruence.
Qed.

(** When the removal is refused ([shutil.rmtree] raises), the call prints
    the error and returns [False].  The conversation's directory is still
    there, but what it held may be gone in part: the removal had gone on
    until it was refused.  No file has appeared or changed, and every file
    that is not below the conversation's directory is kept. *)
Theorem delete_conversation_data_refused st :
  (∀ n, rmtree_fails (host self) (conv_path self conversation_id) n = true) →
  let run := delete_conversation_data self conversation_id st in
  run.1 ≠ Raised →
  run.1 = Returned false
  ∧ log run.2 = log st ++ [Print MsgDeleteError]
  ∧ exists_ (conv_path self conversation_id) (fs run.2) = true
  ∧ (∀ q t, lookup q (fs run.2) = Some (File t) →
            lookup q (fs st) = Some (File t))
  ∧ (∀ q t, ¬ conv_path self conversation_id `prefix_of` q →
            lookup q (fs st) = Some (File t) →
            lookup q (fs run.2) = Some (File t)).
Proof.
  intros Hhost run Hnr. destruct st as [n log0].
  destruct (delete_conversation_data_outcome n)
    as (r & n1 & n' & evs & P & E & _ & H).
  subst run. rewrite E in Hnr |- *. cbn [fst snd fs log] in *.
  destruct (H Hnr) as ([es Hdir] & Hf).
  destruct (Hf (Hhost n1)) as (-> & -> & ->).
  pose proof (prepared_keeps_files self conversation_id n n1 P) as Hkeep.
  split; [done|]. split; [done|]. split; [|split].
  - unfold exists_.
    by destruct (prune_at_keeps_root
                   (rmtree_removed (host self)
                      (conv_path self conversation_id) n1)
                   _ _ _ Hdir) as [es' ->].
  - intros q t Hl. apply prune_at_lookup_file in Hl. by apply Hkeep.
  - intros q t Hq Hl. apply prune_at_keeps_file_outside; [|done].
    by apply Hkeep.
Qed.

(** Removing one conversation leaves every other conversation as it is:
    whatever the call does, nothing changes at or below the directory of
    another conversation. *)
Theorem delete_conversation_data_isolated st other r :
  other ≠ conversation_id →
  let st' := (delete_conversation_data self conversation_id st).2 in
  lookup (conv_path self other ++ r) (fs st')
  = lookup (conv_path self other ++ r) (fs st).
Proof.
  intros Hne st'. destruct st as [n log0].
  destruct (delete_conversation_data_outcome n)
    as (r0 & n1 & n' & evs & P & E & Hn' & _).
  subst st'. rewrite E. cbn [snd fs].
  rewrite <-(prepared_other_workspace self conversation_id n n1 other r P Hne).
  destruct Hn' as [->|[Hrm| ->]]; [done|..].
  - apply (rmtree_lookup_other _ _ _ _ Hrm); intros r'; unfold conv_path;
      rewrite <-!app_assoc; intros Heq; apply app_inv_head in Heq;
      simpl in Heq; congruence.
  - apply prune_at_lookup_other; intros r'; unfold conv_path;
      rewrite <-!app_assoc; intros Heq; apply app_inv_head in Heq;
      simpl in Heq; congruence.
Qed.

End more_deleting.

Section more_deleting_witnesses.
Import Examples MoreExamples.

(** Two conversations; the removal of one is refused after its document
    is gone. *)
Lemma delete_conversation_data_refused_witness :
  let st := two_workspaces in
  let run := delete_conversation_data refusing_service demo_id st in
  let lost := input_path refusing_service demo_id ++ [py "a.txt"] in
  let kept := input_path refusing_service other_id ++ [py "b.txt"] in
  (∀ n, rmtree_fails (host refusing_service)
          (conv_path refusing_service demo_id) n = true)
  ∧ run.1 ≠ Raised
  ∧ run.1 = Returned false
  ∧ log run.2 = [Print MsgDeleteError]
  ∧ exists_ (conv_path refusing_service demo_id) (fs run.2) = true
  ∧ lookup lost (fs st) = Some (File (Some sixty))
  ∧ lookup lost (fs run.2) = None
  ∧ lookup kept (fs run.2) = Some (File (Some lease_text)).
Proof.
  intros st run lost kept.
  assert (∀ n, rmtree_fails (host refusing_service)
                 (conv_path refusing_service demo_id) n = true) as H1
    by reflexivity.
  assert (run.1 ≠ Raised) as H2 by (vm_compute; discriminate).
  destruct (delete_conversation_data_refused refusing_service demo_id
              st H1 H2) as (H3 & H4 & H5 & _ & H6).
  split; [exact H1|]. split; [exact H2|]. split; [exact H3|].
  split; [exact H4|]. split; [exact H5|].
  split; [vm_compute; reflexivity|]. split; [vm_compute; reflexivity|].
  apply H6; [|vm_compute; reflexivity].
  intros [r Hr]. vm_compute in Hr. discriminate Hr.
Defined.

(** One of two conversations removed; the document of the other one. *)
Lemma delete_conversation_data_isolated_witness :
  let st := two_workspaces in
  let run := delete_conversation_data demo_service demo_id st in
  let kept := conv_path demo_service other_id ++ [py "input"; py "b.txt"] in
  other_id ≠ demo_id
  ∧ run.1 = Returned true
  ∧ lookup (conv_path demo_service demo_id) (fs run.2) = None
  ∧ lookup kept (fs run.2) = Some (File (Some lease_text))
  ∧ lookup kept (fs run.2) = lookup kept (fs st).
Proof.
  intros st run kept.
  assert (other_id ≠ demo_id) as H by (vm_compute; discriminate).
  split; [exact H|]. split; [vm_compute; reflexivity|].
  split; [vm_compute; reflexivity|]. split; [vm_compute; reflexivity|].
  exact (delete_conversation_data_isolated demo_service demo_id st other_id
           [py "input"; py "b.txt"] H).
Defined.

End more_deleting_witnesses.

(** * The text clean-up *)

Section cleaning.
Import PdfConverter.
Implicit Types (s t l : str) (ls : list str).

Lemma split_nl_free s x : x ∈ split nl s → "010"%char ∉ x.
Proof.
  revert x. pattern s. apply (scan_ind nl); [done|..]; clear s.
  - intros x. rewrite split_eq by done. simpl.
    intros ->%list_elem_of_singleton. apply not_elem_of_nil.
  - intros rest IH x. rewrite split_eq, strip_prefix_app by done.
    intros [->|H]%elem_of_cons; [apply not_elem_of_nil|by apply IH].
  - intros c r E IH x. rewrite split_eq by done. rewrite E.
    assert (c ≠ "010"%char) as Hc.
    { intros ->. change ("010"%char :: r) with (nl ++ r) in E.
      by rewrite strip_prefix_app in E. }
    destruct (split nl r) as [|p ps] eqn:Er.
    + intros ->%list_elem_of_singleton.
      intros [?|?%elem_of_nil]%elem_of_cons; done.
    + intros [->|H]%elem_of_cons.
      * intros [?|?]%elem_of_cons; [done|]. apply (IH p); [left|done].
      * apply IH. by right.
Qed.

Lemma strip_prefix_nl_cons c s :
  c ≠ "010"%char → strip_prefix nl (c :: s) = None.
Proof. intros H. unfold nl. simpl. by rewrite decide_False by done. Qed.

Lemma split_nl_app x rest :
  "010"%char ∉ x → split nl (x ++ nl ++ rest) = x :: split nl rest.
Proof.
  induction x as [|c x IH]; intros H.
  - cbn [app]. by rewrite split_eq, strip_prefix_app.
  - change ((c :: x) ++ nl ++ rest) with (c :: (x ++ nl ++ rest)).
    rewrite split_eq, strip_prefix_nl_cons by set_solver.
    rewrite IH; [done|]. intros ?. apply H. by right.
Qed.

Lemma split_nl_line x : "010"%char ∉ x → split nl x = [x].
Proof.
  induction x as [|c x IH]; intros H.
  - by rewrite split_eq.
  - rewrite split_eq, strip_prefix_nl_cons by set_solver.
    rewrite IH; [done|]. intros ?. apply H. by right.
Qed.

(** Splitting at line feeds undoes joining with them. *)
Lemma split_join_nl ls :
  ls ≠ [] → Forall (λ l, "010"%char ∉ l) ls → split nl (join nl ls) = ls.
Proof.
  induction ls as [|l ls IH]; [done|]. intros _ [Hl Hls]%Forall_cons.
  destruct ls as [|l2 ls].
  - by apply split_nl_line.
  - rewrite join_cons, split_nl_app by done. by rewrite IH.
Qed.

(** The loop of [clean_text] keeps, in order, the trimmed lines that are
    not empty. *)
Lemma cleaned_lines_filter lines :
  cleaned_lines lines
  = List.filter (λ l, negb (bool_decide (l = []))) (map strip lines).
Proof.
  unfold cleaned_lines.
  assert (∀ acc,
            foldl (λ cleaned_lines line,
                     match strip line with
                     | [] => cleaned_lines
                     | _ :: _ => cleaned_lines ++ [strip line]
                     end) acc lines
            = acc ++ List.filter (λ l, negb (bool_decide (l = [])))
                       (map strip lines)) as H; [|apply H].
  induction lines as [|l lines IH]; intros acc.
  - cbn. by rewrite app_nil_r.
  - cbn [foldl map List.filter]. rewrite IH.
    destruct (strip l) as [|c s]; [done|].
    rewrite bool_decide_eq_false_2 by done. cbn [negb].
    by rewrite <-app_assoc.
Qed.

Lemma cleaned_lines_clean lines :
  Forall (λ l, "010"%char ∉ l) lines →
  Forall clean_line (cleaned_lines lines).
Proof.
  rewrite cleaned_lines_filter. induction 1 as [|l lines Hl _ IH]; [done|].
  cbn [map List.filter].
  destruct (bool_decide (strip l = [])) eqn:E; cbn [negb]; [done|].
  apply bool_decide_eq_false in E. constructor; [|done].
  split; [done|]. split; [|apply strip_trimmed].
  intros H. by apply Hl, strip_elem.
Qed.

Lemma cleaned_lines_id ls :
  Forall clean_line ls → cleaned_lines ls = ls.
Proof.
  rewrite cleaned_lines_filter.
  induction 1 as [|l ls (Hne & _ & Htr) _ IH]; [done|].
  cbn [map List.filter]. rewrite (strip_id l Htr).
  rewrite bool_decide_eq_false_2 by done. cbn [negb]. by rewrite IH.
Qed.

Lemma contains_absent_char c sub s : c ∉ s → contains (c :: sub) s = false.
Proof.
  intros H. destruct (contains (c :: sub) s) eqn:E; [|done].
  apply contains_true in E as (a & b & ->). exfalso. apply H.
  apply elem_of_app. right. by left.
Qed.

Lemma startswith_nl_clean l t :
  l ≠ [] → "010"%char ∉ l → startswith (l ++ t) nl = false.
Proof.
  intros Hne H. destruct l as [|c l]; [done|].
  unfold startswith. cbn [app]. rewrite strip_prefix_nl_cons; [done|].
  intros ->. apply H. by left.
Qed.

Lemma no_blank_cons l t :
  l ≠ [] → "010"%char ∉ l →
  startswith t nl = false → contains (nl ++ nl) t = false →
  contains (nl ++ nl) (l ++ nl ++ t) = false.
Proof.
  intros Hne Hl Hs Hc. induction l as [|c l IH]; [done|].
  change ((c :: l) ++ nl ++ t) with (c :: (l ++ nl ++ t)).
  rewrite contains_cons.
  assert (c ≠ "010"%char) as Hc' by (intros ->; apply Hl; by left).
  assert (startswith (c :: l ++ nl ++ t) (nl ++ nl) = false) as ->.
  { unfold startswith, nl. simpl. by rewrite decide_False by done. }
  cbn [orb]. destruct l as [|c2 l].
  - change ([] ++ nl ++ t) with ("010"%char :: t).
    rewrite contains_cons, Hc, orb_false_r. unfold startswith in Hs |- *.
    change (strip_prefix (nl ++ nl) ("010"%char :: t))
      with (if decide ("010"%char = "010"%char)
            then strip_prefix nl t else None).
    by rewrite decide_True by done.
  - apply IH; [done|]. intros ?. apply Hl. by right.
Qed.

Lemma join_clean_nonempty ls :
  ls ≠ [] → Forall clean_line ls → join nl ls ≠ [].
Proof.
  destruct ls as [|l ls]; [done|]. intros _ [(Hne & _) _]%Forall_cons.
  destruct ls; [done|]. rewrite join_cons by done. by destruct l.
Qed.

Lemma join_clean_start ls :
  Forall clean_line ls → startswith (join nl ls) nl = false.
Proof.
  destruct ls as [|l ls]; [done|]. intros [(Hne & Hl & _) _]%Forall_cons.
  destruct ls as [|l2 ls].
  - cbn [join]. rewrite <-(app_nil_r l). by apply startswith_nl_clean.
  - rewrite join_cons by done. by apply startswith_nl_clean.
Qed.

(** Clean lines joined by single line feeds have no blank line. *)
Lemma join_clean_no_blank ls :
  Forall clean_line ls → contains (nl ++ nl) (join nl ls) = false.
Proof.
  induction 1 as [|l ls (Hne & Hl & Htr) Hls IH]; [done|].
  destruct ls as [|l2 ls].
  - cbn [join]. by apply contains_absent_char.
  - rewrite join_cons by done.
    apply no_blank_cons; [done..| |done]. by apply join_clean_start.
Qed.

Lemma join_clean_trimmed ls : Forall clean_line ls → trimmed (join nl ls).
Proof.
  induction 1 as [|l ls (Hne & Hl & Htr) Hls IH]; [done|].
  destruct ls as [|l2 ls]; [done|].
  rewrite join_cons by done. split.
  - apply starts_clean_app_l; [done|]. apply Htr.
  - rewrite app_assoc. apply ends_clean_app_r; [|apply IH].
    by apply join_clean_nonempty.
Qed.

Lemma no_blank_no_triple s :
  contains (nl ++ nl) s = false → contains (nl ++ nl ++ nl) s = false.
Proof.
  intros H. destruct (contains (nl ++ nl ++ nl) s) eqn:E; [|done].
  apply contains_true in E as (a & b & ->).
  rewrite <-H. symmetry. apply contains_true.
  exists a, (nl ++ b). by rewrite <-!app_assoc.
Qed.

Lemma collapse_newlines_clean fuel s :
  contains (nl ++ nl) s = false → collapse_newlines fuel s = s.
Proof.
  intros H. destruct fuel as [|fuel]; [done|].
  cbn [collapse_newlines]. by rewrite (no_blank_no_triple s H).
Qed.

Lemma clean_text_join text :
  clean_text text = join nl (cleaned_lines (split nl text))
  ∧ Forall clean_line (cleaned_lines (split nl text)).
Proof.
  assert (Forall clean_line (cleaned_lines (split nl text))) as Hclean.
  { apply cleaned_lines_clean, Forall_forall. intros l. apply split_nl_free. }
  split; [|done]. unfold clean_text. cbv zeta.
  by apply collapse_newlines_clean, join_clean_no_blank.
Qed.

Lemma clean_text_result_clean text :
  contains (nl ++ nl) (clean_text text) = false ∧ trimmed (clean_text text).
Proof.
  destruct (clean_text_join text) as [-> Hclean].
  split; [by apply join_clean_no_blank|by apply join_clean_trimmed].
Qed.

(** [clean_text] gives the lines of the text that are not blank, trimmed
    and joined by single line feeds.  So its result has no blank line at
    all and no white space at either end; the loop that is to bring runs of
    line feeds down to two never finds one. *)
Theorem clean_text_no_blank_line text :
  let lines :=
    List.filter (λ l, negb (bool_decide (l = [])))
      (map strip (split nl text)) in
  clean_text text = join nl lines
  ∧ Forall clean_line lines
  ∧ contains (nl ++ nl) (clean_text text) = false
  ∧ trimmed (clean_text text).
Proof.
  intros lines.
  destruct (clean_text_join text) as [Hjoin Hclean].
  destruct (clean_text_result_clean text) as [Hno Htr].
  rewrite cleaned_lines_filter in Hjoin, Hclean. by fold lines in Hjoin, Hclean.
Qed.

(** Cleaning a text twice is cleaning it once, and clean lines joined by
    line feeds are left as they are. *)
Theorem clean_text_idempotent text :
  clean_text (clean_text text) = clean_text text
  ∧ ∀ ls, Forall clean_line ls → clean_text (join nl ls) = join nl ls.
Proof.
  assert (∀ ls, Forall clean_line ls → clean_text (join nl ls) = join nl ls)
    as Hfix.
  { intros ls Hls. unfold clean_text. cbv zeta.
    assert (cleaned_lines (split nl (join nl ls)) = ls) as ->.
    { destruct ls as [|l ls']; [done|].
      rewrite split_join_nl; [by apply cleaned_lines_id|done|].
      eapply Forall_impl; [exact Hls|]. by intros l0 (_ & ? & _). }
    by apply collapse_newlines_clean, join_clean_no_blank. }
  split; [|done]. destruct (clean_text_join text) as [-> Hclean].
  by apply Hfix.
Qed.

End cleaning.

Section cleaning_then_saving.
Context (self : GraphRAGService) (conversation_id : str).
Import PdfConverter.

(** Saving a cleaned text.  Trimming finds nothing to remove and the test
    for a blank line never holds, so the length alone decides: a cleaned
    text of more than 200 characters is written with a paragraph break at
    every period followed by a space, a shorter one as it is; a newline
    ends the file in both cases. *)
Theorem save_document_of_cleaned_text filename text st p st' :
  let content := clean_text text in
  save_document self conversation_id filename content st = (Returned p, st') →
  lookup p (fs st')
  = Some (File (Some ((if 200 <? length content
                       then replace (py ". ") (py "." ++ nl ++ nl) content
                       else content) ++ nl))).
Proof.
  intros content (n1 & _ & _ & _ & Hw)%save_document_returns.
  rewrite (write_text_lookup _ _ _ _ Hw), format_content_eq.
  destruct (clean_text_result_clean text) as (Hno & Htr).
  fold content in Hno, Htr.
  rewrite (strip_id content Htr). unfold add_paragraph_breaks.
  by rewrite Hno.
Qed.

End cleaning_then_saving.

Section cleaning_witnesses.
Import Examples MoreExamples.

(** Ragged text, cleaned and saved on an empty disk. *)
Lemma save_document_of_cleaned_text_witness :
  let content := PdfConverter.clean_text ragged_text in
  let run := save_document demo_service demo_id (py "lease.pdf") content
               empty_state in
  let p := input_path demo_service demo_id ++ [py "lease.txt"] in
  run = (Returned p, run.2)
  ∧ lookup p (fs run.2)
    = Some (File (Some (py "Lease agreement" ++ nl
                        ++ py "The term is five years." ++ nl
                        ++ py "Rent is due monthly." ++ nl))).
Proof.
  intros content run p.
  assert (run = (Returned p, run.2)) as H by (vm_compute; reflexivity).
  split; [exact H|].
  exact (save_document_of_cleaned_text demo_service demo_id (py "lease.pdf")
           ragged_text empty_state p run.2 H).
Defined.

End cleaning_witnesses.

(** Ragged text from a page extractor, cleaned. *)
Example clean_text_sample :
  PdfConverter.clean_text MoreExamples.ragged_text
  = py "Lease agreement" ++ nl ++ py "The term is five years." ++ nl
    ++ py "Rent is due monthly.".
Proof. vm_compute. reflexivity. Qed.
